(** * The CRI container statistics provider of cloudpods

    A shallow embedding of [pkg/util/pod/stats/cri_stats_provider.go]:
    the per-container CPU rate cache, the two dedup filters for pod
    sandboxes and containers, and the snapshot pass that joins the
    runtime's listings with the accounting subsystem's container infos.

    Conventions of the embedding.
    - A Go pointer that may be nil is an [option]; dereferencing [None]
      is a run-time panic, modelled by the [Fault] outcome.
    - [uint64] and [int64] values are integers of [Z]; every operation
      that can wrap around in Go has its wrap-around written out.
    - [float64] is IEEE 754 binary64, computed with the specification
      floats of the standard library (precision 53, emax 1024).
    - A Go map is a [gmap]; the order in which [range] visits a map is
      not specified by Go and is a parameter of the development.
    - The wall clock is an explicit argument [now], in nanoseconds since
      the epoch; a pass reads the clock several times and the readings
      are taken to be that one instant. Logging is left out. *)

From Stdlib Require Import ZArith Lia Reals Lra Floats.SpecFloat.
From stdpp Require Import gmap strings list fin_maps sorting.

Local Open Scope Z_scope.

(** ** Go machine integers, panics and errors *)

Module Go.

Definition two64 : Z := 2 ^ 64.
Definition maxInt64 : Z := 2 ^ 63 - 1.
Definition minInt64 : Z := - 2 ^ 63.

(** Wrap-around of [uint64] arithmetic. *)
Definition wrap_u64 (z : Z) : Z := z mod two64.

(** Wrap-around of [int64] arithmetic (two's complement). *)
Definition wrap_i64 (z : Z) : Z := (z + 2 ^ 63) mod two64 - 2 ^ 63.

Definition is_u64 (z : Z) : Prop := 0 <= z < two64.
Definition is_i64 (z : Z) : Prop := minInt64 <= z <= maxInt64.

(** The result of running a piece of Go code: it returns, or it
    panics (nil pointer dereference, index out of range). *)
Inductive outcome (A : Type) : Type :=
| Done (a : A)
| Fault.
Global Arguments Done {A} a.
Global Arguments Fault {A}.

Global Instance outcome_ret : MRet outcome := fun A a => Done a.
Global Instance outcome_bind : MBind outcome := fun A B f m =>
  match m with
  | Done a => f a
  | Fault => Fault
  end.

(** Dereference of a pointer that may be nil. *)
Definition deref {A} (p : option A) : outcome A :=
  match p with
  | Some a => Done a
  | None => Fault
  end.

(** Go's [error] values: the collaborators' own errors, and the two
    ways this package wraps them. *)
Inductive error : Type :=
| Raw (msg : string)
| Errorf (format : string) (cause : error)   (* fmt.Errorf("...: %v", err) *)
| Wrap (cause : error) (msg : string).       (* errors.Wrap(err, "...") *)

End Go.
Import Go.

(** ** [float64] arithmetic *)

Module F64.

Definition prec : Z := 53.
Definition emax : Z := 1024.

(** [float64(n)] for an integer [n]: round to nearest, ties to even. *)
Definition of_int (n : Z) : spec_float := binary_normalize prec emax n 0 false.

Definition div : spec_float -> spec_float -> spec_float := SFdiv prec emax.
Definition mul : spec_float -> spec_float -> spec_float := SFmul prec emax.

(** The integer part of a finite float, as a mathematical integer
    (truncation toward zero); infinities and NaN have none. *)
Definition trunc (f : spec_float) : option Z :=
  match f with
  | S754_zero _ => Some 0
  | S754_finite false m e => Some (Z.shiftl (Z.pos m) e)
  | S754_finite true m e => Some (- Z.shiftl (Z.pos m) e)
  | S754_infinity _ | S754_nan => None
  end.

(** [uint64(f)]. The fraction is discarded. When the truncated value
    is not a [uint64] the conversion succeeds with a value that Go
    leaves to the implementation: [unrepresentable f], some [uint64]. *)
Definition to_uint64 (unrepresentable : spec_float -> Z) (f : spec_float) : Z :=
  match trunc f with
  | Some z => if decide (0 <= z < two64) then z else wrap_u64 (unrepresentable f)
  | None => wrap_u64 (unrepresentable f)
  end.

End F64.

(** ** The CRI messages ([k8s.io/cri-api/pkg/apis/runtime/v1]) *)

Module runtimeapi.

Module UInt64Value.
Record t : Type := mk { Value : Z }.
End UInt64Value.

Module CpuUsage.
Record t : Type := mk {
  Timestamp : Z;                                   (* int64, ns since epoch *)
  UsageCoreNanoSeconds : option UInt64Value.t
}.
End CpuUsage.

Module MemoryUsage.
Record t : Type := mk {
  Timestamp : Z;
  WorkingSetBytes : option UInt64Value.t
}.
End MemoryUsage.

Module FilesystemIdentifier.
Record t : Type := mk { Mountpoint : string }.
End FilesystemIdentifier.

Module FilesystemUsage.
Record t : Type := mk {
  Timestamp : Z;
  FsId : option FilesystemIdentifier.t;
  UsedBytes : option UInt64Value.t;
  InodesUsed : option UInt64Value.t
}.
End FilesystemUsage.

Module ContainerMetadata.
Record t : Type := mk { Name : string; Attempt : Z }.
End ContainerMetadata.

Module ContainerAttributes.
Record t : Type := mk {
  Id : string;
  Metadata : option ContainerMetadata.t;
  Labels : gmap string string
}.
End ContainerAttributes.

Module ContainerStats.
Record t : Type := mk {
  Attributes : option ContainerAttributes.t;
  Cpu : option CpuUsage.t;
  Memory : option MemoryUsage.t;
  WritableLayer : option FilesystemUsage.t
}.
(** [GetWritableLayer().GetFsId()]: the generated getters tolerate nil. *)
Definition GetFsId (st : t) : option FilesystemIdentifier.t :=
  WritableLayer st ≫= FilesystemUsage.FsId.
End ContainerStats.

Module PodSandboxMetadata.
Record t : Type := mk {
  Name : string;
  Uid : string;
  Namespace : string;
  Attempt : Z
}.
End PodSandboxMetadata.

Inductive PodSandboxState : Type :=
| SANDBOX_READY
| SANDBOX_NOTREADY.

Module PodSandbox.
Record t : Type := mk {
  Id : string;
  Metadata : option PodSandboxMetadata.t;
  State : PodSandboxState;
  CreatedAt : Z;                                   (* int64, ns since epoch *)
  Labels : gmap string string
}.
(** [GetMetadata().GetName()] and [GetMetadata().GetNamespace()]. *)
Definition GetName (pod : t) : string :=
  from_option PodSandboxMetadata.Name "" (Metadata pod).
Definition GetNamespace (pod : t) : string :=
  from_option PodSandboxMetadata.Namespace "" (Metadata pod).
End PodSandbox.

Inductive ContainerState : Type :=
| CONTAINER_CREATED
| CONTAINER_RUNNING
| CONTAINER_EXITED
| CONTAINER_UNKNOWN.

Module Container.
Record t : Type := mk {
  Id : string;
  PodSandboxId : string;
  Metadata : option ContainerMetadata.t;
  State : ContainerState;
  CreatedAt : Z;                                   (* int64, ns since epoch *)
  Labels : gmap string string
}.
End Container.

Global Instance PodSandboxState_eq_dec : EqDecision PodSandboxState.
Proof. solve_decision. Defined.
Global Instance ContainerState_eq_dec : EqDecision ContainerState.
Proof. solve_decision. Defined.

End runtimeapi.
Import runtimeapi.

(** ** The accounting subsystem's types ([github.com/google/cadvisor/info]) *)

Module cadvisorapi.

(** [v2.FsInfo], the fields this package reads. *)
Module FsInfo.
Record t : Type := mk {
  Capacity : Z;
  Available : Z;
  Inodes : option Z;
  InodesFree : option Z
}.
End FsInfo.

(** [v1.ProcessStats]. *)
Module ProcessStats.
Record t : Type := mk {
  ProcessCount : Z;
  FdCount : Z;
  SocketCount : Z;
  ThreadsCurrent : Z;
  ThreadsMax : Z
}.
End ProcessStats.

(** [v1.MemoryStats], the fields this package reads. *)
Module MemoryStats.
Record t : Type := mk { Usage : Z; RSS : Z }.
End MemoryStats.

End cadvisorapi.

(** ** The types of the package's result *)

(** [metav1.Time]: the zero value of the struct, or an instant. *)
Inductive Time : Type :=
| ZeroTime
| Unix (nsec : Z).

(** [PodReference]: the identity of a pod. *)
Module PodReference.
Record t : Type := mk { Name : string; UID : string; Namespace : string }.

Global Instance eq_dec : EqDecision t.
Proof. solve_decision. Defined.
Global Instance countable : Countable t.
Proof.
  refine (inj_countable' (fun r => (Name r, UID r, Namespace r))
                         (fun p => mk p.1.1 p.1.2 p.2) _).
  by intros [].
Defined.
End PodReference.

(** [containerID]: a pod reference and a container name. *)
Module containerID.
Record t : Type := mk { podRef : PodReference.t; containerName : string }.

Global Instance eq_dec : EqDecision t.
Proof. solve_decision. Defined.
Global Instance countable : Countable t.
Proof.
  refine (inj_countable' (fun r => (podRef r, containerName r))
                         (fun p => mk p.1 p.2) _).
  by intros [].
Defined.
End containerID.

Module CPUStats.
Record t : Type := mk {
  Time : Time;
  UsageNanoCores : option Z;
  UsageCoreNanoSeconds : option Z
}.
(** [CPUStats{}] *)
Definition zero : t := mk ZeroTime None None.
End CPUStats.

Module MemoryStats.
Record t : Type := mk {
  Time : Time;
  AvailableBytes : option Z;
  UsageBytes : option Z;
  WorkingSetBytes : option Z;
  RSSBytes : option Z;
  PageFaults : option Z;
  MajorPageFaults : option Z
}.
(** [MemoryStats{}] *)
Definition zero : t := mk ZeroTime None None None None None None.
End MemoryStats.

Module FsStats.
Record t : Type := mk {
  Time : Time;
  AvailableBytes : option Z;
  CapacityBytes : option Z;
  UsedBytes : option Z;
  InodesFree : option Z;
  Inodes : option Z;
  InodesUsed : option Z
}.
(** [FsStats{}] *)
Definition zero : t := mk ZeroTime None None None None None None.
End FsStats.

Module ProcessStats.
Record t : Type := mk {
  ProcessCount : Z;
  FdCount : Z;
  SocketCount : Z;
  ThreadsCurrent : Z;
  ThreadsMax : Z
}.
(** [ProcessStats{}] *)
Definition zero : t := mk 0 0 0 0 0.
End ProcessStats.

(** The types of the collaborators whose content this file never looks
    into: the network statistics of a pod, one entry of a disk I/O
    table, a user-defined metric, the accounting subsystem's
    [v2.ContainerInfo] and its [v1.DiskIoStats]. *)
Class ExternalTypes : Type := {
  NetworkStats : Type;
  DiskIoStat : Type;
  UserDefinedMetric : Type;
  ContainerInfo : Type;
  CadvisorDiskIo : Type
}.

(** [v2.ContainerStats] of the accounting subsystem, the fields read. *)
Module CadvisorStats.
Section Def.
Context {T : ExternalTypes}.
Record t : Type := mk {
  Processes : option cadvisorapi.ProcessStats.t;
  DiskIo : CadvisorDiskIo;
  Memory : option cadvisorapi.MemoryStats.t
}.
End Def.
End CadvisorStats.

(** [ContainerStats] of this package (not the CRI message). *)
Module ContainerStats.
Section Def.
Context {T : ExternalTypes}.
Record t : Type := mk {
  Name : string;
  StartTime : Time;
  CPU : option CPUStats.t;
  Memory : option MemoryStats.t;
  Rootfs : option FsStats.t;
  DiskIo : option (gmap string DiskIoStat);        (* a map, nil or not *)
  ProcessStats : option ProcessStats.t;
  UserDefinedMetrics : list UserDefinedMetric
}.
End Def.
End ContainerStats.

Module PodStats.
Section Def.
Context {T : ExternalTypes}.
Record t : Type := mk {
  PodRef : PodReference.t;
  StartTime : Time;
  Containers : list ContainerStats.t;
  CPU : option CPUStats.t;
  Memory : option MemoryStats.t;
  Network : option NetworkStats;
  DiskIo : option (gmap string DiskIoStat);
  ProcessStats : option ProcessStats.t
}.
End Def.
End PodStats.

(** The functions of the package that the sources at hand do not
    contain (they live in its helper files), and the two functions of
    Go's library that [getCRICadvisorStats] calls on cgroup paths. *)
Class Helpers (T : ExternalTypes) : Type := {
  buildPodRef : gmap string string -> PodReference.t;
  GetContainerName : gmap string string -> string;
  getLatestContainerStatsById :
    string -> gmap string ContainerInfo -> option CadvisorStats.t;
  convertToDiskIoStats : CadvisorDiskIo -> option (gmap string DiskIoStat);
  getCadvisorPodInfoFromPodUID :
    string -> gmap string ContainerInfo -> option ContainerInfo;
  cadvisorInfoToNetworkStats : ContainerInfo -> option NetworkStats;
  cadvisorInfoToCPUandMemoryStats :
    ContainerInfo -> option CPUStats.t * option MemoryStats.t;
  cadvisorInfoToDiskIoStats : ContainerInfo -> option (gmap string DiskIoStat);
  cadvisorInfoToProcessStats : ContainerInfo -> option ProcessStats.t;
  cadvisorInfoToUserDefinedMetrics : ContainerInfo -> list UserDefinedMetric;
  HasCustomMetrics : ContainerInfo -> bool;       (* info.Spec.HasCustomMetrics *)
  DiskIoStats_Add :
    gmap string DiskIoStat -> option (gmap string DiskIoStat) -> gmap string DiskIoStat;
  removeTerminatedContainerInfo :
    gmap string ContainerInfo -> gmap string ContainerInfo;
  isPodManagedContainer : ContainerInfo -> bool;
  path_Base : string -> string
}.

(** What one call of a collaborator returns: a value, or an error. *)
Inductive fetched (A : Type) : Type :=
| Fetched (a : A)
| Failed (err : error).
Global Arguments Fetched {A} a.
Global Arguments Failed {A} err.

(** The answers of the collaborators during one pass: the container
    runtime's three listings, the accounting subsystem's root
    filesystem, container infos and per-directory filesystem infos, and
    the host's per-sandbox network statistics. *)
Module Upstream.
Section Def.
Context {T : ExternalTypes}.
Record t : Type := mk {
  RootFsInfo : fetched cadvisorapi.FsInfo.t;
  ListContainers : fetched (list Container.t);
  ListPodSandbox : fetched (list PodSandbox.t);
  ListContainerStats : fetched (list runtimeapi.ContainerStats.t);
  getCadvisorContainerInfo : fetched (gmap string ContainerInfo);
  listContainerNetworkStats : fetched (gmap string NetworkStats);
  GetDirFsInfo : string -> fetched cadvisorapi.FsInfo.t
}.
End Def.
End Upstream.

(** ** The rate cache *)

(** [cpuUsageRecord]: the last raw CPU sample of a container and the
    nanocore rate computed from it, if any. *)
Record cpuUsageRecord : Type := mkRecord {
  stats : option CpuUsage.t;          (* *runtimeapi.CpuUsage *)
  usageNanoCores : option Z           (* *uint64 *)
}.

(** [cpuUsageCache map[string]*cpuUsageRecord]: a key can be bound to
    the nil record pointer, which is [Some None] here. *)
Abbreviation cpuUsageCache := (gmap string (option cpuUsageRecord)).

(** [defaultCachePeriod = 10 * time.Minute], a [time.Duration] in ns. *)
Definition Nanosecond : Z := 1.
Definition Second : Z := 1000000000 * Nanosecond.
Definition Minute : Z := 60 * Second.
Definition defaultCachePeriod : Z := 10 * Minute.

(** [time.Since(time.Unix(0, ts))] at the instant [now]: [Time.Sub]
    saturates at the ends of [time.Duration]. *)
Definition time_Since (now ts : Z) : Z :=
  Z.max minInt64 (Z.min maxInt64 (now - ts)).

(** Modelled from the spec: [getUint64Value] is in the package's helper
    file, not in the sources at hand; an absent counter contributes 0 to
    a sum. *)
Definition getUint64Value (p : option Z) : Z := default 0 p.

(** [strings.HasSuffix] *)
Definition HasSuffix (s suffix : string) : bool :=
  bool_decide (Stdlib.Strings.String.list_ascii_of_string suffix `suffix_of`
                 Stdlib.Strings.String.list_ascii_of_string s).

Section Provider.

Context {T : ExternalTypes} {H : Helpers T}.

(** What [uint64(f)] yields for a float outside the [uint64] range. *)
Variable unrepresentable : spec_float -> Z.

(** [sort.Slice(l, less)]: sorts by [less]; it is not stable, so the
    order of entries that [less] does not separate is not specified. *)
Variable sort_Slice : forall A : Type, (A -> A -> bool) -> list A -> list A.

(** [map_range l]: the order in which a [range] loop visits the entries
    [l] of a map. *)
Variable map_range : forall A : Type, list A -> list A.

(** *** Reading and updating the cache *)

(** [getContainerUsageNanoCores]: the cached rate; reads only. *)
Definition getContainerUsageNanoCores
    (st : option runtimeapi.ContainerStats.t) (cache : cpuUsageCache)
    : outcome (option Z) :=
  match st with
  | None => Done None
  | Some st =>
    match runtimeapi.ContainerStats.Attributes st with
    | None => Done None
    | Some attrs =>
      match cache !! ContainerAttributes.Id attrs with
      | None => Done None
      | Some cached =>
        cached ← deref cached;
        Done (usageNanoCores cached)
      end
    end
  end.

(** The rate of the source's lines 685-686:
    [uint64(float64(new - cached) / float64(nanoSeconds) *
     float64(time.Second/time.Nanosecond))]. *)
Definition computeUsageNanoCores (newValue cachedValue nanoSeconds : Z) : Z :=
  F64.to_uint64 unrepresentable
    (F64.mul
       (F64.div (F64.of_int (wrap_u64 (newValue - cachedValue)))
                (F64.of_int nanoSeconds))
       (F64.of_int (Second / Nanosecond))).

(** [getAndUpdateContainerUsageNanoCores]: the rate between the cached
    sample and the new one; updates the cache. Returns the rate and the
    cache after the call. *)
Definition getAndUpdateContainerUsageNanoCores
    (st : option runtimeapi.ContainerStats.t) (cache : cpuUsageCache)
    : outcome (option Z * cpuUsageCache) :=
  match st with
  | None => Done (None, cache)
  | Some st =>
    match runtimeapi.ContainerStats.Attributes st, runtimeapi.ContainerStats.Cpu st with
    | Some attrs, Some cpu =>
      match CpuUsage.UsageCoreNanoSeconds cpu with
      | None => Done (None, cache)
      | Some newValue =>
        let id := ContainerAttributes.Id attrs in
        let reset := <[id := Some (mkRecord (Some cpu) None)]> cache in
        match cache !! id with
        | None => Done (None, reset)
        | Some cached =>
          cached ← deref cached;
          cachedStats ← deref (stats cached);
          match CpuUsage.UsageCoreNanoSeconds cachedStats with
          | None => Done (None, reset)
          | Some cachedValue =>
            if decide (UInt64Value.Value newValue < UInt64Value.Value cachedValue)
            then Done (None, reset)
            else
              let nanoSeconds :=
                wrap_i64 (CpuUsage.Timestamp cpu - CpuUsage.Timestamp cachedStats) in
              if decide (nanoSeconds <= 0)
              then Done (None, cache)     (* the error is logged, not returned *)
              else
                let rate :=
                  computeUsageNanoCores (UInt64Value.Value newValue)
                    (UInt64Value.Value cachedValue) nanoSeconds in
                Done (Some rate, <[id := Some (mkRecord (Some cpu) (Some rate))]> cache)
          end
        end
      end
    | _, _ => Done (None, cache)
    end
  end.

(** One iteration of the sweep's loop body, on the entry [(k, v)]. *)
Definition cleanupEntry (now : Z) (cache : cpuUsageCache)
    (kv : string * option cpuUsageRecord) : outcome cpuUsageCache :=
  match kv.2 with
  | None => Done (delete kv.1 cache)
  | Some v =>
    s ← deref (stats v);
    if decide (time_Since now (CpuUsage.Timestamp s) > defaultCachePeriod)
    then Done (delete kv.1 cache)
    else Done cache
  end.

(** [cleanupOutdatedCaches]: the loop ranges over the entries the cache
    had when it started; deleting the entry at hand during a [range] is
    allowed in Go. *)
Definition cleanupOutdatedCaches (now : Z) (cache : cpuUsageCache)
    : outcome cpuUsageCache :=
  foldl (fun acc kv => c ← acc; cleanupEntry now c kv) (Done cache)
        (map_range _ (map_to_list cache)).

(** *** The dedup filters *)

(** [m[k] = append(m[k], a)] for every [a] of [l], in order. *)
Definition groupBy {K A : Type} `{Countable K} (key : A -> K) (l : list A)
    : gmap K (list A) :=
  foldl (fun m a => <[key a := default [] (m !! key a) ++ [a]]> m) ∅ l.

(** [refs[i]], which panics out of range. *)
Definition index {A : Type} (refs : list A) (i : nat) : outcome A :=
  deref (refs !! i).

(** The [less] of both sorts: created strictly earlier. *)
Definition createdBefore {A : Type} (createdAt : A -> Z) (a b : A) : bool :=
  bool_decide (createdAt a < createdAt b).

(** The grouping key of a sandbox; [UID] is left empty. *)
Definition podRefID (pod : PodSandbox.t) : PodReference.t :=
  PodReference.mk (PodSandbox.GetName pod) "" (PodSandbox.GetNamespace pod).

(** The inner loop of [removeTerminatedPods] over one group: appends
    the ready entries and tells whether there was one. *)
Definition appendReady (result : list PodSandbox.t) (refs : list PodSandbox.t)
    : bool * list PodSandbox.t :=
  foldl (fun acc r =>
           if decide (PodSandbox.State r = SANDBOX_READY)
           then (true, acc.2 ++ [r])
           else acc)
        (false, result) refs.

(** The body of the loop over [podMap]. *)
Definition keepPods (result : list PodSandbox.t) (refs : list PodSandbox.t)
    : outcome (list PodSandbox.t) :=
  if decide (length refs = 1%nat)
  then r ← index refs 0; Done (result ++ [r])
  else
    let found_result := appendReady result refs in
    if found_result.1 then Done found_result.2
    else r ← index refs (length refs - 1); Done (found_result.2 ++ [r]).

Definition removeTerminatedPods (pods : list PodSandbox.t)
    : outcome (list PodSandbox.t) :=
  let pods := sort_Slice _ (createdBefore PodSandbox.CreatedAt) pods in
  let podMap := groupBy podRefID pods in
  foldl (fun acc kv => result ← acc; keepPods result kv.2) (Done [])
        (map_range _ (map_to_list podMap)).

(** The grouping key of a container. *)
Definition containerRefID (c : Container.t) : containerID.t :=
  containerID.mk (buildPodRef (Container.Labels c))
                 (GetContainerName (Container.Labels c)).

(** The body of the loop over [containerMap]. *)
Definition keepContainers (result : list Container.t) (refs : list Container.t)
    : list Container.t :=
  foldl (fun result r =>
           if decide (Container.State r = CONTAINER_RUNNING)
           then result ++ [r]
           else result)
        result refs.

Definition removeTerminatedContainers (containers : list Container.t)
    : list Container.t :=
  let containers := sort_Slice _ (createdBefore Container.CreatedAt) containers in
  let containerMap := groupBy containerRefID containers in
  foldl (fun result kv => keepContainers result kv.2) []
        (map_range _ (map_to_list containerMap)).

(** *** The stat mergers *)

(** [buildPodStats]: reads [podSandbox.Metadata] without a nil check. *)
Definition buildPodStats (podSandbox : PodSandbox.t) : outcome PodStats.t :=
  meta ← deref (PodSandbox.Metadata podSandbox);
  Done (PodStats.mk
          (PodReference.mk (PodSandboxMetadata.Name meta)
                           (PodSandboxMetadata.Uid meta)
                           (PodSandboxMetadata.Namespace meta))
          (Unix (PodSandbox.CreatedAt podSandbox))
          [] None None None None None).

Definition convertToProcessStats (cStats : option cadvisorapi.ProcessStats.t)
    : option ProcessStats.t :=
  match cStats with
  | None => None
  | Some c =>
    Some (ProcessStats.mk (cadvisorapi.ProcessStats.ProcessCount c)
                          (cadvisorapi.ProcessStats.FdCount c)
                          (cadvisorapi.ProcessStats.SocketCount c)
                          (cadvisorapi.ProcessStats.ThreadsCurrent c)
                          (cadvisorapi.ProcessStats.ThreadsMax c))
  end.

(** The process and disk I/O part of a container's stats, which both
    [makeContainerStats] and [makeContainerCPUAndMemoryStats] start
    with: the defaults of the struct literal, replaced when the
    accounting subsystem has stats for the container. *)
Definition makeProcessAndDiskIo (cStats : option CadvisorStats.t)
    : option ProcessStats.t * option (gmap string DiskIoStat) :=
  match cStats with
  | Some c => (convertToProcessStats (CadvisorStats.Processes c),
               convertToDiskIoStats (CadvisorStats.DiskIo c))
  | None => (Some ProcessStats.zero, None)
  end.

(** The CPU part. [rateOf] is the rate lookup the caller chose:
    [getAndUpdateContainerUsageNanoCores] or [getContainerUsageNanoCores]. *)
Definition makeCPUStats
    (rateOf : option runtimeapi.ContainerStats.t -> cpuUsageCache ->
              outcome (option Z * cpuUsageCache))
    (st : runtimeapi.ContainerStats.t) (now : Z) (cache : cpuUsageCache)
    : outcome (CPUStats.t * cpuUsageCache) :=
  match runtimeapi.ContainerStats.Cpu st with
  | Some cpu =>
    '(usage, cache) ← rateOf (Some st) cache;
    Done (CPUStats.mk (Unix (CpuUsage.Timestamp cpu)) usage
            (UInt64Value.Value <$> CpuUsage.UsageCoreNanoSeconds cpu),
          cache)
  | None => Done (CPUStats.mk (Unix now) (Some 0) (Some 0), cache)
  end.

(** The read-only lookup, in the shape [makeCPUStats] takes. *)
Definition readRate (st : option runtimeapi.ContainerStats.t) (cache : cpuUsageCache)
    : outcome (option Z * cpuUsageCache) :=
  usage ← getContainerUsageNanoCores st cache; Done (usage, cache).

(** The memory part. *)
Definition makeMemoryStats (st : runtimeapi.ContainerStats.t)
    (cStats : option CadvisorStats.t) (now : Z) : MemoryStats.t :=
  match runtimeapi.ContainerStats.Memory st with
  | Some mem =>
    let fromCadvisor := cStats ≫= CadvisorStats.Memory in
    MemoryStats.mk (Unix (MemoryUsage.Timestamp mem))
      None
      (cadvisorapi.MemoryStats.Usage <$> fromCadvisor)
      (UInt64Value.Value <$> MemoryUsage.WorkingSetBytes mem)
      (cadvisorapi.MemoryStats.RSS <$> fromCadvisor)
      None None
  | None => MemoryStats.mk (Unix now) None None (Some 0) None None None
  end.

(** [getFsInfo]: an error of the lookup is logged and becomes nil. *)
Definition getFsInfo (u : Upstream.t) (fsID : option FilesystemIdentifier.t)
    : option cadvisorapi.FsInfo.t :=
  match fsID with
  | None => None
  | Some fsID =>
    match Upstream.GetDirFsInfo u (FilesystemIdentifier.Mountpoint fsID) with
    | Failed _ => None
    | Fetched fsInfo => Some fsInfo
    end
  end.

(** The writable-layer part, with the lookup table [fsIDtoInfo] that is
    shared by the containers of a pass. *)
Definition makeRootfs (u : Upstream.t) (st : runtimeapi.ContainerStats.t)
    (fsIDtoInfo : gmap string (option cadvisorapi.FsInfo.t))
    : FsStats.t * gmap string (option cadvisorapi.FsInfo.t) :=
  let layer := runtimeapi.ContainerStats.WritableLayer st in
  let time := from_option (fun l => Unix (FilesystemUsage.Timestamp l)) ZeroTime layer in
  let usedBytes := UInt64Value.Value <$> (layer ≫= FilesystemUsage.UsedBytes) in
  let inodesUsed := UInt64Value.Value <$> (layer ≫= FilesystemUsage.InodesUsed) in
  match runtimeapi.ContainerStats.GetFsId st with
  | None => (FsStats.mk time None None usedBytes None None inodesUsed, fsIDtoInfo)
  | Some fsID =>
    let key := FilesystemIdentifier.Mountpoint fsID in
    let imageFsInfo := default (getFsInfo u (Some fsID)) (fsIDtoInfo !! key) in
    let fsIDtoInfo :=
      match fsIDtoInfo !! key with
      | Some _ => fsIDtoInfo
      | None => <[key := imageFsInfo]> fsIDtoInfo
      end in
    match imageFsInfo with
    | None => (FsStats.mk time None None usedBytes None None inodesUsed, fsIDtoInfo)
    | Some info =>
      (FsStats.mk time
         (Some (cadvisorapi.FsInfo.Available info))
         (Some (cadvisorapi.FsInfo.Capacity info))
         usedBytes
         (cadvisorapi.FsInfo.InodesFree info)
         (cadvisorapi.FsInfo.Inodes info)
         inodesUsed,
       fsIDtoInfo)
    end
  end.

(** [makeContainerStats]. The arguments [rootFsInfo] and [meta] of the
    source are used by commented-out code only. *)
Definition makeContainerStats (u : Upstream.t)
    (st : runtimeapi.ContainerStats.t) (container : Container.t)
    (fsIDtoInfo : gmap string (option cadvisorapi.FsInfo.t))
    (updateCPUNanoCoreUsage : bool) (infos : gmap string ContainerInfo)
    (now : Z) (cache : cpuUsageCache)
    : outcome (ContainerStats.t * gmap string (option cadvisorapi.FsInfo.t) * cpuUsageCache) :=
  attrs ← deref (runtimeapi.ContainerStats.Attributes st);
  meta ← deref (ContainerAttributes.Metadata attrs);
  let cStats := getLatestContainerStatsById (ContainerAttributes.Id attrs) infos in
  let procs_diskIo := makeProcessAndDiskIo cStats in
  '(cpu, cache) ←
    makeCPUStats (if updateCPUNanoCoreUsage
                  then getAndUpdateContainerUsageNanoCores
                  else readRate) st now cache;
  let memory := makeMemoryStats st cStats now in
  let rootfs_table := makeRootfs u st fsIDtoInfo in
  Done (ContainerStats.mk (ContainerMetadata.Name meta)
          (Unix (Container.CreatedAt container))
          (Some cpu) (Some memory) (Some rootfs_table.1)
          procs_diskIo.2 procs_diskIo.1 [],
        rootfs_table.2, cache).

(** [makeContainerCPUAndMemoryStats]: no root filesystem, and the rate
    is always the cached one. *)
Definition makeContainerCPUAndMemoryStats
    (st : runtimeapi.ContainerStats.t) (container : Container.t)
    (infos : gmap string ContainerInfo) (now : Z) (cache : cpuUsageCache)
    : outcome (ContainerStats.t * cpuUsageCache) :=
  attrs ← deref (runtimeapi.ContainerStats.Attributes st);
  meta ← deref (ContainerAttributes.Metadata attrs);
  let cStats := getLatestContainerStatsById (ContainerAttributes.Id attrs) infos in
  let procs_diskIo := makeProcessAndDiskIo cStats in
  '(cpu, cache) ← makeCPUStats readRate st now cache;
  let memory := makeMemoryStats st cStats now in
  Done (ContainerStats.mk (ContainerMetadata.Name meta)
          (Unix (Container.CreatedAt container))
          (Some cpu) (Some memory) None
          procs_diskIo.2 procs_diskIo.1 [],
        cache).

Definition setNetwork (ps : PodStats.t) (network : option NetworkStats) : PodStats.t :=
  PodStats.mk (PodStats.PodRef ps) (PodStats.StartTime ps) (PodStats.Containers ps)
    (PodStats.CPU ps) (PodStats.Memory ps) network
    (PodStats.DiskIo ps) (PodStats.ProcessStats ps).

Definition setCPU (ps : PodStats.t) (cpu : option CPUStats.t) : PodStats.t :=
  PodStats.mk (PodStats.PodRef ps) (PodStats.StartTime ps) (PodStats.Containers ps)
    cpu (PodStats.Memory ps) (PodStats.Network ps)
    (PodStats.DiskIo ps) (PodStats.ProcessStats ps).

Definition setMemory (ps : PodStats.t) (memory : option MemoryStats.t) : PodStats.t :=
  PodStats.mk (PodStats.PodRef ps) (PodStats.StartTime ps) (PodStats.Containers ps)
    (PodStats.CPU ps) memory (PodStats.Network ps)
    (PodStats.DiskIo ps) (PodStats.ProcessStats ps).

Definition setDiskIo (ps : PodStats.t) (diskIo : option (gmap string DiskIoStat))
    : PodStats.t :=
  PodStats.mk (PodStats.PodRef ps) (PodStats.StartTime ps) (PodStats.Containers ps)
    (PodStats.CPU ps) (PodStats.Memory ps) (PodStats.Network ps)
    diskIo (PodStats.ProcessStats ps).

Definition setProcessStats (ps : PodStats.t) (procs : option ProcessStats.t)
    : PodStats.t :=
  PodStats.mk (PodStats.PodRef ps) (PodStats.StartTime ps) (PodStats.Containers ps)
    (PodStats.CPU ps) (PodStats.Memory ps) (PodStats.Network ps)
    (PodStats.DiskIo ps) procs.

(** [ps.Containers = append(ps.Containers, *cs)] *)
Definition appendContainer (ps : PodStats.t) (cs : ContainerStats.t) : PodStats.t :=
  PodStats.mk (PodStats.PodRef ps) (PodStats.StartTime ps) (PodStats.Containers ps ++ [cs])
    (PodStats.CPU ps) (PodStats.Memory ps) (PodStats.Network ps)
    (PodStats.DiskIo ps) (PodStats.ProcessStats ps).

Definition addPodNetworkStats (ps : PodStats.t) (podSandboxID : string)
    (caInfos : gmap string ContainerInfo) (netStats : option NetworkStats)
    : PodStats.t :=
  match caInfos !! podSandboxID ≫= cadvisorInfoToNetworkStats with
  | Some networkStats => setNetwork ps (Some networkStats)
  | None =>
    match netStats with
    | Some netStats => setNetwork ps (Some netStats)
    | None => ps
    end
  end.

(** The sum of two optional [uint64] counters. *)
Definition addUint64 (a b : option Z) : option Z :=
  Some (wrap_u64 (getUint64Value a + getUint64Value b)).

Definition addPodCPUMemoryStats (ps : PodStats.t) (podUID : string)
    (allInfos : gmap string ContainerInfo) (cs : ContainerStats.t) : PodStats.t :=
  match getCadvisorPodInfoFromPodUID podUID allInfos with
  | Some podCgroupInfo =>
    let cpu_memory := cadvisorInfoToCPUandMemoryStats podCgroupInfo in
    setMemory (setCPU ps cpu_memory.1) cpu_memory.2
  | None =>
    let ps :=
      match ContainerStats.CPU cs with
      | None => ps
      | Some c =>
        let p := default CPUStats.zero (PodStats.CPU ps) in
        setCPU ps (Some (CPUStats.mk (CPUStats.Time c)
          (addUint64 (CPUStats.UsageNanoCores c) (CPUStats.UsageNanoCores p))
          (addUint64 (CPUStats.UsageCoreNanoSeconds c) (CPUStats.UsageCoreNanoSeconds p))))
      end in
    match ContainerStats.Memory cs with
    | None => ps
    | Some c =>
      let p := default MemoryStats.zero (PodStats.Memory ps) in
      setMemory ps (Some (MemoryStats.mk (MemoryStats.Time c)
        (addUint64 (MemoryStats.AvailableBytes c) (MemoryStats.AvailableBytes p))
        (addUint64 (MemoryStats.UsageBytes c) (MemoryStats.UsageBytes p))
        (addUint64 (MemoryStats.WorkingSetBytes c) (MemoryStats.WorkingSetBytes p))
        (addUint64 (MemoryStats.RSSBytes c) (MemoryStats.RSSBytes p))
        (addUint64 (MemoryStats.PageFaults c) (MemoryStats.PageFaults p))
        (addUint64 (MemoryStats.MajorPageFaults c) (MemoryStats.MajorPageFaults p))))
    end
  end.

Definition addDiskIoStats (ps : PodStats.t) (podUID : string)
    (allInfos : gmap string ContainerInfo) (cs : ContainerStats.t) : PodStats.t :=
  let diskIo :=
    match getCadvisorPodInfoFromPodUID podUID allInfos with
    | Some info => cadvisorInfoToDiskIoStats info
    | None => PodStats.DiskIo ps
    end in
  setDiskIo ps (Some (DiskIoStats_Add (default ∅ diskIo) (ContainerStats.DiskIo cs))).

Definition addProcessStats (ps : PodStats.t) (podUID : string)
    (allInfos : gmap string ContainerInfo) (cs : ContainerStats.t) : PodStats.t :=
  let procs :=
    match getCadvisorPodInfoFromPodUID podUID allInfos with
    | Some info => cadvisorInfoToProcessStats info
    | None => PodStats.ProcessStats ps
    end in
  match ContainerStats.ProcessStats cs with
  | None => setProcessStats ps procs
  | Some c =>
    let p := default ProcessStats.zero procs in
    setProcessStats ps (Some (ProcessStats.mk
      (wrap_u64 (ProcessStats.ProcessCount p + ProcessStats.ProcessCount c))
      (wrap_u64 (ProcessStats.FdCount p + ProcessStats.FdCount c))
      (wrap_u64 (ProcessStats.SocketCount p + ProcessStats.SocketCount c))
      (wrap_u64 (ProcessStats.ThreadsCurrent p + ProcessStats.ThreadsCurrent c))
      (wrap_u64 (ProcessStats.ThreadsMax p + ProcessStats.ThreadsMax c))))
  end.

Definition addCadvisorContainerStats (cs : ContainerStats.t) (caPodStats : ContainerInfo)
    : ContainerStats.t :=
  let cpu_memory := cadvisorInfoToCPUandMemoryStats caPodStats in
  ContainerStats.mk (ContainerStats.Name cs) (ContainerStats.StartTime cs)
    (match cpu_memory.1 with Some cpu => Some cpu | None => ContainerStats.CPU cs end)
    (match cpu_memory.2 with Some mem => Some mem | None => ContainerStats.Memory cs end)
    (ContainerStats.Rootfs cs) (ContainerStats.DiskIo cs) (ContainerStats.ProcessStats cs)
    (if HasCustomMetrics caPodStats
     then cadvisorInfoToUserDefinedMetrics caPodStats
     else ContainerStats.UserDefinedMetrics cs).

Definition getCRICadvisorStats (infos : gmap string ContainerInfo)
    : gmap string ContainerInfo :=
  foldl (fun stats kv =>
           if HasSuffix kv.1 ".mount" then stats
           else if negb (isPodManagedContainer kv.2) then stats
           else <[path_Base kv.1 := kv.2]> stats)
        ∅ (map_range _ (map_to_list (removeTerminatedContainerInfo infos))).

(** *** The snapshot pass *)

(** The maps a pass builds before its loop. *)
Definition podSandboxMapOf (podSandboxes : list PodSandbox.t) : gmap string PodSandbox.t :=
  foldl (fun m s => <[PodSandbox.Id s := s]> m) ∅ podSandboxes.

Definition containerMapOf (containers : list Container.t) : gmap string Container.t :=
  foldl (fun m c => <[Container.Id c := c]> m) ∅ containers.

(** What the loop of a pass changes: the pod stats built so far, the
    filesystem lookup table, and the provider's rate cache. *)
Record passState : Type := mkState {
  sandboxIDToPodStats : gmap string PodStats.t;
  fsIDtoInfo : gmap string (option cadvisorapi.FsInfo.t);
  cpuCache : cpuUsageCache
}.

(** The body of the loop of [listPodStats] (lines 167-204) for the stat
    record [st]. *)
Definition listPodStatsStep (u : Upstream.t)
    (containerMap : gmap string Container.t)
    (podSandboxMap : gmap string PodSandbox.t)
    (allInfos caInfos : gmap string ContainerInfo)
    (containerNetworkStats : gmap string NetworkStats)
    (updateCPUNanoCoreUsage : bool) (now : Z)
    (state : passState) (st : runtimeapi.ContainerStats.t) : outcome passState :=
  attrs ← deref (runtimeapi.ContainerStats.Attributes st);
  let containerID := ContainerAttributes.Id attrs in
  match containerMap !! containerID with
  | None => Done state
  | Some container =>
    let podSandboxID := Container.PodSandboxId container in
    match podSandboxMap !! podSandboxID with
    | None => Done state
    | Some podSandbox =>
      ps ← match sandboxIDToPodStats state !! podSandboxID with
           | Some ps => Done ps
           | None => buildPodStats podSandbox
           end;
      '(cs, fsIDtoInfo, cache) ←
        makeContainerStats u st container (fsIDtoInfo state)
          updateCPUNanoCoreUsage allInfos now (cpuCache state);
      let ps := addPodNetworkStats ps podSandboxID caInfos
                  (containerNetworkStats !! podSandboxID) in
      meta ← deref (PodSandbox.Metadata podSandbox);
      let ps := addPodCPUMemoryStats ps (PodSandboxMetadata.Uid meta) allInfos cs in
      let ps := addDiskIoStats ps podSandboxID allInfos cs in
      let ps := addProcessStats ps podSandboxID allInfos cs in
      let cs := match caInfos !! containerID with
                | None => cs
                | Some caStats => addCadvisorContainerStats cs caStats
                end in
      let ps := appendContainer ps cs in
      Done (mkState (<[podSandboxID := ps]> (sandboxIDToPodStats state)) fsIDtoInfo cache)
    end
  end.

(** What a pass returns: Go's pair of a slice, nil or not, and an error,
    nil or not; with it, the cache the pass leaves. *)
Definition passResult : Type :=
  (option (list PodStats.t) * option error) * cpuUsageCache.

Definition listPodStats (u : Upstream.t) (updateCPUNanoCoreUsage : bool)
    (now : Z) (cache : cpuUsageCache) : outcome passResult :=
  match Upstream.RootFsInfo u with
  | Failed err => Done (None, Some (Errorf "failed to get rootFs info: %v" err), cache)
  | Fetched rootFsInfo =>
  match Upstream.ListContainers u with
  | Failed err => Done (None, Some (Wrap err "failed to list all containers"), cache)
  | Fetched containers =>
  match Upstream.ListPodSandbox u with
  | Failed err => Done (None, Some (Wrap err "failed to list all pod sandboxes"), cache)
  | Fetched items =>
  podSandboxes ← removeTerminatedPods items;
  let podSandboxMap := podSandboxMapOf podSandboxes in
  match Upstream.ListContainerStats u with
  | Failed err => Done (None, Some (Errorf "failed to list all container stats: %v" err), cache)
  | Fetched cstsResp =>
  let containerMap := containerMapOf (removeTerminatedContainers containers) in
  match Upstream.getCadvisorContainerInfo u with
  | Failed err => Done (None, Some (Errorf "failed to fetch cadvisor stats: %v" err), cache)
  | Fetched allInfos =>
  let caInfos := getCRICadvisorStats allInfos in
  match Upstream.listContainerNetworkStats u with
  | Failed err =>
    Done (None, Some (Errorf "failed to list container network stats: %v" err), cache)
  | Fetched containerNetworkStats =>
  state ← foldl (fun acc st =>
                   state ← acc;
                   listPodStatsStep u containerMap podSandboxMap allInfos caInfos
                     containerNetworkStats updateCPUNanoCoreUsage now state st)
                (Done (mkState ∅ ∅ cache)) cstsResp;
  cache ← cleanupOutdatedCaches now (cpuCache state);
  Done (Some ((map_range _ (map_to_list (sandboxIDToPodStats state))).*2), None, cache)
  end end end end end end.

(** [ListPodStats]: "Don't update CPU nano core usage." *)
Definition ListPodStats (u : Upstream.t) (now : Z) (cache : cpuUsageCache)
    : outcome passResult :=
  listPodStats u false now cache.

Definition ListPodStatsAndUpdateCPUNanoCoreUsage (u : Upstream.t) (now : Z)
    (cache : cpuUsageCache) : outcome passResult :=
  listPodStats u true now cache.

(** The body of the loop of [ListPodCPUAndMemoryStats] (lines 257-293). *)
Definition listPodCPUAndMemoryStatsStep
    (containerMap : gmap string Container.t)
    (podSandboxMap : gmap string PodSandbox.t)
    (allInfos caInfos : gmap string ContainerInfo) (now : Z)
    (state : passState) (st : runtimeapi.ContainerStats.t) : outcome passState :=
  attrs ← deref (runtimeapi.ContainerStats.Attributes st);
  let containerID := ContainerAttributes.Id attrs in
  match containerMap !! containerID with
  | None => Done state
  | Some container =>
    let podSandboxID := Container.PodSandboxId container in
    match podSandboxMap !! podSandboxID with
    | None => Done state
    | Some podSandbox =>
      ps ← match sandboxIDToPodStats state !! podSandboxID with
           | Some ps => Done ps
           | None => buildPodStats podSandbox
           end;
      '(cs, cache) ←
        makeContainerCPUAndMemoryStats st container allInfos now (cpuCache state);
      meta ← deref (PodSandbox.Metadata podSandbox);
      let ps := addPodCPUMemoryStats ps (PodSandboxMetadata.Uid meta) allInfos cs in
      let ps := addDiskIoStats ps podSandboxID allInfos cs in
      let ps := addProcessStats ps podSandboxID allInfos cs in
      let cs := match caInfos !! containerID with
                | None => cs
                | Some caStats => addCadvisorContainerStats cs caStats
                end in
      let ps := appendContainer ps cs in
      Done (mkState (<[podSandboxID := ps]> (sandboxIDToPodStats state))
                    (fsIDtoInfo state) cache)
    end
  end.

Definition ListPodCPUAndMemoryStats (u : Upstream.t) (now : Z) (cache : cpuUsageCache)
    : outcome passResult :=
  match Upstream.ListContainers u with
  | Failed err => Done (None, Some (Errorf "failed to list all containers: %v" err), cache)
  | Fetched containers =>
  match Upstream.ListPodSandbox u with
  | Failed err => Done (None, Some (Errorf "failed to list all pod sandboxes: %v" err), cache)
  | Fetched items =>
  podSandboxes ← removeTerminatedPods items;
  let podSandboxMap := podSandboxMapOf podSandboxes in
  match Upstream.ListContainerStats u with
  | Failed err => Done (None, Some (Errorf "failed to list all container stats: %v" err), cache)
  | Fetched containerStatResp =>
  let containerMap := containerMapOf (removeTerminatedContainers containers) in
  match Upstream.getCadvisorContainerInfo u with
  | Failed err => Done (None, Some (Errorf "failed to fetch cadvisor stats: %v" err), cache)
  | Fetched allInfos =>
  let caInfos := getCRICadvisorStats allInfos in
  state ← foldl (fun acc st =>
                   state ← acc;
                   listPodCPUAndMemoryStatsStep containerMap podSandboxMap allInfos
                     caInfos now state st)
                (Done (mkState ∅ ∅ cache)) containerStatResp;
  cache ← cleanupOutdatedCaches now (cpuCache state);
  Done (Some ((map_range _ (map_to_list (sandboxIDToPodStats state))).*2), None, cache)
  end end end end.

End Provider.

(** ** Reference instances of the parameters

    Concrete collaborators, used to run the definitions on examples:
    payloads without content, helpers that find nothing, a stable sort,
    maps visited in the order of their entry lists, and 0 for the
    conversions Go leaves open. *)

Definition unitTypes : ExternalTypes :=
  {| NetworkStats := unit; DiskIoStat := unit; UserDefinedMetric := unit;
     ContainerInfo := unit; CadvisorDiskIo := unit |}.

Definition nullHelpers : Helpers unitTypes :=
  {| buildPodRef := fun labels =>
       PodReference.mk (default "" (labels !! "io.kubernetes.pod.name"))
                       (default "" (labels !! "io.kubernetes.pod.uid"))
                       (default "" (labels !! "io.kubernetes.pod.namespace"));
     GetContainerName := fun labels =>
       default "" (labels !! "io.kubernetes.container.name");
     getLatestContainerStatsById := fun _ _ => None;
     convertToDiskIoStats := fun _ => None;
     getCadvisorPodInfoFromPodUID := fun _ _ => None;
     cadvisorInfoToNetworkStats := fun _ => None;
     cadvisorInfoToCPUandMemoryStats := fun _ => (None, None);
     cadvisorInfoToDiskIoStats := fun _ => None;
     cadvisorInfoToProcessStats := fun _ => None;
     cadvisorInfoToUserDefinedMetrics := fun _ => [];
     HasCustomMetrics := fun _ => false;
     DiskIoStats_Add := fun m _ => m;
     removeTerminatedContainerInfo := fun m => m;
     isPodManagedContainer := fun _ => true;
     path_Base := fun s => s |}.

Definition zeroConversion : spec_float -> Z := fun _ => 0.

Definition rangeInOrder : forall A : Type, list A -> list A := fun _ l => l.

(** Merge sort with [a] before [b] unless [less b a]: a stable sort. *)
Definition stableSort : forall A : Type, (A -> A -> bool) -> list A -> list A :=
  fun A less l =>
    @merge_sort A (fun a b => less b a = false)
      (fun a b => bool_eq_dec (less b a) false) l.

(** A stat record of container [id] with the CPU sample [(ts, cumulative)]. *)
Definition cpuSample (id : string) (ts cumulative : Z) : runtimeapi.ContainerStats.t :=
  runtimeapi.ContainerStats.mk
    (Some (ContainerAttributes.mk id (Some (ContainerMetadata.mk id 0)) ∅))
    (Some (CpuUsage.mk ts (Some (UInt64Value.mk cumulative))))
    None None.

(** The cache record of the raw sample [(ts, cumulative)] and of a rate. *)
Definition recordOf (ts cumulative : Z) (rate : option Z) : option cpuUsageRecord :=
  Some (mkRecord (Some (CpuUsage.mk ts (Some (UInt64Value.mk cumulative)))) rate).

(** A cache with a sample of minute 0, a nil record, and a sample of
    minute 5. *)
Definition threeEntries : cpuUsageCache :=
  <["old" := recordOf 0 1 None]>
    (<["nil" := None]> (<["new" := recordOf 300000000000 1 None]> ∅)).

(** Sandboxes and containers to run the dedup filters on: two
    not-ready incarnations of pod [web], a ready and a not-ready one of
    pod [db]; a running and an exited incarnation of container [app],
    two exited ones of container [job]. *)
Definition sandbox (id name : string) (state : PodSandboxState) (createdAt : Z)
    : PodSandbox.t :=
  PodSandbox.mk id (Some (PodSandboxMetadata.mk name id "default" 0)) state createdAt ∅.

Definition examplePods : list PodSandbox.t :=
  [ sandbox "s2" "web" SANDBOX_NOTREADY 20; sandbox "s1" "web" SANDBOX_NOTREADY 10;
    sandbox "s3" "db" SANDBOX_READY 5; sandbox "s4" "db" SANDBOX_NOTREADY 30 ].

Definition container (id sandboxId name : string) (state : ContainerState)
    (createdAt : Z) : Container.t :=
  Container.mk id sandboxId (Some (ContainerMetadata.mk name 0)) state createdAt
    (<["io.kubernetes.container.name" := name]>
       (<["io.kubernetes.pod.name" := "web"]> ∅)).

Definition exampleContainers : list Container.t :=
  [ container "c1" "s2" "app" CONTAINER_EXITED 11;
    container "c2" "s2" "app" CONTAINER_RUNNING 21;
    container "c3" "s2" "job" CONTAINER_EXITED 12;
    container "c4" "s2" "job" CONTAINER_EXITED 22 ].

(** The collaborators' answers for a pass over the example sandboxes
    and containers, with the stat records [records]: every listing
    succeeds, the accounting subsystem knows no container, and no
    directory has a filesystem it can report. *)
Definition exampleUpstream (records : list runtimeapi.ContainerStats.t)
    : Upstream.t (T := unitTypes) :=
  Upstream.mk
    (Fetched (cadvisorapi.FsInfo.mk 100 50 None None))
    (Fetched exampleContainers) (Fetched examplePods) (Fetched records)
    (Fetched ∅) (Fetched ∅)
    (fun _ => Failed (Raw "no such device")).

(** The same, with a runtime that cannot list its containers. *)
Definition brokenUpstream : Upstream.t (T := unitTypes) :=
  Upstream.mk
    (Fetched (cadvisorapi.FsInfo.mk 100 50 None None))
    (Failed (Raw "connection refused")) (Fetched examplePods) (Fetched [])
    (Fetched ∅) (Fetched ∅)
    (fun _ => Failed (Raw "no such device")).

(** A cache whose only entry is a sample of minute 0. *)
Definition staleCache : cpuUsageCache := <["c2" := recordOf 0 1 None]> ∅.

(** ** Vocabulary of the statements *)

(** An entry survives the sweep at [now]: its record and the record's
    sample are there, and the sample is at most 10 minutes old. *)
Definition fresh (now : Z) (v : option cpuUsageRecord) : bool :=
  match v with
  | Some (mkRecord (Some s) _) =>
    bool_decide (now - CpuUsage.Timestamp s <= 10 * 60 * 1000000000)
  | _ => false
  end.

(** An entry the sweep cannot look at: a record without its sample. *)
Definition malformed (v : option cpuUsageRecord) : Prop :=
  exists r, v = Some r /\ stats r = None.

(** A well-formed entry: a record, with its sample. *)
Definition wellFormed (v : option cpuUsageRecord) : Prop :=
  exists r s, v = Some r /\ stats r = Some s.

(** The sweep without its faults: what it does when no entry is
    malformed. *)
Definition sweepEntries (now : Z) (cache : cpuUsageCache)
    (l : list (string * option cpuUsageRecord)) : cpuUsageCache :=
  foldl (fun c kv => if fresh now kv.2 then c else delete kv.1 c) cache l.

(** What a group of sandboxes, in creation order, contributes to the
    result of the pod dedup: itself when it is a single sandbox, else
    its ready members, else its last member. *)
Definition keptOfGroup (refs : list PodSandbox.t) : list PodSandbox.t :=
  match refs with
  | [r] => [r]
  | _ =>
    match filter (fun r => PodSandbox.State r = SANDBOX_READY) refs with
    | [] => option_list (last refs)
    | ready => ready
    end
  end.

(** [2^e] in the reals, for the value [m * 2^e] of a float. *)
Definition pow2 (e : Z) : R := powerRZ 2 e.

(** A fetch that failed. *)
Definition failed {A : Type} (f : fetched A) : Prop := exists err, f = Failed err.

(** An error that this package made out of a collaborator's error. *)
Definition isWrapped (err : error) : Prop :=
  match err with
  | Raw _ => False
  | Errorf _ _ | Wrap _ _ => True
  end.

(** A stat record that the loop of a pass cannot place: it names a
    container that the container map does not have, or the container it
    names is of a sandbox that the sandbox map does not have. *)
Definition unresolved (containerMap : gmap string Container.t)
    (podSandboxMap : gmap string PodSandbox.t)
    (st : runtimeapi.ContainerStats.t) : Prop :=
  exists attrs,
    runtimeapi.ContainerStats.Attributes st = Some attrs
    /\ match containerMap !! ContainerAttributes.Id attrs with
       | None => True
       | Some container => podSandboxMap !! Container.PodSandboxId container = None
       end.

(** A pass of [listPodStats] with a fetch that failed. *)
Definition fetchFailed {T : ExternalTypes} (u : Upstream.t) : Prop :=
  failed (Upstream.RootFsInfo u) \/ failed (Upstream.ListContainers u)
  \/ failed (Upstream.ListPodSandbox u) \/ failed (Upstream.ListContainerStats u)
  \/ failed (Upstream.getCadvisorContainerInfo u)
  \/ failed (Upstream.listContainerNetworkStats u).

(** A pass of [ListPodCPUAndMemoryStats] with a fetch that failed. *)
Definition cpuAndMemoryFetchFailed {T : ExternalTypes} (u : Upstream.t) : Prop :=
  failed (Upstream.ListContainers u) \/ failed (Upstream.ListPodSandbox u)
  \/ failed (Upstream.ListContainerStats u)
  \/ failed (Upstream.getCadvisorContainerInfo u).

(** The cache a pass leaves, if the pass returns. *)
Definition cacheAfter {T : ExternalTypes} (r : outcome passResult)
    : option cpuUsageCache :=
  match r with
  | Done (_, cache) => Some cache
  | Fault => None
  end.

(** The operations of the provider on its cache, one per entry point
    that touches it. *)
Inductive cacheOp : Type :=
| OpUpdate (st : option runtimeapi.ContainerStats.t)
| OpRead (st : option runtimeapi.ContainerStats.t)
| OpSweep (now : Z).

Definition runOp (unrepresentable : spec_float -> Z)
    (map_range : forall A : Type, list A -> list A)
    (cache : cpuUsageCache) (op : cacheOp) : outcome cpuUsageCache :=
  match op with
  | OpUpdate st =>
    r ← getAndUpdateContainerUsageNanoCores unrepresentable st cache; Done r.2
  | OpRead st =>
    _ ← getContainerUsageNanoCores st cache; Done cache
  | OpSweep now => cleanupOutdatedCaches map_range now cache
  end.

(** A run of operations on the cache [newCRIStatsProvider] makes. *)
Definition runOps (unrepresentable : spec_float -> Z)
    (map_range : forall A : Type, list A -> list A)
    (ops : list cacheOp) : outcome cpuUsageCache :=
  foldl (fun acc op => c ← acc; runOp unrepresentable map_range c op) (Done ∅) ops.

(** [newCRIStatsProvider]: a provider starts with the cache
    [make(map[string]*cpuUsageRecord)]. Its collaborators are the
    [Upstream.t] of each pass, so the cache is what is left of it. *)
Definition newCRIStatsProvider : cpuUsageCache := ∅.

(** A call of one of the two entry points that compute no rate. *)
Inductive readPass {T : ExternalTypes} : Type :=
| CallListPodStats (u : Upstream.t) (now : Z)
| CallListPodCPUAndMemoryStats (u : Upstream.t) (now : Z).

(** The cache after the call [p] on a provider with the cache [cache]. *)
Definition runReadPass {T : ExternalTypes} {H : Helpers T}
    (unrepresentable : spec_float -> Z)
    (sort_Slice : forall A : Type, (A -> A -> bool) -> list A -> list A)
    (map_range : forall A : Type, list A -> list A)
    (cache : cpuUsageCache) (p : readPass) : outcome cpuUsageCache :=
  match p with
  | CallListPodStats u now =>
    r ← ListPodStats unrepresentable sort_Slice map_range u now cache; Done r.2
  | CallListPodCPUAndMemoryStats u now =>
    r ← ListPodCPUAndMemoryStats sort_Slice map_range u now cache; Done r.2
  end.

(** The cache after the calls [passes], in order, on a new provider. *)
Definition runReadPasses {T : ExternalTypes} {H : Helpers T}
    (unrepresentable : spec_float -> Z)
    (sort_Slice : forall A : Type, (A -> A -> bool) -> list A -> list A)
    (map_range : forall A : Type, list A -> list A)
    (passes : list readPass) : outcome cpuUsageCache :=
  foldl (fun acc p => c ← acc; runReadPass unrepresentable sort_Slice map_range c p)
        (Done newCRIStatsProvider) passes.

(** The sum of a counter over a list of process stats. *)
Definition sumOf {A : Type} (f : A -> Z) (l : list A) : Z :=
  foldr (fun a acc => f a + acc) 0 l.

(** Container stats with CPU and memory stats in them. *)
Definition measured {T : ExternalTypes} (cs : ContainerStats.t) : Prop :=
  is_Some (ContainerStats.CPU cs) /\ is_Some (ContainerStats.Memory cs).

(** A pod as a pass reports it: it has a container, and its containers
    have their CPU and memory stats. *)
Definition reportable {T : ExternalTypes} (ps : PodStats.t) : Prop :=
  PodStats.Containers ps <> [] /\ Forall measured (PodStats.Containers ps).

(** Maps visited from the end of their entry lists. *)
Definition rangeReversed : forall A : Type, list A -> list A := fun _ l => reverse l.

(** A stat record without attributes, and one of container [id] whose
    writable layer is on the filesystem mounted at [mountpoint]. *)
Definition bareRecord : runtimeapi.ContainerStats.t :=
  runtimeapi.ContainerStats.mk None None None None.

Definition layerSample (id mountpoint : string) : runtimeapi.ContainerStats.t :=
  runtimeapi.ContainerStats.mk
    (Some (ContainerAttributes.mk id (Some (ContainerMetadata.mk id 0)) ∅))
    None None
    (Some (FilesystemUsage.mk 10 (Some (FilesystemIdentifier.mk mountpoint)) None None)).

(** The pod stats [ps] are those of the sandbox [sandbox]: the
    reference is read off its metadata, the start time is its creation
    time. *)
Definition statsOf {T : ExternalTypes} (sandbox : PodSandbox.t) (ps : PodStats.t) : Prop :=
  exists meta,
    PodSandbox.Metadata sandbox = Some meta
    /\ PodStats.PodRef ps
       = PodReference.mk (PodSandboxMetadata.Name meta) (PodSandboxMetadata.Uid meta)
           (PodSandboxMetadata.Namespace meta)
    /\ PodStats.StartTime ps = Unix (PodSandbox.CreatedAt sandbox).

(** What a pass over the example, at 20 ns, reports of the stat record
    [cpuSample "c2" 10 5] when the cache has no rate for [c2]: the pod
    [web] of sandbox [s2] with the container [c2]. *)
Definition examplePodStats : PodStats.t (T := unitTypes) :=
  PodStats.mk (PodReference.mk "web" "s2" "default") (Unix 20)
    [ContainerStats.mk "c2" (Unix 21)
       (Some (CPUStats.mk (Unix 10) None (Some 5)))
       (Some (MemoryStats.mk (Unix 20) None None (Some 0) None None None))
       (Some (FsStats.mk ZeroTime None None None None None None))
       None (Some ProcessStats.zero) []]
    (Some (CPUStats.mk (Unix 10) (Some 0) (Some 5)))
    (Some (MemoryStats.mk (Unix 20) (Some 0) (Some 0) (Some 0) (Some 0) (Some 0) (Some 0)))
    None (Some ∅) (Some ProcessStats.zero).

(** * Properties *)

(** ** [float64] arithmetic

    The rounding of [binary_round_aux] on a mantissa of 53 bits or more,
    away from the ends of the exponent range: the result is one of the
    two floats around the exact value. From it, the errors of the
    conversion, the division and the multiplication that make a rate. *)

Lemma digits2_pos_size p : digits2_pos p = Pos.size p.
Proof. induction p; simpl; congruence. Qed.

Lemma Zdigits2_bounds m : 0 < m -> 2 ^ (Zdigits2 m - 1) <= m < 2 ^ Zdigits2 m.
Proof.
  destruct m as [|p|p]; try lia. intros _. simpl. rewrite digits2_pos_size.
  split.
  - pose proof (Pos.size_le p) as Hle.
    assert (Hp : Z.pos (2 ^ Pos.size p) <= Z.pos p~0) by exact Hle.
    rewrite Pos2Z.inj_pow in Hp.
    replace (Z.pos (Pos.size p)) with (Z.pos (Pos.size p) - 1 + 1) in Hp by lia.
    rewrite Z.pow_add_r in Hp by lia. lia.
  - pose proof (Pos.size_gt p) as Hgt.
    assert (Hp : Z.pos p < Z.pos (2 ^ Pos.size p)) by exact Hgt.
    by rewrite Pos2Z.inj_pow in Hp.
Qed.

Lemma Zdigits2_unique m d : 2 ^ (d - 1) <= m < 2 ^ d -> 0 < d -> Zdigits2 m = d.
Proof.
  intros [Hlo Hhi] Hd.
  assert (Hm : 0 < m) by (pose proof (Z.pow_pos_nonneg 2 (d - 1)); lia).
  destruct (Zdigits2_bounds m Hm) as [Hlo' Hhi'].
  assert (Hd' : 0 < Zdigits2 m) by (destruct m; simpl in *; lia).
  destruct (Z.lt_trichotomy (Zdigits2 m) d) as [Hlt|[Heq|Hgt]]; [|done|].
  - assert (2 ^ Zdigits2 m <= 2 ^ (d - 1)) by (apply Z.pow_le_mono_r; lia). lia.
  - assert (2 ^ d <= 2 ^ (Zdigits2 m - 1)) by (apply Z.pow_le_mono_r; lia). lia.
Qed.

Lemma shr_1_m mrs : 0 <= shr_m mrs -> shr_m (shr_1 mrs) = shr_m mrs / 2.
Proof.
  destruct mrs as [m r s]. cbn [shr_m]. intros Hm.
  destruct m as [|[p|p|]|p]; cbn [shr_1 shr_m].
  - done.
  - apply (Z.div_unique _ _ _ 1); lia.
  - apply (Z.div_unique _ _ _ 0); lia.
  - done.
  - lia.
Qed.

Lemma iter_shr_1_m p mrs :
  0 <= shr_m mrs -> shr_m (SpecFloat.iter_pos shr_1 p mrs) = shr_m mrs / 2 ^ Z.pos p.
Proof.
  revert mrs. induction p as [p IH|p IH|]; intros mrs Hm; simpl.
  - assert (H1 : 0 <= shr_m (shr_1 mrs)).
    { rewrite shr_1_m by done. apply Z.div_pos; lia. }
    assert (H2 : 0 <= shr_m (SpecFloat.iter_pos shr_1 p (shr_1 mrs))).
    { rewrite IH by done. apply Z.div_pos; [done|]. apply Z.pow_pos_nonneg; lia. }
    rewrite IH, IH, shr_1_m by done.
    rewrite !Z.div_div by (try apply Z.pow_pos_nonneg; lia).
    f_equal. replace (Z.pos p~1) with (1 + Z.pos p + Z.pos p) by lia.
    rewrite !Z.pow_add_r by lia. lia.
  - assert (H2 : 0 <= shr_m (SpecFloat.iter_pos shr_1 p mrs)).
    { rewrite IH by done. apply Z.div_pos; [done|]. apply Z.pow_pos_nonneg; lia. }
    rewrite IH, IH by done.
    rewrite !Z.div_div by (try apply Z.pow_pos_nonneg; lia).
    f_equal. replace (Z.pos p~0) with (Z.pos p + Z.pos p) by lia.
    rewrite !Z.pow_add_r by lia. lia.
  - by rewrite shr_1_m.
Qed.

Lemma round_nearest_even_cases m l :
  round_nearest_even m l = m \/ round_nearest_even m l = m + 1.
Proof. destruct l as [|[]]; simpl; try destruct (Z.even m); auto. Qed.

Lemma fexp_normal e : -1074 <= e - 53 -> fexp 53 1024 e = e - 53.
Proof. unfold fexp, emin. lia. Qed.

Lemma shr_fexp_normal m e l d :
  0 < m -> Zdigits2 m = d -> 53 <= d -> -1074 <= e + d - 53 ->
  exists mrs,
    shr_fexp 53 1024 m e l = (mrs, e + (d - 53))
    /\ shr_m mrs = m / 2 ^ (d - 53)
    /\ (d = 53 -> mrs = shr_record_of_loc m l).
Proof.
  intros Hm Hd Hd53 He. unfold shr_fexp. rewrite Hd, fexp_normal by lia.
  replace (d + e - 53 - e) with (d - 53) by lia.
  assert (Hrec : shr_m (shr_record_of_loc m l) = m) by (by destruct l as [|[]]).
  destruct (d - 53) as [|p|p] eqn:Hn; try lia; unfold shr.
  - eexists. split; [by rewrite Z.add_0_r|]. split; [|done].
    by rewrite Hrec, Z.div_1_r.
  - eexists. split; [done|]. split; [|lia].
    rewrite iter_shr_1_m by (rewrite Hrec; lia). by rewrite Hrec.
Qed.

Lemma binary_round_aux_normal mx ex lx d :
  0 < mx -> Zdigits2 mx = d -> 53 <= d ->
  -1074 <= ex + d - 53 -> ex + d - 53 < 971 ->
  exists m' e',
    binary_round_aux 53 1024 false mx ex lx = S754_finite false m' e'
    /\ 2 ^ 52 <= Z.pos m' < 2 ^ 53
    /\ ex + (d - 53) <= e' <= ex + (d - 53) + 1
    /\ (Z.pos m' * 2 ^ (e' - (ex + (d - 53))) = mx / 2 ^ (d - 53)
        \/ Z.pos m' * 2 ^ (e' - (ex + (d - 53))) = mx / 2 ^ (d - 53) + 1)
    /\ (lx = loc_Exact -> d = 53 -> Z.pos m' = mx /\ e' = ex).
Proof.
  intros Hm Hd Hd53 Hlo Hhi. unfold binary_round_aux.
  destruct (shr_fexp_normal mx ex lx d Hm Hd Hd53 Hlo) as (mrs1 & -> & Hm1 & Hx1).
  set (e1 := ex + (d - 53)). set (m1 := mx / 2 ^ (d - 53)) in *.
  assert (Hm1b : 2 ^ 52 <= m1 < 2 ^ 53).
  { destruct (Zdigits2_bounds mx Hm) as [Hl Hu]. rewrite Hd in Hl, Hu.
    assert (Hp : 0 < 2 ^ (d - 53)) by (apply Z.pow_pos_nonneg; lia).
    assert (Hl' : 2 ^ 52 * 2 ^ (d - 53) <= mx).
    { rewrite <- Z.pow_add_r by lia. by replace (52 + (d - 53)) with (d - 1) by lia. }
    assert (Hu' : mx < 2 ^ 53 * 2 ^ (d - 53)).
    { rewrite <- Z.pow_add_r by lia. by replace (53 + (d - 53)) with d by lia. }
    unfold m1. split.
    - apply Z.div_le_lower_bound; lia.
    - apply Z.div_lt_upper_bound; lia. }
  set (m2 := round_nearest_even (shr_m mrs1) (loc_of_shr_record mrs1)).
  assert (Hm2 : m2 = m1 \/ m2 = m1 + 1).
  { unfold m2. rewrite <- Hm1. apply round_nearest_even_cases. }
  assert (Hexact : lx = loc_Exact -> d = 53 -> m2 = mx).
  { intros -> Hd'. unfold m2. rewrite (Hx1 Hd'). done. }
  destruct (decide (m2 < 2 ^ 53)) as [Hsmall|Hbig].
  - assert (Hd2 : Zdigits2 m2 = 53) by (apply Zdigits2_unique; lia).
    destruct (shr_fexp_normal m2 e1 loc_Exact 53) as (mrs2 & -> & Hm2' & Hx2);
      [lia|done|lia|unfold e1; lia|].
    rewrite Z.sub_diag, Z.pow_0_r, Z.div_1_r in Hm2'.
    rewrite Hm2'. destruct m2 as [|p2|p2] eqn:Hp2; try lia.
    destruct (Z.leb_spec (e1 + (53 - 53)) (1024 - 53)) as [_|Hc];
      [|unfold e1 in Hc; lia].
    exists p2, (e1 + (53 - 53)). split; [done|]. split; [lia|]. split; [lia|].
    split.
    + replace (e1 + (53 - 53) - e1) with 0 by lia. rewrite Z.pow_0_r. lia.
    + intros Hl Hd'. specialize (Hexact Hl Hd'). unfold e1. lia.
  - assert (Hm2' : m2 = 2 ^ 53) by lia.
    assert (Hd2 : Zdigits2 m2 = 54) by (apply Zdigits2_unique; lia).
    destruct (shr_fexp_normal m2 e1 loc_Exact 54) as (mrs2 & -> & Hm3 & Hx2);
      [lia|done|lia|unfold e1; lia|].
    rewrite Hm2' in Hm3. change (2 ^ 53 / 2 ^ (54 - 53)) with (2 ^ 52) in Hm3.
    destruct (shr_m mrs2) as [|p3|p3] eqn:Hp3; try lia.
    destruct (Z.leb_spec (e1 + (54 - 53)) (1024 - 53)) as [_|Hc];
      [|unfold e1 in Hc; lia].
    exists p3, (e1 + (54 - 53)). split; [done|]. split; [lia|]. split; [lia|].
    split.
    + right. replace (e1 + (54 - 53) - e1) with 1 by lia. lia.
    + intros Hl Hd'. specialize (Hexact Hl Hd'). unfold m1 in Hm1b.
      rewrite Hd', Z.sub_diag, Z.pow_0_r, Z.div_1_r in Hm1b. lia.
Qed.

Lemma pow2_pos e : (0 < pow2 e)%R.
Proof. apply powerRZ_lt. lra. Qed.

Lemma pow2_add a b : pow2 (a + b) = (pow2 a * pow2 b)%R.
Proof. apply powerRZ_add. lra. Qed.

Lemma pow2_IZR k : 0 <= k -> pow2 k = IZR (2 ^ k).
Proof.
  intros Hk. unfold pow2. rewrite <- (Z2Nat.id k) by done.
  rewrite <- pow_powerRZ, pow_IZR. done.
Qed.

Lemma pow2_opp a : (pow2 (- a) * pow2 a = 1)%R.
Proof. rewrite <- pow2_add. replace (- a + a) with 0 by lia. done. Qed.

(** Floor division in the reals. *)
Lemma IZR_div_bounds a b :
  0 < b -> (IZR (a / b) * IZR b <= IZR a < (IZR (a / b) + 1) * IZR b)%R.
Proof.
  intros Hb. pose proof (Z.mul_div_le a b Hb). pose proof (Z.mul_succ_div_gt a b Hb).
  split.
  - rewrite <- mult_IZR. apply IZR_le. lia.
  - rewrite <- plus_IZR, <- mult_IZR. apply IZR_lt. lia.
Qed.

Lemma binary_round_aux_error mx ex lx d (x : R) :
  0 < mx -> Zdigits2 mx = d -> 53 <= d ->
  -1074 <= ex + d - 53 -> ex + d - 53 < 971 ->
  (IZR mx * pow2 ex <= x < (IZR mx + 1) * pow2 ex)%R ->
  exists m' e',
    binary_round_aux 53 1024 false mx ex lx = S754_finite false m' e'
    /\ 2 ^ 52 <= Z.pos m' < 2 ^ 53
    /\ ex + (d - 53) <= e' <= ex + (d - 53) + 1
    /\ (Rabs (IZR (Z.pos m') * pow2 e' - x) * IZR (2 ^ 52) <= x)%R.
Proof.
  intros Hm Hd Hd53 Hlo Hhi [Hxl Hxu].
  destruct (binary_round_aux_normal mx ex lx d Hm Hd Hd53 Hlo Hhi)
    as (m' & e' & Hr & Hm' & He' & Hval & _).
  exists m', e'. split; [done|]. split; [done|]. split; [done|].
  assert (Hm1b : 2 ^ 52 <= mx / 2 ^ (d - 53)).
  { destruct (Zdigits2_bounds mx Hm) as [Hl _]. rewrite Hd in Hl.
    apply Z.div_le_lower_bound; [apply Z.pow_pos_nonneg; lia|].
    assert (Heq : 2 ^ (d - 53) * 2 ^ 52 = 2 ^ (d - 1)).
    { rewrite <- Z.pow_add_r by lia. f_equal. lia. }
    by rewrite Heq. }
  assert (Hpow : 0 < 2 ^ (d - 53)) by (apply Z.pow_pos_nonneg; lia).
  destruct (IZR_div_bounds mx (2 ^ (d - 53)) Hpow) as [Hdl Hdu].
  assert (Hsplit : pow2 (ex + (d - 53)) = (pow2 ex * IZR (2 ^ (d - 53)))%R).
  { rewrite pow2_add, (pow2_IZR (d - 53)) by lia. done. }
  assert (Hf : (IZR (Z.pos m') * pow2 e'
                = IZR (Z.pos m' * 2 ^ (e' - (ex + (d - 53)))) * pow2 (ex + (d - 53)))%R).
  { rewrite mult_IZR, <- (pow2_IZR (e' - (ex + (d - 53)))) by lia.
    rewrite Rmult_assoc, <- pow2_add.
    by replace (e' - (ex + (d - 53)) + (ex + (d - 53))) with e' by lia. }
  apply IZR_le in Hm1b.
  set (e1 := ex + (d - 53)) in *. set (m1 := mx / 2 ^ (d - 53)) in *.
  clearbody e1 m1.
  pose proof (pow2_pos ex) as Htx.
  assert (HK : (0 < IZR (2 ^ (d - 53)))%R) by (by apply IZR_lt).
  rewrite Hf, Hsplit. clear Hf Hsplit.
  set (K := IZR (2 ^ (d - 53))) in *. set (t := pow2 ex) in *.
  set (A := IZR m1) in *. set (B := IZR mx) in *. set (C := IZR (2 ^ 52)) in *.
  assert (Hlow : (A * (t * K) <= x)%R).
  { apply Rle_trans with (B * t)%R; [|done].
    replace (A * (t * K))%R with (A * K * t)%R by ring.
    apply Rmult_le_compat_r; lra. }
  assert (Hupp : (x <= (A + 1) * (t * K))%R).
  { apply Rle_trans with ((B + 1) * t)%R; [lra|].
    replace ((A + 1) * (t * K))%R with ((A + 1) * K * t)%R by ring.
    apply Rmult_le_compat_r; [lra|].
    assert (Hint : (B + 1 <= (A + 1) * K)%R); [|done].
    assert (Hz : mx < (m1 + 1) * 2 ^ (d - 53)).
    { apply lt_IZR. rewrite mult_IZR, plus_IZR. exact Hdu. }
    unfold A, B, K. rewrite <- !plus_IZR, <- mult_IZR. apply IZR_le. lia. }
  assert (HtK : (0 < t * K)%R) by (by apply Rmult_lt_0_compat).
  assert (Hc : (0 < C)%R) by (by apply IZR_lt).
  apply Rle_trans with (t * K * C)%R.
  - apply Rmult_le_compat_r; [lra|]. apply Rabs_le.
    destruct Hval as [-> | ->]; [|rewrite plus_IZR]; fold A; split; lra.
  - apply Rle_trans with (A * (t * K))%R; [|done].
    replace (t * K * C)%R with (C * (t * K))%R by ring.
    apply Rmult_le_compat_r; lra.
Qed.

Lemma Pos_iter_xO p k : Z.pos (Pos.iter xO p k) = Z.pos p * 2 ^ Z.pos k.
Proof.
  induction k as [|k IH] using Pos.peano_ind.
  - simpl. lia.
  - rewrite Pos.iter_succ, Pos2Z.inj_xO, IH, Pos2Z.inj_succ, Z.pow_succ_r by lia. lia.
Qed.

(** An integer below [2^53] converts exactly. *)
Lemma of_int_exact n :
  0 < n < 2 ^ 53 ->
  exists m e,
    F64.of_int n = S754_finite false m e
    /\ 2 ^ 52 <= Z.pos m < 2 ^ 53
    /\ -52 <= e <= 0
    /\ Z.pos m = n * 2 ^ (- e).
Proof.
  intros [Hn0 Hn]. destruct n as [|p|p]; try lia.
  unfold F64.of_int, F64.prec, F64.emax, binary_normalize, binary_round.
  destruct (Zdigits2_bounds (Z.pos p) Hn0) as [Hl Hu].
  set (d := Zdigits2 (Z.pos p)) in *.
  assert (Hd0 : 0 < d) by (unfold d; simpl; lia).
  assert (Hd : d <= 53).
  { destruct (Z.le_gt_cases d 53) as [|Hgt]; [done|].
    assert (2 ^ 53 <= 2 ^ (d - 1)) by (apply Z.pow_le_mono_r; lia). lia. }
  change (Z.pos (digits2_pos p)) with d.
  rewrite Z.add_0_r, fexp_normal by lia. unfold shl_align.
  assert (Hshift : exists mz ez,
    match d - 53 - 0 with
    | Z.neg k => (Pos.iter xO p k, d - 53)
    | _ => (p, 0)
    end = (mz, ez)
    /\ Z.pos mz = Z.pos p * 2 ^ (- ez) /\ ez = d - 53).
  { destruct (d - 53 - 0) as [|k|k] eqn:Hk; try lia.
    - exists p, 0. split; [done|]. split; lia.
    - eexists _, _. split; [done|]. split; [|done].
      rewrite Pos_iter_xO. f_equal. f_equal. lia. }
  destruct Hshift as (mz & ez & -> & Hmz & Hez).
  assert (Hmzb : 2 ^ 52 <= Z.pos mz < 2 ^ 53).
  { rewrite Hmz, Hez. split.
    - replace 52 with (d - 1 + (- (d - 53))) by lia.
      rewrite Z.pow_add_r by lia. apply Z.mul_le_mono_nonneg_r; [|done].
      apply Z.pow_nonneg. lia.
    - replace 53 with (d + (- (d - 53))) at 2 by lia.
      rewrite Z.pow_add_r by lia. apply Z.mul_lt_mono_pos_r; [|done].
      apply Z.pow_pos_nonneg; lia. }
  destruct (binary_round_aux_normal (Z.pos mz) ez loc_Exact 53)
    as (m' & e' & -> & _ & _ & _ & Hex); [lia|by apply Zdigits2_unique|lia|lia|lia|].
  destruct (Hex eq_refl eq_refl) as [Hm' ->].
  exists m', ez. split; [done|]. rewrite Hm'. split; [done|]. split; [lia|done].
Qed.

Lemma mul_error mx ex my ey :
  2 ^ 52 <= Z.pos mx < 2 ^ 53 -> 2 ^ 52 <= Z.pos my < 2 ^ 53 ->
  -1074 <= ex + ey + 52 -> ex + ey + 53 < 971 ->
  exists mp ep,
    F64.mul (S754_finite false mx ex) (S754_finite false my ey) = S754_finite false mp ep
    /\ 2 ^ 52 <= Z.pos mp < 2 ^ 53
    /\ (Rabs (IZR (Z.pos mp) * pow2 ep
              - IZR (Z.pos mx) * pow2 ex * (IZR (Z.pos my) * pow2 ey)) * IZR (2 ^ 52)
        <= IZR (Z.pos mx) * pow2 ex * (IZR (Z.pos my) * pow2 ey))%R.
Proof.
  intros Hmx Hmy Hlo Hhi. unfold F64.mul, F64.prec, F64.emax, SFmul. cbn [xorb].
  assert (HM : 2 ^ 104 <= Z.pos (mx * my) < 2 ^ 106).
  { rewrite Pos2Z.inj_mul. change (2 ^ 104) with (2 ^ 52 * 2 ^ 52).
    change (2 ^ 106) with (2 ^ 53 * 2 ^ 53). split.
    - apply Z.mul_le_mono_nonneg; lia.
    - apply Z.mul_lt_mono_nonneg; lia. }
  set (x := (IZR (Z.pos mx) * pow2 ex * (IZR (Z.pos my) * pow2 ey))%R).
  assert (Hx : x = (IZR (Z.pos (mx * my)) * pow2 (ex + ey))%R).
  { unfold x. rewrite Pos2Z.inj_mul, mult_IZR, pow2_add. ring. }
  pose proof (pow2_pos (ex + ey)) as Ht.
  set (d := Zdigits2 (Z.pos (mx * my))).
  assert (Hd : 105 <= d <= 106).
  { destruct (Zdigits2_bounds (Z.pos (mx * my))) as [Hl Hu]; [lia|]. fold d in Hl, Hu.
    split.
    - destruct (Z.le_gt_cases 105 d) as [|Hgt]; [done|].
      assert (2 ^ d <= 2 ^ 104) by (apply Z.pow_le_mono_r; lia). lia.
    - destruct (Z.le_gt_cases d 106) as [|Hgt]; [done|].
      assert (2 ^ 106 <= 2 ^ (d - 1)) by (apply Z.pow_le_mono_r; lia). lia. }
  destruct (binary_round_aux_error (Z.pos (mx * my)) (ex + ey) loc_Exact d x)
    as (mp & ep & -> & Hmp & _ & Herr); [lia|done|lia|lia|lia| |].
  - rewrite Hx. split; [lra|]. nra.
  - exists mp, ep. done.
Qed.

Lemma Rdiv_bounds (q a b : R) :
  (0 < b)%R -> (q * b <= a < (q + 1) * b)%R -> (q <= a / b < q + 1)%R.
Proof.
  intros Hb [Hl Hu]. split.
  - apply Rmult_le_reg_r with b; [lra|].
    unfold Rdiv. rewrite Rmult_assoc, Rinv_l by lra. lra.
  - apply Rmult_lt_reg_r with b; [lra|].
    unfold Rdiv. rewrite Rmult_assoc, Rinv_l by lra. lra.
Qed.

Lemma div_scale (Mx My tx ty p : R) :
  (0 < My)%R -> (0 < ty)%R -> (0 < p)%R ->
  (Mx * tx / (My * ty) = Mx * p / My * (tx * (/ ty * / p)))%R.
Proof. intros. field. repeat split; lra. Qed.

Lemma div_error mx ex my ey :
  2 ^ 52 <= Z.pos mx < 2 ^ 53 -> 2 ^ 52 <= Z.pos my < 2 ^ 53 ->
  -1074 <= ex - ey - 53 -> ex - ey - 52 < 971 ->
  exists mq eq,
    F64.div (S754_finite false mx ex) (S754_finite false my ey) = S754_finite false mq eq
    /\ 2 ^ 52 <= Z.pos mq < 2 ^ 53
    /\ ex - ey - 53 <= eq <= ex - ey - 51
    /\ (Rabs (IZR (Z.pos mq) * pow2 eq
              - IZR (Z.pos mx) * pow2 ex / (IZR (Z.pos my) * pow2 ey)) * IZR (2 ^ 52)
        <= IZR (Z.pos mx) * pow2 ex / (IZR (Z.pos my) * pow2 ey))%R.
Proof.
  intros Hmx Hmy Hlo Hhi.
  unfold F64.div, F64.prec, F64.emax, SFdiv, SFdiv_core_binary. cbn [xorb].
  rewrite (Zdigits2_unique (Z.pos mx) 53), (Zdigits2_unique (Z.pos my) 53) by lia.
  replace (53 + ex - (53 + ey)) with (ex - ey) by lia.
  rewrite fexp_normal by lia.
  replace (Z.min (ex - ey - 53) (ex - ey)) with (ex - ey - 53) by lia.
  replace (ex - ey - (ex - ey - 53)) with 53 by lia.
  rewrite Z.shiftl_mul_pow2 by lia.
  set (a := Z.pos mx * 2 ^ 53).
  destruct (Z.div_eucl a (Z.pos my)) as [q r] eqn:Hqr.
  assert (Hq : q = a / Z.pos my) by (unfold Z.div; by rewrite Hqr).
  assert (Hqb : 2 ^ 52 <= q < 2 ^ 54).
  { rewrite Hq. unfold a. split.
    - apply Z.div_le_lower_bound; lia.
    - apply Z.div_lt_upper_bound; lia. }
  set (d := Zdigits2 q).
  assert (Hd : 53 <= d <= 54).
  { destruct (Zdigits2_bounds q) as [Hl Hu]; [lia|]. fold d in Hl, Hu.
    split.
    - destruct (Z.le_gt_cases 53 d) as [|Hgt]; [done|].
      assert (2 ^ d <= 2 ^ 52) by (apply Z.pow_le_mono_r; lia). lia.
    - destruct (Z.le_gt_cases d 54) as [|Hgt]; [done|].
      assert (2 ^ 54 <= 2 ^ (d - 1)) by (apply Z.pow_le_mono_r; lia). lia. }
  set (x := (IZR (Z.pos mx) * pow2 ex / (IZR (Z.pos my) * pow2 ey))%R).
  pose proof (pow2_pos ex) as Htx. pose proof (pow2_pos ey) as Hty.
  assert (Hmy0 : (0 < IZR (Z.pos my))%R) by (apply IZR_lt; lia).
  assert (Hx : x = (IZR a / IZR (Z.pos my) * pow2 (ex - ey - 53))%R).
  { unfold x, a. rewrite mult_IZR, <- (pow2_IZR 53) by lia.
    replace (ex - ey - 53) with (ex + (- ey + - 53)) by lia.
    rewrite !pow2_add.
    assert (Hiy : pow2 (- ey) = (/ pow2 ey)%R) by apply powerRZ_neg'.
    assert (Hi53 : pow2 (- 53) = (/ pow2 53)%R) by apply (powerRZ_neg' 2 53).
    rewrite Hiy, Hi53. pose proof (pow2_pos 53) as H53.
    apply div_scale; lra. }
  destruct (IZR_div_bounds a (Z.pos my)) as [Hdl Hdu]; [lia|]. rewrite <- Hq in Hdl, Hdu.
  pose proof (pow2_pos (ex - ey - 53)) as Ht.
  destruct (binary_round_aux_error q (ex - ey - 53) (new_location (Z.pos my) r) d x)
    as (mq & eq & -> & Hmq & Heq & Herr); [lia|done|lia|lia|lia| |].
  - rewrite Hx. destruct (Rdiv_bounds (IZR q) (IZR a) (IZR (Z.pos my))) as [Hql Hqu];
      [lra|lra|].
    split.
    + apply Rmult_le_compat_r; lra.
    + apply Rmult_lt_compat_r; lra.
  - exists mq, eq. split; [done|]. split; [done|]. split; [lia|done].
Qed.

Lemma exact_value m e n :
  e <= 0 -> Z.pos m = n * 2 ^ (- e) -> (IZR (Z.pos m) * pow2 e = IZR n)%R.
Proof.
  intros He ->. rewrite mult_IZR, <- pow2_IZR by lia.
  rewrite Rmult_assoc, pow2_opp. ring.
Qed.

(** The integer part of a positive float, in the reals. *)
Lemma shiftl_floor m e :
  (IZR (Z.shiftl (Z.pos m) e) <= IZR (Z.pos m) * pow2 e < IZR (Z.shiftl (Z.pos m) e) + 1)%R.
Proof.
  destruct (Z.le_gt_cases 0 e) as [He|He].
  - rewrite Z.shiftl_mul_pow2, mult_IZR, <- pow2_IZR by lia. lra.
  - rewrite Z.shiftl_div_pow2 by lia.
    assert (Hp : 0 < 2 ^ (- e)) by (apply Z.pow_pos_nonneg; lia).
    destruct (IZR_div_bounds (Z.pos m) (2 ^ (- e)) Hp) as [Hl Hu].
    rewrite <- pow2_IZR in Hl, Hu by lia.
    pose proof (pow2_pos (- e)) as Hpos. pose proof (pow2_pos e) as Hpe.
    pose proof (pow2_opp (- e)) as Hinv. rewrite Z.opp_involutive in Hinv.
    set (q := IZR (Z.pos m / 2 ^ (- e))) in *. set (M := IZR (Z.pos m)) in *.
    set (u := pow2 (- e)) in *. set (v := pow2 e) in *.
    clearbody q M u v.
    assert (H1 : (0 <= (M - q * u) * v)%R) by (apply Rmult_le_pos; lra).
    assert (H2 : (0 < ((q + 1) * u - M) * v)%R) by (apply Rmult_lt_0_compat; lra).
    replace ((M - q * u) * v)%R with (M * v - q * (v * u))%R in H1 by ring.
    replace (((q + 1) * u - M) * v)%R with ((q + 1) * (v * u) - M * v)%R in H2 by ring.
    rewrite Hinv in H1, H2. lra.
Qed.

Lemma Rabs_scaled (a b K : R) :
  (0 <= K)%R -> (Rabs a * K <= b)%R -> (- b <= a * K <= b)%R.
Proof.
  intros HK. destruct (Rcase_abs a) as [Hn|Hp].
  - rewrite (Rabs_left _ Hn). intros Hb.
    assert (a * K <= 0)%R by (replace (a * K)%R with (- (- a * K))%R by ring;
      apply Ropp_le_cancel; rewrite Ropp_involutive, Ropp_0; apply Rmult_le_pos; lra).
    lra.
  - rewrite (Rabs_right _ Hp). intros Hb.
    assert (0 <= a * K)%R by (apply Rmult_le_pos; lra). lra.
Qed.

(** Two roundings, each of a relative error of at most [2^-52], move
    a product below [2^50] by less than 1. *)
Lemma two_roundings (x C Q P : R) :
  (0 < x)%R -> (0 < C)%R -> (x * C < IZR (2 ^ 50))%R ->
  (Rabs (Q - x) * IZR (2 ^ 52) <= x)%R ->
  (Rabs (P - Q * C) * IZR (2 ^ 52) <= Q * C)%R ->
  (Rabs (P - x * C) < 1)%R.
Proof.
  change (IZR (2 ^ 50)) with 1125899906842624%R.
  change (IZR (2 ^ 52)) with 4503599627370496%R.
  intros Hx HC HR HQ%Rabs_scaled HP%Rabs_scaled; [|lra..].
  assert (HxC : (0 < x * C)%R) by (apply Rmult_lt_0_compat; lra).
  assert (HQx : (- (x * C) <= (Q * C - x * C) * 4503599627370496 <= x * C)%R).
  { replace ((Q * C - x * C) * 4503599627370496)%R
      with ((Q - x) * 4503599627370496 * C)%R by ring.
    split.
    - replace (- (x * C))%R with (- x * C)%R by ring. apply Rmult_le_compat_r; lra.
    - apply Rmult_le_compat_r; lra. }
  apply Rabs_def1; lra.
Qed.

Lemma computeUsageNanoCores_close unrepresentable newValue cachedValue nanoSeconds :
  0 < newValue - cachedValue < 2 ^ 53 ->
  0 < nanoSeconds < 2 ^ 53 ->
  (newValue - cachedValue) * 1000000000 < 2 ^ 50 * nanoSeconds ->
  Z.abs (computeUsageNanoCores unrepresentable newValue cachedValue nanoSeconds
         - (newValue - cachedValue) * 1000000000 / nanoSeconds) <= 1.
Proof.
  intros Hdelta Hdt Hrate. unfold computeUsageNanoCores.
  set (delta := newValue - cachedValue) in *.
  assert (Hwrap : wrap_u64 delta = delta).
  { unfold wrap_u64, two64. apply Z.mod_small. lia. }
  rewrite Hwrap. change (Second / Nanosecond) with 1000000000.
  destruct (of_int_exact delta Hdelta) as (mx & ex & -> & Hmx & Hex & Hvx).
  destruct (of_int_exact nanoSeconds Hdt) as (my & ey & -> & Hmy & Hey & Hvy).
  destruct (of_int_exact 1000000000) as (mc & ec & -> & Hmc & Hec & Hvc); [lia|].
  destruct (div_error mx ex my ey Hmx Hmy) as (mq & eq & -> & Hmq & Heq & Hq); [lia..|].
  destruct (mul_error mq eq mc ec Hmq Hmc) as (mp & ep & -> & Hmp & Hp); [lia..|].
  apply exact_value in Hvx, Hvy, Hvc; [|lia..].
  rewrite Hvx, Hvy in Hq. rewrite Hvc in Hp.
  set (X := IZR delta) in *. set (Y := IZR nanoSeconds) in *.
  set (Q := (IZR (Z.pos mq) * pow2 eq)%R) in *.
  set (P := (IZR (Z.pos mp) * pow2 ep)%R) in *.
  assert (HX : (0 < X)%R) by (apply IZR_lt; lia).
  assert (HY : (0 < Y)%R) by (apply IZR_lt; lia).
  assert (Hx : (0 < X / Y)%R) by (by apply Rdiv_lt_0_compat).
  assert (Hexact : (X / Y * 1000000000 = IZR (delta * 1000000000) / Y)%R).
  { rewrite mult_IZR. fold X. field. lra. }
  assert (Hbound : (X / Y * 1000000000 < IZR (2 ^ 50))%R).
  { rewrite Hexact. apply Rmult_lt_reg_r with Y; [done|].
    unfold Rdiv. rewrite Rmult_assoc, Rinv_l, Rmult_1_r by lra.
    unfold Y. rewrite <- mult_IZR. by apply IZR_lt. }
  pose proof (two_roundings (X / Y) 1000000000 Q P Hx ltac:(lra) Hbound Hq Hp) as Herr.
  apply Rabs_def2 in Herr as [Herr1 Herr2].
  destruct (shiftl_floor mp ep) as [Hfl Hfu]. fold P in Hfl, Hfu.
  set (r := Z.shiftl (Z.pos mp) ep) in *.
  set (E := delta * 1000000000 / nanoSeconds).
  destruct (IZR_div_bounds (delta * 1000000000) nanoSeconds) as [Hel Heu]; [lia|].
  fold E Y in Hel, Heu.
  destruct (Rdiv_bounds (IZR E) (IZR (delta * 1000000000)) Y HY (conj Hel Heu))
    as [HEl HEu].
  rewrite <- Hexact in HEl, HEu.
  assert (Hr1 : r < E + 2).
  { apply lt_IZR. rewrite plus_IZR. lra. }
  assert (Hr2 : E - 2 < r).
  { apply lt_IZR. rewrite minus_IZR. lra. }
  assert (Hr0 : 0 <= r) by (apply Z.shiftl_nonneg; lia).
  assert (HE : E < 2 ^ 50).
  { apply lt_IZR. lra. }
  unfold F64.to_uint64, F64.trunc. fold r.
  rewrite decide_True by (unfold two64; lia). lia.
Qed.


(** ** The rate cache *)

Lemma time_Since_expired now ts :
  time_Since now ts > defaultCachePeriod <-> now - ts > 10 * 60 * 1000000000.
Proof.
  unfold time_Since, minInt64, maxInt64, defaultCachePeriod, Minute, Second, Nanosecond.
  lia.
Qed.

Lemma foldl_Fault {A B} (f : B -> A -> outcome B) (l : list A) :
  foldl (fun acc a => b ← acc; f b a) Fault l = Fault.
Proof. induction l as [|a l IH]; [done | exact IH]. Qed.

Section CacheFacts.

Variable unrepresentable : spec_float -> Z.
Variable map_range : forall A : Type, list A -> list A.
Hypothesis map_range_perm : forall (A : Type) (l : list A), map_range A l ≡ₚ l.

Local Abbreviation update := (getAndUpdateContainerUsageNanoCores unrepresentable).
Local Abbreviation sweep := (cleanupOutdatedCaches map_range).

(** No baseline: the new sample becomes the baseline. *)
Lemma update_first_sample st attrs cpu newValue (cache : cpuUsageCache) :
  runtimeapi.ContainerStats.Attributes st = Some attrs ->
  runtimeapi.ContainerStats.Cpu st = Some cpu ->
  CpuUsage.UsageCoreNanoSeconds cpu = Some newValue ->
  cache !! ContainerAttributes.Id attrs = None ->
  update (Some st) cache =
    Done (None, <[ContainerAttributes.Id attrs := Some (mkRecord (Some cpu) None)]> cache).
Proof.
  intros Ha Hc Hv Hk. unfold getAndUpdateContainerUsageNanoCores.
  by rewrite Ha, Hc, Hv, Hk.
Qed.

(** The cached sample has no cumulative counter: same. *)
Lemma update_no_cached_counter st attrs cpu newValue (cache : cpuUsageCache)
    cached cachedStats :
  runtimeapi.ContainerStats.Attributes st = Some attrs ->
  runtimeapi.ContainerStats.Cpu st = Some cpu ->
  CpuUsage.UsageCoreNanoSeconds cpu = Some newValue ->
  cache !! ContainerAttributes.Id attrs = Some (Some cached) ->
  stats cached = Some cachedStats ->
  CpuUsage.UsageCoreNanoSeconds cachedStats = None ->
  update (Some st) cache =
    Done (None, <[ContainerAttributes.Id attrs := Some (mkRecord (Some cpu) None)]> cache).
Proof.
  intros Ha Hc Hv Hk Hs Hn. unfold getAndUpdateContainerUsageNanoCores.
  rewrite Ha, Hc, Hv, Hk. simpl. rewrite Hs. simpl. by rewrite Hn.
Qed.

(** The counter went down: same. *)
Lemma update_regression st attrs cpu newValue (cache : cpuUsageCache)
    cached cachedStats cachedValue :
  runtimeapi.ContainerStats.Attributes st = Some attrs ->
  runtimeapi.ContainerStats.Cpu st = Some cpu ->
  CpuUsage.UsageCoreNanoSeconds cpu = Some newValue ->
  cache !! ContainerAttributes.Id attrs = Some (Some cached) ->
  stats cached = Some cachedStats ->
  CpuUsage.UsageCoreNanoSeconds cachedStats = Some cachedValue ->
  UInt64Value.Value newValue < UInt64Value.Value cachedValue ->
  update (Some st) cache =
    Done (None, <[ContainerAttributes.Id attrs := Some (mkRecord (Some cpu) None)]> cache).
Proof.
  intros Ha Hc Hv Hk Hs Hn Hlt. unfold getAndUpdateContainerUsageNanoCores.
  rewrite Ha, Hc, Hv, Hk. simpl. rewrite Hs. simpl. rewrite Hn.
  by rewrite decide_True.
Qed.

(** No time between the samples, or time running backwards: no rate,
    and the cache stays as it was. *)
Lemma update_no_interval st attrs cpu newValue (cache : cpuUsageCache)
    cached cachedStats cachedValue :
  runtimeapi.ContainerStats.Attributes st = Some attrs ->
  runtimeapi.ContainerStats.Cpu st = Some cpu ->
  CpuUsage.UsageCoreNanoSeconds cpu = Some newValue ->
  cache !! ContainerAttributes.Id attrs = Some (Some cached) ->
  stats cached = Some cachedStats ->
  CpuUsage.UsageCoreNanoSeconds cachedStats = Some cachedValue ->
  UInt64Value.Value cachedValue <= UInt64Value.Value newValue ->
  wrap_i64 (CpuUsage.Timestamp cpu - CpuUsage.Timestamp cachedStats) <= 0 ->
  update (Some st) cache = Done (None, cache).
Proof.
  intros Ha Hc Hv Hk Hs Hn Hle Hdt. unfold getAndUpdateContainerUsageNanoCores.
  rewrite Ha, Hc, Hv, Hk. simpl. rewrite Hs. simpl. rewrite Hn.
  rewrite decide_False by lia. by rewrite decide_True.
Qed.

(** The counter did not go down and time went on: the rate is computed
    and cached with the new sample. *)
Lemma update_rate st attrs cpu newValue (cache : cpuUsageCache)
    cached cachedStats cachedValue :
  runtimeapi.ContainerStats.Attributes st = Some attrs ->
  runtimeapi.ContainerStats.Cpu st = Some cpu ->
  CpuUsage.UsageCoreNanoSeconds cpu = Some newValue ->
  cache !! ContainerAttributes.Id attrs = Some (Some cached) ->
  stats cached = Some cachedStats ->
  CpuUsage.UsageCoreNanoSeconds cachedStats = Some cachedValue ->
  UInt64Value.Value cachedValue <= UInt64Value.Value newValue ->
  0 < wrap_i64 (CpuUsage.Timestamp cpu - CpuUsage.Timestamp cachedStats) ->
  let rate :=
    computeUsageNanoCores unrepresentable (UInt64Value.Value newValue)
      (UInt64Value.Value cachedValue)
      (wrap_i64 (CpuUsage.Timestamp cpu - CpuUsage.Timestamp cachedStats)) in
  update (Some st) cache =
    Done (Some rate,
          <[ContainerAttributes.Id attrs := Some (mkRecord (Some cpu) (Some rate))]> cache).
Proof.
  intros Ha Hc Hv Hk Hs Hn Hle Hdt. unfold getAndUpdateContainerUsageNanoCores.
  rewrite Ha, Hc, Hv, Hk. simpl. rewrite Hs. simpl. rewrite Hn.
  rewrite decide_False by lia. by rewrite decide_False by lia.
Qed.

(** *** The sweep *)

Lemma cleanupEntry_sound now (c : cpuUsageCache) kv :
  ~ malformed kv.2 ->
  cleanupEntry now c kv = Done (if fresh now kv.2 then c else delete kv.1 c).
Proof.
  destruct kv as [k [[[s|] rate]|]]; unfold cleanupEntry; simpl; intros Hm.
  - destruct (decide (time_Since now (CpuUsage.Timestamp s) > defaultCachePeriod))
      as [Hx|Hx]; rewrite time_Since_expired in Hx.
    + by rewrite bool_decide_eq_false_2 by lia.
    + by rewrite bool_decide_eq_true_2 by lia.
  - destruct Hm. by eexists.
  - done.
Qed.

Lemma sweep_fold_sound now l (c : cpuUsageCache) :
  Forall (fun kv => ~ malformed kv.2) l ->
  foldl (fun acc kv => c ← acc; cleanupEntry now c kv) (Done c) l
  = Done (sweepEntries now c l).
Proof.
  intros Hl. revert c. induction Hl as [|kv l Hkv _ IH]; intros c; [done|].
  simpl. rewrite (cleanupEntry_sound now c kv Hkv). apply IH.
Qed.

Lemma sweepEntries_gone now l (c : cpuUsageCache) k :
  c !! k = None -> sweepEntries now c l !! k = None.
Proof.
  revert c. induction l as [|kv l IH]; intros c Hk; [done|].
  simpl. apply IH. destruct (fresh now kv.2); [done|].
  rewrite lookup_delete_None. by right.
Qed.

Lemma sweepEntries_removed now l (c : cpuUsageCache) k v :
  (k, v) ∈ l -> fresh now v = false -> sweepEntries now c l !! k = None.
Proof.
  revert c. induction l as [|kv l IH]; intros c Hin Hv.
  - by apply elem_of_nil in Hin.
  - apply elem_of_cons in Hin as [<-|Hin]; simpl.
    + rewrite Hv. apply sweepEntries_gone, lookup_delete_eq.
    + by apply IH.
Qed.

Lemma sweepEntries_kept now l (c : cpuUsageCache) k :
  (forall v, (k, v) ∈ l -> fresh now v = true) ->
  sweepEntries now c l !! k = c !! k.
Proof.
  revert c. induction l as [|[k' v'] l IH]; intros c Hall; [done|].
  simpl. rewrite IH by (intros v Hv; apply Hall; by right).
  destruct (fresh now v') eqn:Hf; [done|].
  apply lookup_delete_ne. intros ->.
  rewrite (Hall v') in Hf; [done|]. by left.
Qed.

Lemma range_entries (c : cpuUsageCache) k v :
  (k, v) ∈ map_range _ (map_to_list c) <-> c !! k = Some v.
Proof. rewrite (map_range_perm _ (map_to_list c)). apply elem_of_map_to_list. Qed.

Lemma sweepEntries_filter now (c : cpuUsageCache) :
  sweepEntries now c (map_range _ (map_to_list c))
  = filter (fun kv => fresh now kv.2 = true) c.
Proof.
  apply map_eq. intros k. destruct (c !! k) as [v|] eqn:Hk.
  - destruct (fresh now v) eqn:Hf.
    + rewrite sweepEntries_kept.
      * rewrite Hk. symmetry. by apply map_lookup_filter_Some.
      * intros v' Hv'. apply range_entries in Hv'. congruence.
    + rewrite (sweepEntries_removed now _ c k v); [|by apply range_entries|done].
      symmetry. apply map_lookup_filter_None. right. intros v' Hv'. simpl. congruence.
  - rewrite sweepEntries_gone by done.
    symmetry. apply map_lookup_filter_None. by left.
Qed.

(** The sweep of a cache without malformed entries keeps exactly its
    fresh entries, as they are. *)
Lemma sweep_filter now (c : cpuUsageCache) :
  map_Forall (fun _ v => ~ malformed v) c ->
  sweep now c = Done (filter (fun kv => fresh now kv.2 = true) c).
Proof.
  intros Hc. unfold cleanupOutdatedCaches. rewrite sweep_fold_sound.
  - by rewrite sweepEntries_filter.
  - apply Forall_forall. intros [k v] Hkv. apply range_entries in Hkv. exact (Hc k v Hkv).
Qed.

Lemma cleanupEntry_done now (c c' : cpuUsageCache) kv :
  cleanupEntry now c kv = Done c' ->
  c' = if fresh now kv.2 then c else delete kv.1 c.
Proof.
  destruct kv as [k [[[s|] rate]|]]; unfold cleanupEntry; simpl; [| done |congruence].
  destruct (decide (time_Since now (CpuUsage.Timestamp s) > defaultCachePeriod))
    as [Hx|Hx]; rewrite time_Since_expired in Hx; intros [= <-].
  - by rewrite bool_decide_eq_false_2 by lia.
  - by rewrite bool_decide_eq_true_2 by lia.
Qed.

Lemma sweep_fold_done now l (c c' : cpuUsageCache) :
  foldl (fun acc kv => c ← acc; cleanupEntry now c kv) (Done c) l = Done c' ->
  c' = sweepEntries now c l.
Proof.
  revert c. induction l as [|kv l IH]; intros c; simpl; [congruence|].
  destruct (cleanupEntry now c kv) as [c1|] eqn:Hkv.
  - apply cleanupEntry_done in Hkv as ->. apply IH.
  - by rewrite foldl_Fault.
Qed.

(** A sweep that returns has kept exactly the fresh entries. *)
Lemma sweep_done now (c c' : cpuUsageCache) :
  sweep now c = Done c' -> c' = filter (fun kv => fresh now kv.2 = true) c.
Proof. intros ->%sweep_fold_done. apply sweepEntries_filter. Qed.

(** A sweep that meets a malformed entry faults. *)
Lemma sweep_fold_fault now l (c : cpuUsageCache) :
  Exists (fun kv => malformed kv.2) l ->
  foldl (fun acc kv => c ← acc; cleanupEntry now c kv) (Done c) l = Fault.
Proof.
  intros Hl. revert c. induction Hl as [kv l Hkv|kv l _ IH]; intros c; simpl.
  - destruct kv as [k v]. destruct Hkv as (r & Hv & Hr). simpl in Hv. subst v.
    unfold cleanupEntry; simpl. rewrite Hr. simpl. apply foldl_Fault.
  - destruct (cleanupEntry now c kv) as [c'|]; [apply IH | apply foldl_Fault].
Qed.

Lemma sweep_fault now (c : cpuUsageCache) k v :
  c !! k = Some v -> malformed v -> sweep now c = Fault.
Proof.
  intros Hk Hv. apply sweep_fold_fault, Exists_exists. exists (k, v). split; [|done].
  rewrite (map_range_perm _ (map_to_list c)). by apply elem_of_map_to_list.
Qed.

(** *** Well-formed caches *)

Lemma wellFormed_not_malformed v : wellFormed v -> ~ malformed v.
Proof. intros (r & s & -> & Hs) (r' & [= <-] & Hr). congruence. Qed.

Lemma update_inserts_well_formed st (cache cache' : cpuUsageCache) r k v :
  update st cache = Done (r, cache') ->
  cache' !! k = Some v ->
  cache !! k = Some v \/ wellFormed v.
Proof.
  unfold getAndUpdateContainerUsageNanoCores. intros Hu Hk.
  destruct st as [st|]; [|by left; simplify_eq].
  destruct (runtimeapi.ContainerStats.Attributes st) as [attrs|]; [|by left; simplify_eq].
  destruct (runtimeapi.ContainerStats.Cpu st) as [cpu|]; [|by left; simplify_eq].
  destruct (CpuUsage.UsageCoreNanoSeconds cpu) as [newValue|]; [|by left; simplify_eq].
  assert (Hins : forall rate,
    <[ContainerAttributes.Id attrs := Some (mkRecord (Some cpu) rate)]> cache !! k = Some v ->
    cache !! k = Some v \/ wellFormed v).
  { intros rate. rewrite lookup_insert. case_decide; [|by left].
    intros [= <-]. right. by eexists _, _. }
  destruct (cache !! ContainerAttributes.Id attrs) as [[[[cachedStats|] ?]|]|];
    simpl in Hu; try done; [|simplify_eq; by eapply Hins].
  destruct (CpuUsage.UsageCoreNanoSeconds cachedStats) as [cachedValue|];
    [|simplify_eq; by eapply Hins].
  repeat case_decide; simplify_eq; first [by left | by eapply Hins].
Qed.

Lemma update_well_formed st (cache : cpuUsageCache) :
  map_Forall (fun _ v => wellFormed v) cache ->
  exists r cache', update st cache = Done (r, cache')
                   /\ map_Forall (fun _ v => wellFormed v) cache'.
Proof.
  intros Hwf.
  assert (Hdone : exists r cache', update st cache = Done (r, cache')).
  { unfold getAndUpdateContainerUsageNanoCores.
    destruct st as [st|]; [|by eexists _, _].
    destruct (runtimeapi.ContainerStats.Attributes st) as [attrs|]; [|by eexists _, _].
    destruct (runtimeapi.ContainerStats.Cpu st) as [cpu|]; [|by eexists _, _].
    destruct (CpuUsage.UsageCoreNanoSeconds cpu) as [newValue|]; [|by eexists _, _].
    destruct (cache !! ContainerAttributes.Id attrs) as [v|] eqn:Hk; [|by eexists _, _].
    destruct (Hwf _ _ Hk) as (r & s & -> & Hs). simpl. rewrite Hs. simpl.
    destruct (CpuUsage.UsageCoreNanoSeconds s); [|by eexists _, _].
    repeat case_decide; by eexists _, _. }
  destruct Hdone as (r & cache' & Hu). exists r, cache'. split; [done|].
  intros k v Hk. destruct (update_inserts_well_formed _ _ _ _ _ _ Hu Hk); [|done].
  by eapply Hwf.
Qed.

Lemma read_well_formed st (cache : cpuUsageCache) :
  map_Forall (fun _ v => wellFormed v) cache ->
  exists r, getContainerUsageNanoCores st cache = Done r.
Proof.
  intros Hwf. unfold getContainerUsageNanoCores.
  destruct st as [st|]; [|by eexists].
  destruct (runtimeapi.ContainerStats.Attributes st) as [attrs|]; [|by eexists].
  destruct (cache !! ContainerAttributes.Id attrs) as [v|] eqn:Hk; [|by eexists].
  destruct (Hwf _ _ Hk) as (r & s & -> & Hs). by eexists.
Qed.

Lemma sweep_well_formed now (cache : cpuUsageCache) :
  map_Forall (fun _ v => wellFormed v) cache ->
  exists cache', sweep now cache = Done cache'
                 /\ map_Forall (fun _ v => wellFormed v) cache'.
Proof.
  intros Hwf. eexists. split.
  - apply sweep_filter. intros k v Hk. by eapply wellFormed_not_malformed, Hwf.
  - intros k v [Hk _]%map_lookup_filter_Some. by eapply Hwf.
Qed.

Lemma runOp_well_formed op (cache : cpuUsageCache) :
  map_Forall (fun _ v => wellFormed v) cache ->
  exists cache', runOp unrepresentable map_range cache op = Done cache'
                 /\ map_Forall (fun _ v => wellFormed v) cache'.
Proof.
  intros Hwf. destruct op as [st|st|now]; simpl.
  - destruct (update_well_formed st cache Hwf) as (r & cache' & -> & Hwf'). by eexists.
  - destruct (read_well_formed st cache Hwf) as (r & ->). by eexists.
  - by apply sweep_well_formed.
Qed.

(** *** The claims about the rate cache *)

(** C2, as the code has it. For a stat record that has its attributes,
    its CPU sample and the sample's cumulative counter, in update mode: when
    the cache has no entry for the container, or the cached cumulative
    counter is greater than the new one, the entry is replaced by the
    new raw sample with no rate, and no rate is returned; when the counter
    did not go down but the [int64] difference of the two timestamps is
    not strictly positive, no rate is returned and the cache is left as
    it was. *)
Theorem update_failure_cache st attrs cpu newValue (cache : cpuUsageCache) :
  runtimeapi.ContainerStats.Attributes st = Some attrs ->
  runtimeapi.ContainerStats.Cpu st = Some cpu ->
  CpuUsage.UsageCoreNanoSeconds cpu = Some newValue ->
  (cache !! ContainerAttributes.Id attrs = None ->
   getAndUpdateContainerUsageNanoCores unrepresentable (Some st) cache =
     Done (None, <[ContainerAttributes.Id attrs := Some (mkRecord (Some cpu) None)]> cache))
  /\ (forall cached cachedStats cachedValue,
        cache !! ContainerAttributes.Id attrs = Some (Some cached) ->
        stats cached = Some cachedStats ->
        CpuUsage.UsageCoreNanoSeconds cachedStats = Some cachedValue ->
        (UInt64Value.Value newValue < UInt64Value.Value cachedValue ->
         getAndUpdateContainerUsageNanoCores unrepresentable (Some st) cache =
           Done (None,
                 <[ContainerAttributes.Id attrs := Some (mkRecord (Some cpu) None)]> cache))
        /\ (UInt64Value.Value cachedValue <= UInt64Value.Value newValue ->
            wrap_i64 (CpuUsage.Timestamp cpu - CpuUsage.Timestamp cachedStats) <= 0 ->
            getAndUpdateContainerUsageNanoCores unrepresentable (Some st) cache = Done (None, cache))).
Proof.
  intros Ha Hc Hv. split.
  - intros Hk. exact (update_first_sample _ _ _ _ _ Ha Hc Hv Hk).
  - intros cached cachedStats cachedValue Hk Hs Hn. split.
    + intros Hlt.
      exact (update_regression _ _ _ _ _ _ _ _ Ha Hc Hv Hk Hs Hn Hlt).
    + intros Hle Hdt.
      exact (update_no_interval _ _ _ _ _ _ _ _ Ha Hc Hv Hk Hs Hn Hle Hdt).
Qed.

(** C3. When the new cumulative counter is strictly less than the cached
    one, the update returns no rate and the cache entry becomes the new
    raw sample with no rate. *)
Theorem counter_regression_no_rate st attrs cpu newValue (cache : cpuUsageCache)
    cached cachedStats cachedValue :
  runtimeapi.ContainerStats.Attributes st = Some attrs ->
  runtimeapi.ContainerStats.Cpu st = Some cpu ->
  CpuUsage.UsageCoreNanoSeconds cpu = Some newValue ->
  cache !! ContainerAttributes.Id attrs = Some (Some cached) ->
  stats cached = Some cachedStats ->
  CpuUsage.UsageCoreNanoSeconds cachedStats = Some cachedValue ->
  UInt64Value.Value newValue < UInt64Value.Value cachedValue ->
  getAndUpdateContainerUsageNanoCores unrepresentable (Some st) cache =
    Done (None, <[ContainerAttributes.Id attrs := Some (mkRecord (Some cpu) None)]> cache).
Proof. apply update_regression. Qed.

(** C7, as the code has it. On a cache none of whose records lacks its
    sample, the sweep returns, and in the cache it leaves: an entry whose
    sample is more than 10 minutes older than [now] is gone; an entry
    bound to the nil record is gone, whatever its age; every other entry
    is there unchanged; and nothing was added. *)
Theorem sweep_evicts now (cache : cpuUsageCache) :
  map_Forall (fun _ v => ~ malformed v) cache ->
  exists cache',
    cleanupOutdatedCaches map_range now cache = Done cache'
    /\ (forall k r s, cache !! k = Some (Some r) -> stats r = Some s ->
          now - CpuUsage.Timestamp s > 10 * 60 * 1000000000 -> cache' !! k = None)
    /\ (forall k, cache !! k = Some None -> cache' !! k = None)
    /\ (forall k r s, cache !! k = Some (Some r) -> stats r = Some s ->
          now - CpuUsage.Timestamp s <= 10 * 60 * 1000000000 ->
          cache' !! k = Some (Some r))
    /\ (forall k, cache !! k = None -> cache' !! k = None).
Proof.
  intros Hc. eexists. split; [by apply sweep_filter|]. repeat split.
  - intros k [cs rate] s Hk Hs Hold. simpl in Hs. subst cs.
    apply map_lookup_filter_None. right. intros v Hv. simpl.
    assert (v = Some (mkRecord (Some s) rate)) as -> by congruence. simpl.
    rewrite bool_decide_eq_false_2 by lia. done.
  - intros k Hk. apply map_lookup_filter_None. right. intros v Hv. simpl.
    assert (v = None) as -> by congruence. done.
  - intros k [cs rate] s Hk Hs Hnew. simpl in Hs. subst cs.
    apply map_lookup_filter_Some. split; [done|]. simpl.
    by rewrite bool_decide_eq_true_2 by lia.
  - intros k Hk. apply map_lookup_filter_None. by left.
Qed.

(** C10. A record that the update puts into the cache is a record with
    its sample; so on a cache that only the provider's own operations
    have touched since [newCRIStatsProvider] made it, no update, read
    or sweep faults, and every entry is a record with its sample. *)
Theorem cache_entries_well_formed :
  (forall st (cache cache' : cpuUsageCache) r k v,
     getAndUpdateContainerUsageNanoCores unrepresentable st cache = Done (r, cache') ->
     cache' !! k = Some v ->
     cache !! k = Some v \/ wellFormed v)
  /\ (forall ops, exists cache,
        runOps unrepresentable map_range ops = Done cache
        /\ map_Forall (fun _ v => wellFormed v) cache).
Proof.
  split; [exact update_inserts_well_formed|].
  intros ops. unfold runOps.
  assert (Hgen : forall c : cpuUsageCache, map_Forall (fun _ v => wellFormed v) c ->
    exists cache,
      foldl (fun acc op => c ← acc; runOp unrepresentable map_range c op) (Done c) ops
      = Done cache /\ map_Forall (fun _ v => wellFormed v) cache).
  { induction ops as [|op ops IH]; intros c Hc; [by exists c|].
    simpl. destruct (runOp_well_formed op c Hc) as (c' & -> & Hc'). by apply IH. }
  apply Hgen. apply map_Forall_empty.
Qed.

(** C4, as the code has it. For a container with a cache entry whose
    cumulative counter increased by [dns] nanoseconds over [dt]
    nanoseconds, both positive and below [2^53], and at a rate
    [dns * 10^9 / dt] below [2^50] nanocores: the update returns a rate
    that differs from the integer quotient [dns * 10^9 / dt] by at most
    1, and caches that rate with the new sample. *)
Theorem rate_of_increase st attrs cpu newValue (cache : cpuUsageCache)
    cached cachedStats cachedValue :
  runtimeapi.ContainerStats.Attributes st = Some attrs ->
  runtimeapi.ContainerStats.Cpu st = Some cpu ->
  CpuUsage.UsageCoreNanoSeconds cpu = Some newValue ->
  cache !! ContainerAttributes.Id attrs = Some (Some cached) ->
  stats cached = Some cachedStats ->
  CpuUsage.UsageCoreNanoSeconds cachedStats = Some cachedValue ->
  let dns := UInt64Value.Value newValue - UInt64Value.Value cachedValue in
  let dt := CpuUsage.Timestamp cpu - CpuUsage.Timestamp cachedStats in
  0 < dns < 2 ^ 53 ->
  0 < dt < 2 ^ 53 ->
  dns * 1000000000 < 2 ^ 50 * dt ->
  exists rate,
    getAndUpdateContainerUsageNanoCores unrepresentable (Some st) cache
    = Done (Some rate,
            <[ContainerAttributes.Id attrs := Some (mkRecord (Some cpu) (Some rate))]> cache)
    /\ Z.abs (rate - dns * 1000000000 / dt) <= 1.
Proof.
  intros Ha Hc Hv Hk Hs Hn dns dt Hdns Hdt Hrate.
  assert (Hwrap : wrap_i64 dt = dt).
  { unfold wrap_i64, two64. rewrite Z.mod_small; lia. }
  eexists. split.
  - rewrite (update_rate st attrs cpu newValue cache cached cachedStats cachedValue
               Ha Hc Hv Hk Hs Hn); [reflexivity|fold dns; lia|fold dt; lia].
  - fold dt. rewrite Hwrap. by apply computeUsageNanoCores_close.
Qed.

End CacheFacts.

(** C2's witness: a first sample. *)
Lemma update_failure_cache_witness :
  getAndUpdateContainerUsageNanoCores zeroConversion (Some (cpuSample "c" 10 7)) ∅
  = Done (None, <["c" := recordOf 10 7 None]> ∅).
Proof.
  exact (proj1 (update_failure_cache zeroConversion (cpuSample "c" 10 7) _ _ _ ∅
                  eq_refl eq_refl eq_refl) eq_refl).
Defined.

(** The claim C2 fails when the interval is not positive: the sample
    [(10, 7)] after the cached [(10, 5)] yields no rate, and the entry
    is still the old sample, not the new one. *)
Lemma zero_interval_keeps_cache :
  getAndUpdateContainerUsageNanoCores zeroConversion (Some (cpuSample "c" 10 7))
    (<["c" := recordOf 10 5 None]> ∅)
  = Done (None, <["c" := recordOf 10 5 None]> ∅)
  /\ (<["c" := recordOf 10 5 None]> ∅ : cpuUsageCache) !! "c" <> Some (recordOf 10 7 None).
Proof. split; [by vm_compute|]. by vm_compute. Qed.

(** C3's witness: the counter falls from 5 to 3. *)
Lemma counter_regression_no_rate_witness :
  getAndUpdateContainerUsageNanoCores zeroConversion (Some (cpuSample "c" 20 3))
    (<["c" := recordOf 10 5 (Some 1)]> ∅)
  = Done (None, <["c" := recordOf 20 3 None]> (<["c" := recordOf 10 5 (Some 1)]> ∅)).
Proof.
  refine (counter_regression_no_rate zeroConversion (cpuSample "c" 20 3) _ _ _
            (<["c" := recordOf 10 5 (Some 1)]> ∅) _ _ _
            eq_refl eq_refl eq_refl eq_refl eq_refl eq_refl _).
  simpl. lia.
Defined.

Lemma rangeInOrder_perm (A : Type) (l : list A) : rangeInOrder A l ≡ₚ l.
Proof. reflexivity. Defined.

(** C7's witness: at 11 minutes, the sample of minute 0 is swept, the
    nil record is swept, the sample of minute 5 stays. *)
Lemma sweep_evicts_witness :
  exists cache',
    cleanupOutdatedCaches rangeInOrder 660000000000 threeEntries = Done cache'
    /\ cache' !! "old" = None /\ cache' !! "nil" = None
    /\ cache' !! "new" = Some (recordOf 300000000000 1 None).
Proof.
  assert (Hok : map_Forall (fun (_ : string) v => ~ malformed v) threeEntries).
  { intros k v Hk (r & -> & Hr). unfold threeEntries in Hk.
    rewrite !lookup_insert, lookup_empty in Hk. unfold recordOf in Hk.
    repeat case_decide; simplify_eq; simpl in Hr; discriminate Hr. }
  destruct (sweep_evicts rangeInOrder rangeInOrder_perm 660000000000 _ Hok)
    as (cache' & Hs & Hold & Hnil & Hnew & _).
  exists cache'. split; [exact Hs|]. split; [|split].
  - eapply Hold; [reflexivity|reflexivity|simpl; lia].
  - apply Hnil. reflexivity.
  - eapply Hnew; [reflexivity|reflexivity|simpl; lia].
Defined.

(** The claim C7 fails for a record with nil inner stats: the sweep does
    not remove it, it faults on it. *)
Lemma sweep_faults_on_nil_stats :
  cleanupOutdatedCaches rangeInOrder 660000000000 (<["c" := Some (mkRecord None None)]> ∅)
  = Fault.
Proof. by vm_compute. Qed.

(** C10's witness: two updates, a read and a sweep. *)
Lemma cache_entries_well_formed_witness :
  exists cache,
    runOps zeroConversion rangeInOrder
      [OpUpdate (Some (cpuSample "c" 10 5)); OpUpdate (Some (cpuSample "c" 20 7));
       OpRead (Some (cpuSample "c" 30 9)); OpSweep 660000000000] = Done cache
    /\ map_Forall (fun _ v => wellFormed v) cache.
Proof.
  exact (proj2 (cache_entries_well_formed zeroConversion rangeInOrder rangeInOrder_perm) _).
Defined.

(** ** The dedup filters *)

Lemma groupBy_snoc {K A : Type} `{Countable K} (key : A -> K) (l : list A) (a : A) :
  groupBy key (l ++ [a])
  = <[key a := default [] (groupBy key l !! key a) ++ [a]]> (groupBy key l).
Proof. unfold groupBy. by rewrite foldl_snoc. Qed.

(** The group of a key is the sublist of the entries with that key, in
    the order of the list; a key without entries has no group. *)
Lemma groupBy_lookup {K A : Type} `{Countable K} (key : A -> K) (l : list A) (k : K) :
  groupBy key l !! k
  = match filter (fun a => key a = k) l with
    | [] => None
    | g => Some g
    end.
Proof.
  induction l as [|a l IH] using rev_ind; [done|].
  rewrite groupBy_snoc, filter_app, lookup_insert.
  destruct (decide (key a = k)) as [Heq|Hne].
  - subst k. rewrite IH, filter_cons_True by done. rewrite filter_nil.
    by destruct (filter (fun a0 => key a0 = key a) l).
  - rewrite filter_cons_False by done. rewrite filter_nil, app_nil_r. exact IH.
Qed.

Lemma groupBy_entry {K A : Type} `{Countable K} (key : A -> K) (l : list A) k g :
  groupBy key l !! k = Some g -> g = filter (fun a => key a = k) l /\ g <> [].
Proof.
  rewrite groupBy_lookup.
  destruct (filter (fun a => key a = k) l) as [|b g'] eqn:Hg; [done|].
  by intros [= <-].
Qed.

Lemma appendReady_spec (refs result : list PodSandbox.t) (found : bool) :
  foldl (fun acc r =>
           if decide (PodSandbox.State r = SANDBOX_READY)
           then (true, acc.2 ++ [r]) else acc)
        (found, result) refs
  = (found || bool_decide (filter (fun r => PodSandbox.State r = SANDBOX_READY) refs <> []),
     result ++ filter (fun r => PodSandbox.State r = SANDBOX_READY) refs).
Proof.
  revert result found. induction refs as [|r refs IH]; intros result found; simpl.
  - by rewrite orb_false_r, app_nil_r.
  - destruct (decide (PodSandbox.State r = SANDBOX_READY)) as [Hr|Hr].
    + rewrite IH, filter_cons_True by done. simpl.
      rewrite orb_true_r, <- app_assoc. done.
    + rewrite IH, filter_cons_False by done. done.
Qed.

(** The body of the loop appends what the group contributes; it does
    not fault on a group that is not empty. *)
Lemma keepPods_spec (result refs : list PodSandbox.t) :
  refs <> [] -> keepPods result refs = Done (result ++ keptOfGroup refs).
Proof.
  intros Hne. unfold keepPods, appendReady, index.
  destruct refs as [|r [|r' refs]]; [done|done|].
  rewrite decide_False by (simpl; lia).
  rewrite appendReady_spec. cbn [fst snd orb]. unfold keptOfGroup.
  destruct (filter _ (r :: r' :: refs)) as [|b ready] eqn:Hf.
  - rewrite bool_decide_eq_false_2 by (intros Hx; by apply Hx).
    rewrite app_nil_r.
    replace (length (r :: r' :: refs) - 1)%nat with (pred (length (r :: r' :: refs)))
      by (simpl; lia).
    rewrite <- last_lookup.
    destruct (last (r :: r' :: refs)) as [x|] eqn:Hl; [done|].
    by apply last_None in Hl.
  - by rewrite bool_decide_eq_true_2.
Qed.

Lemma keepPods_fold (groups : list (PodReference.t * list PodSandbox.t))
    (result : list PodSandbox.t) :
  Forall (fun kv => kv.2 <> []) groups ->
  foldl (fun acc kv => result ← acc; keepPods result kv.2) (Done result) groups
  = Done (result ++ concat ((fun kv => keptOfGroup kv.2) <$> groups)).
Proof.
  intros Hg. revert result. induction Hg as [|kv groups Hkv _ IH]; intros result; simpl.
  - by rewrite app_nil_r.
  - rewrite (keepPods_spec _ _ Hkv). simpl. rewrite IH, <- app_assoc. done.
Qed.

Lemma keepContainers_spec (refs result : list Container.t) :
  keepContainers result refs
  = result ++ filter (fun r => Container.State r = CONTAINER_RUNNING) refs.
Proof.
  unfold keepContainers. revert result.
  induction refs as [|r refs IH]; intros result; simpl.
  - by rewrite app_nil_r.
  - destruct (decide (Container.State r = CONTAINER_RUNNING)) as [Hr|Hr].
    + rewrite IH, filter_cons_True by done. by rewrite <- app_assoc.
    + rewrite IH, filter_cons_False by done. done.
Qed.

Lemma keepContainers_fold {K : Type} (groups : list (K * list Container.t))
    (result : list Container.t) :
  foldl (fun result kv => keepContainers result kv.2) result groups
  = result ++ concat ((fun kv =>
      filter (fun r => Container.State r = CONTAINER_RUNNING) kv.2) <$> groups).
Proof.
  revert result. induction groups as [|kv groups IH]; intros result; simpl.
  - by rewrite app_nil_r.
  - rewrite IH, keepContainers_spec, <- app_assoc. done.
Qed.

(** Selecting from every group of a grouping and keeping the entries of
    one key gives what was selected from that key's group. *)
Lemma filter_concat_groups {K A : Type} `{EqDecision K} (key : A -> K)
    (sel : list A -> list A) (groups : list (K * list A)) (k : K) :
  NoDup groups.*1 ->
  (forall k' g, (k', g) ∈ groups -> Forall (fun a => key a = k') (sel g)) ->
  filter (fun a => key a = k) (concat ((fun kv => sel kv.2) <$> groups))
  = match list_find (fun kv => kv.1 = k) groups with
    | Some (_, kv) => sel kv.2
    | None => []
    end.
Proof.
  induction groups as [|[k' g] groups IH]; intros Hnd Hkeys; [done|].
  apply NoDup_cons in Hnd as [Hk' Hnd].
  assert (Hsel : Forall (fun a => key a = k') (sel g)) by (apply Hkeys; left).
  specialize (IH Hnd (fun k'' g'' Hin => Hkeys k'' g'' (list_elem_of_further _ _ _ Hin))).
  cbn [fmap list_fmap concat]. rewrite filter_app, IH. cbn [list_find].
  simpl. destruct (decide (k' = k)) as [->|Hne]; simpl.
  - assert (Hnone : list_find (fun kv : K * list A => kv.1 = k) groups = None).
    { apply list_find_None, Forall_forall. intros [k'' g''] Hin Heq. simpl in Heq.
      apply Hk'. rewrite <- Heq. apply list_elem_of_fmap. by exists (k'', g''). }
    rewrite Hnone, app_nil_r.
    clear -Hsel. induction Hsel as [|a l Ha _ IHl]; [done|].
    rewrite filter_cons_True by done. by rewrite IHl.
  - assert (Hnil : filter (fun a => key a = k) (sel g) = []).
    { clear -Hsel Hne. induction Hsel as [|a l Ha _ IHl]; [done|].
      rewrite filter_cons_False; [done|]. congruence. }
    rewrite Hnil. simpl.
    destruct (list_find (fun kv : K * list A => kv.1 = k) groups) as [[i kv]|]; done.
Qed.

Lemma list_find_groups {K A : Type} `{Countable K}
    (m : gmap K (list A)) (groups : list (K * list A)) (k : K) :
  groups ≡ₚ map_to_list m ->
  snd <$> list_find (fun kv => kv.1 = k) groups = (fun g => (k, g)) <$> m !! k.
Proof.
  intros Hp.
  destruct (list_find (fun kv => kv.1 = k) groups) as [[i [k' g]]|] eqn:Hf; simpl.
  - apply list_find_Some in Hf as (Hi & Hk & _). simpl in Hk. subst k'.
    assert (Hin : (k, g) ∈ map_to_list m).
    { rewrite <- Hp. by eapply list_elem_of_lookup_2. }
    apply elem_of_map_to_list in Hin. by rewrite Hin.
  - destruct (m !! k) as [g|] eqn:Hk; [|done]. exfalso.
    apply elem_of_map_to_list in Hk. rewrite <- Hp in Hk.
    eapply list_find_None in Hf. rewrite Forall_forall in Hf. by apply (Hf _ Hk).
Qed.

Lemma keptOfGroup_subseteq (refs : list PodSandbox.t) x :
  x ∈ keptOfGroup refs -> x ∈ refs.
Proof.
  unfold keptOfGroup. destruct refs as [|r [|r' refs]]; [done|done|].
  destruct (filter _ (r :: r' :: refs)) as [|b ready] eqn:Hf.
  - destruct (last (r :: r' :: refs)) as [y|] eqn:Hl; simpl; [|by intros ?%elem_of_nil].
    intros ->%list_elem_of_singleton. by apply last_Some_elem_of.
  - rewrite <- Hf. by intros [_ ?]%list_elem_of_filter.
Qed.

Lemma StronglySorted_filter {A : Type} (R : relation A) (P : A -> Prop)
    `{forall x, Decision (P x)} (l : list A) :
  StronglySorted R l -> StronglySorted R (filter P l).
Proof.
  induction 1 as [|x l _ IH Hx]; [constructor|].
  destruct (decide (P x)).
  - rewrite filter_cons_True by done. constructor; [done|].
    apply Forall_forall. intros y [_ Hy]%list_elem_of_filter.
    rewrite Forall_forall in Hx. by apply Hx.
  - by rewrite filter_cons_False.
Qed.

(** In a list sorted by a key, the last entry has the greatest key. *)
Lemma StronglySorted_last {A : Type} (key : A -> Z) (l : list A) (p : A) :
  StronglySorted (fun a b => key a <= key b) l ->
  last l = Some p ->
  Forall (fun q => key q <= key p) l.
Proof.
  intros Hs [l' ->]%last_Some. apply Forall_app. split.
  - apply Forall_forall. intros q Hq.
    eapply (StronglySorted_app_1_elem_of _ _ _ _ _ Hs Hq). by left.
  - constructor; [lia|constructor].
Qed.

(** The grouping key of [removeTerminatedPods] is the name and the
    namespace that the nil-tolerant getters give, and nothing else. *)
Lemma podRefID_key (p : PodSandbox.t) (name namespace : string) :
  podRefID p = PodReference.mk name "" namespace
  <-> PodSandbox.GetName p = name /\ PodSandbox.GetNamespace p = namespace.
Proof.
  unfold podRefID. split.
  - by intros [= -> ->].
  - by intros [-> ->].
Qed.

Lemma filter_name_namespace (l : list PodSandbox.t) (name namespace : string) :
  filter (fun p => PodSandbox.GetName p = name /\ PodSandbox.GetNamespace p = namespace) l
  = filter (fun p => podRefID p = PodReference.mk name "" namespace) l.
Proof. apply list_filter_iff. intros p. symmetry. apply podRefID_key. Qed.

Section DedupFacts.

Context {T : ExternalTypes} {H : Helpers T}.
Variable sort_Slice : forall A : Type, (A -> A -> bool) -> list A -> list A.
Variable map_range : forall A : Type, list A -> list A.

Hypothesis map_range_perm : forall (A : Type) (l : list A), map_range A l ≡ₚ l.
Hypothesis sort_Slice_perm :
  forall (A : Type) (less : A -> A -> bool) (l : list A), sort_Slice A less l ≡ₚ l.
Hypothesis sort_Slice_sorted :
  forall (A : Type) (createdAt : A -> Z) (l : list A),
    StronglySorted (fun a b => createdAt a <= createdAt b)
                   (sort_Slice A (createdBefore createdAt) l).

Lemma range_groups {K A : Type} `{Countable K} (key : A -> K) (l : list A) :
  let groups := map_range _ (map_to_list (groupBy key l)) in
  NoDup groups.*1
  /\ (forall k g, (k, g) ∈ groups -> g = filter (fun a => key a = k) l /\ g <> [])
  /\ (forall k, snd <$> list_find (fun kv => kv.1 = k) groups
                = (fun g => (k, g)) <$> groupBy key l !! k).
Proof.
  intros groups. split; [|split].
  - unfold groups. rewrite (map_range_perm _ (map_to_list (groupBy key l))).
    apply NoDup_fst_map_to_list.
  - intros k g Hin. apply groupBy_entry. apply elem_of_map_to_list.
    by rewrite <- (map_range_perm _ (map_to_list (groupBy key l))).
  - intros k. apply list_find_groups, map_range_perm.
Qed.

(** The pod dedup returns, and the entries of a key in its result are
    what that key's group, in sorted order, contributes. *)
Lemma removeTerminatedPods_by_key (pods : list PodSandbox.t) :
  exists kept,
    removeTerminatedPods sort_Slice map_range pods = Done kept
    /\ forall k,
         filter (fun p => podRefID p = k) kept
         = keptOfGroup (filter (fun p => podRefID p = k)
                          (sort_Slice _ (createdBefore PodSandbox.CreatedAt) pods)).
Proof.
  unfold removeTerminatedPods.
  set (sorted := sort_Slice _ (createdBefore PodSandbox.CreatedAt) pods).
  destruct (range_groups podRefID sorted) as (Hnd & Hgroups & Hfind).
  set (groups := map_range _ (map_to_list (groupBy podRefID sorted))) in *.
  eexists. split.
  - apply keepPods_fold, Forall_forall. intros [k g] Hin. by apply Hgroups in Hin as [_ ?].
  - intros k. simpl. rewrite (filter_concat_groups podRefID keptOfGroup groups k Hnd).
    + specialize (Hfind k). rewrite groupBy_lookup in Hfind.
      destruct (list_find (fun kv => kv.1 = k) groups) as [[i [k' g]]|];
        destruct (filter (fun p => podRefID p = k) sorted) as [|b g']; simplify_eq/=; done.
    + intros k' g Hin. apply Hgroups in Hin as [-> _].
      apply Forall_forall. intros x Hx%keptOfGroup_subseteq.
      by apply list_elem_of_filter in Hx as [? _].
Qed.

(** The container dedup keeps, of a key, the running entries of that
    key's group in sorted order. *)
Lemma removeTerminatedContainers_by_key (containers : list Container.t) k :
  filter (fun c => containerRefID c = k)
         (removeTerminatedContainers sort_Slice map_range containers)
  = filter (fun c => Container.State c = CONTAINER_RUNNING)
      (filter (fun c => containerRefID c = k)
         (sort_Slice _ (createdBefore Container.CreatedAt) containers)).
Proof.
  unfold removeTerminatedContainers.
  set (sorted := sort_Slice _ (createdBefore Container.CreatedAt) containers).
  destruct (range_groups containerRefID sorted) as (Hnd & Hgroups & Hfind).
  set (groups := map_range _ (map_to_list (groupBy containerRefID sorted))) in *.
  rewrite keepContainers_fold. simpl.
  rewrite (filter_concat_groups containerRefID
             (filter (fun r => Container.State r = CONTAINER_RUNNING)) groups k Hnd).
  - specialize (Hfind k). rewrite groupBy_lookup in Hfind.
    destruct (list_find (fun kv => kv.1 = k) groups) as [[i [k' g]]|];
      destruct (filter (fun c => containerRefID c = k) sorted) as [|b g']; simplify_eq/=; done.
  - intros k' g Hin. apply Hgroups in Hin as [-> _].
    apply Forall_forall. intros x [_ Hx]%list_elem_of_filter.
    by apply list_elem_of_filter in Hx as [? _].
Qed.

(** C5. The pod dedup returns a list [kept]. For every name and
    namespace, with [group] the sandboxes of the input whose metadata
    give that name and that namespace (the UID plays no part) and
    [keptOfKey] those of [kept]: a group of one is kept; of a group of
    several with a ready member, exactly the ready members are kept; of
    a group of several without a ready member, exactly one member is
    kept, and no member of the group was created after it. *)
Theorem pod_dedup_by_group (pods : list PodSandbox.t) :
  exists kept,
    removeTerminatedPods sort_Slice map_range pods = Done kept
    /\ forall name namespace : string,
         let group :=
           filter (fun p => PodSandbox.GetName p = name
                            /\ PodSandbox.GetNamespace p = namespace) pods in
         let keptOfKey :=
           filter (fun p => PodSandbox.GetName p = name
                            /\ PodSandbox.GetNamespace p = namespace) kept in
         (length group = 1%nat -> keptOfKey = group)
         /\ ((1 < length group)%nat ->
             Exists (fun p => PodSandbox.State p = SANDBOX_READY) group ->
             keptOfKey ≡ₚ filter (fun p => PodSandbox.State p = SANDBOX_READY) group)
         /\ ((1 < length group)%nat ->
             Forall (fun p => PodSandbox.State p <> SANDBOX_READY) group ->
             exists p, keptOfKey = [p] /\ p ∈ group
                       /\ Forall (fun q => PodSandbox.CreatedAt q <= PodSandbox.CreatedAt p)
                                 group).
Proof.
  destruct (removeTerminatedPods_by_key pods) as (kept & Hkept & Hkey).
  exists kept. split; [exact Hkept|]. intros name namespace group keptOfKey.
  unfold keptOfKey, group. rewrite !filter_name_namespace.
  set (k := PodReference.mk name "" namespace).
  rewrite Hkey. clear keptOfKey group Hkey Hkept kept.
  set (group := filter (fun p => podRefID p = k) pods).
  set (sorted := sort_Slice _ (createdBefore PodSandbox.CreatedAt) pods).
  set (gs := filter (fun p => podRefID p = k) sorted).
  assert (Hperm : gs ≡ₚ group).
  { unfold gs, group, sorted. by rewrite sort_Slice_perm. }
  assert (Hsorted : StronglySorted
            (fun a b => PodSandbox.CreatedAt a <= PodSandbox.CreatedAt b) gs).
  { apply StronglySorted_filter, sort_Slice_sorted. }
  split; [|split].
  - intros Hone. destruct group as [|x [|x' group']]; simpl in Hone; try lia.
    apply Permutation_singleton_r in Hperm. by rewrite Hperm.
  - intros Hlen Hready. rewrite <- Hperm in Hlen.
    assert (Hne : filter (fun p => PodSandbox.State p = SANDBOX_READY) gs <> []).
    { apply Exists_exists in Hready as (x & Hx & Hr). rewrite <- Hperm in Hx.
      intros Hnil.
      by apply (filter_nil_not_elem_of
                  (fun p => PodSandbox.State p = SANDBOX_READY) gs x Hnil Hr). }
    rewrite <- Hperm. unfold keptOfGroup.
    destruct gs as [|r [|r' gs']]; simpl in Hlen; try lia.
    by destruct (filter _ (r :: r' :: gs')).
  - intros Hlen Hnone. rewrite <- Hperm in Hlen.
    assert (Hnil : filter (fun p => PodSandbox.State p = SANDBOX_READY) gs = []).
    { apply elem_of_nil_inv. intros x [Hr Hx]%list_elem_of_filter.
      rewrite Hperm in Hx. rewrite Forall_forall in Hnone. by apply (Hnone x). }
    destruct (last gs) as [p|] eqn:Hlast;
      [|apply last_None in Hlast; rewrite Hlast in Hlen; simpl in Hlen; lia].
    exists p. split; [|split].
    + unfold keptOfGroup. destruct gs as [|r [|r' gs']]; simpl in Hlen; try lia.
      by rewrite Hnil, Hlast.
    + rewrite <- Hperm. by apply last_Some_elem_of.
    + rewrite <- Hperm. by apply StronglySorted_last.
Qed.

(** C6. For every key (the pod reference and the container name read
    off the labels), the containers of the key that the container dedup
    keeps are exactly the running containers of the key; a group with
    no running member contributes nothing. *)
Theorem container_dedup_by_group (containers : list Container.t) (k : containerID.t) :
  let group := filter (fun c => containerRefID c = k) containers in
  let keptOfKey :=
    filter (fun c => containerRefID c = k)
           (removeTerminatedContainers sort_Slice map_range containers) in
  keptOfKey ≡ₚ filter (fun c => Container.State c = CONTAINER_RUNNING) group
  /\ (Forall (fun c => Container.State c <> CONTAINER_RUNNING) group -> keptOfKey = []).
Proof.
  intros group keptOfKey. unfold keptOfKey. rewrite removeTerminatedContainers_by_key.
  assert (Hperm :
    filter (fun c => Container.State c = CONTAINER_RUNNING)
      (filter (fun c => containerRefID c = k)
         (sort_Slice _ (createdBefore Container.CreatedAt) containers))
    ≡ₚ filter (fun c => Container.State c = CONTAINER_RUNNING) group).
  { unfold group. by rewrite sort_Slice_perm. }
  split; [exact Hperm|].
  intros Hnone. apply (proj1 (Permutation_nil_r _)). rewrite Hperm.
  apply (proj2 (Permutation_nil_r _)), elem_of_nil_inv. intros x [Hr Hx]%list_elem_of_filter.
  rewrite Forall_forall in Hnone. by apply (Hnone x).
Qed.

End DedupFacts.

Lemma stableSort_perm (A : Type) (less : A -> A -> bool) (l : list A) :
  stableSort A less l ≡ₚ l.
Proof. apply merge_sort_Permutation. Defined.

Lemma stableSort_sorted (A : Type) (createdAt : A -> Z) (l : list A) :
  StronglySorted (fun a b => createdAt a <= createdAt b)
                 (stableSort A (createdBefore createdAt) l).
Proof.
  unfold stableSort.
  assert (Hiff : forall a b, createdBefore createdAt b a = false <-> createdAt a <= createdAt b).
  { intros a b. unfold createdBefore. rewrite bool_decide_eq_false. lia. }
  assert (Hs : StronglySorted (fun a b => createdBefore createdAt b a = false)
            (@merge_sort A (fun a b => createdBefore createdAt b a = false)
               (fun a b => bool_eq_dec (createdBefore createdAt b a) false) l)).
  { apply StronglySorted_merge_sort.
    - intros a b c. rewrite !Hiff. lia.
    - intros a b. rewrite !Hiff. lia. }
  induction Hs as [|a l' _ IH Ha]; constructor; [exact IH|].
  eapply Forall_impl; [exact Ha|]. intros b. apply Hiff.
Defined.

(** C5's witness: the four example sandboxes. *)
Lemma pod_dedup_by_group_witness :
  exists kept,
    removeTerminatedPods stableSort rangeInOrder examplePods = Done kept
    /\ forall name namespace : string,
         let group :=
           filter (fun p => PodSandbox.GetName p = name
                            /\ PodSandbox.GetNamespace p = namespace) examplePods in
         let keptOfKey :=
           filter (fun p => PodSandbox.GetName p = name
                            /\ PodSandbox.GetNamespace p = namespace) kept in
         (length group = 1%nat -> keptOfKey = group)
         /\ ((1 < length group)%nat ->
             Exists (fun p => PodSandbox.State p = SANDBOX_READY) group ->
             keptOfKey ≡ₚ filter (fun p => PodSandbox.State p = SANDBOX_READY) group)
         /\ ((1 < length group)%nat ->
             Forall (fun p => PodSandbox.State p <> SANDBOX_READY) group ->
             exists p, keptOfKey = [p] /\ p ∈ group
                       /\ Forall (fun q => PodSandbox.CreatedAt q <= PodSandbox.CreatedAt p)
                                 group).
Proof.
  exact (pod_dedup_by_group stableSort rangeInOrder rangeInOrder_perm
           stableSort_perm stableSort_sorted examplePods).
Defined.

(** What the pod dedup makes of the example: of [web], whose sandboxes
    are both not ready, the later one; of [db], the ready one. *)
Example pod_dedup_example :
  removeTerminatedPods stableSort rangeInOrder examplePods
  = Done [sandbox "s2" "web" SANDBOX_NOTREADY 20; sandbox "s3" "db" SANDBOX_READY 5].
Proof. by vm_compute. Qed.

(** C6's witness: the four example containers, at the key of [app]. *)
Lemma container_dedup_by_group_witness :
  let k := containerID.mk (PodReference.mk "web" "" "") "app" in
  let group := filter (fun c => containerRefID (H := nullHelpers) c = k) exampleContainers in
  let keptOfKey :=
    filter (fun c => containerRefID (H := nullHelpers) c = k)
           (removeTerminatedContainers (H := nullHelpers) stableSort rangeInOrder
              exampleContainers) in
  keptOfKey ≡ₚ filter (fun c => Container.State c = CONTAINER_RUNNING) group
  /\ (Forall (fun c => Container.State c <> CONTAINER_RUNNING) group -> keptOfKey = []).
Proof.
  exact (container_dedup_by_group (H := nullHelpers) stableSort rangeInOrder
           rangeInOrder_perm stableSort_perm exampleContainers
           (containerID.mk (PodReference.mk "web" "" "") "app")).
Defined.

(** What the container dedup makes of the example: the running [app];
    nothing of [job], whose incarnations have both exited. *)
Example container_dedup_example :
  removeTerminatedContainers (H := nullHelpers) stableSort rangeInOrder exampleContainers
  = [container "c2" "s2" "app" CONTAINER_RUNNING 21].
Proof. by vm_compute. Qed.

(** ** The snapshot pass *)

(** [Hf] says that one of several fetches failed, and none did. *)
Ltac no_failure Hf :=
  repeat (destruct Hf as [Hf|Hf]; [by destruct Hf|]); by destruct Hf.

(** One of several fetches failed: the one that reads [Failed]. *)
Ltac some_failure :=
  solve [ repeat (first [ by eexists | left; by eexists | right ]) ].

Lemma foldl_outcome_skip {S A : Type} (step : S -> A -> outcome S)
    (s0 : outcome S) (l1 l2 : list A) (a : A) :
  (forall s, step s a = Done s) ->
  foldl (fun acc a => s ← acc; step s a) s0 (l1 ++ a :: l2)
  = foldl (fun acc a => s ← acc; step s a) s0 (l1 ++ l2).
Proof.
  intros Hs. rewrite !foldl_app. simpl.
  destruct (foldl _ s0 l1) as [s|]; simpl; [by rewrite Hs|done].
Qed.

Lemma foldl_outcome_invariant {S A : Type} (step : S -> A -> outcome S)
    (P : S -> Prop) (l : list A) (s0 s : S) :
  (forall s a s', P s -> step s a = Done s' -> P s') ->
  P s0 ->
  foldl (fun acc a => s ← acc; step s a) (Done s0) l = Done s ->
  P s.
Proof.
  intros Hstep. revert s0. induction l as [|a l IH]; intros s0 Hs0; simpl.
  - by intros [= <-].
  - destruct (step s0 a) as [s1|] eqn:Ha; [|by rewrite foldl_Fault].
    apply IH. by eapply Hstep.
Qed.

Section PassFacts.

Context {T : ExternalTypes} {H : Helpers T}.
Variable unrepresentable : spec_float -> Z.
Variable sort_Slice : forall A : Type, (A -> A -> bool) -> list A -> list A.
Variable map_range : forall A : Type, list A -> list A.

Hypothesis map_range_perm : forall (A : Type) (l : list A), map_range A l ≡ₚ l.
Hypothesis sort_Slice_perm :
  forall (A : Type) (less : A -> A -> bool) (l : list A), sort_Slice A less l ≡ₚ l.

(** The loop of either pass leaves the state as it is on a record it
    cannot place. *)
Lemma listPodStatsStep_skip u containerMap podSandboxMap allInfos caInfos
    containerNetworkStats update now state st :
  unresolved containerMap podSandboxMap st ->
  listPodStatsStep unrepresentable u containerMap podSandboxMap allInfos caInfos
    containerNetworkStats update now state st = Done state.
Proof.
  intros (attrs & Ha & Hm). unfold listPodStatsStep. rewrite Ha. simpl.
  destruct (containerMap !! ContainerAttributes.Id attrs); [by rewrite Hm|done].
Qed.

Lemma listPodCPUAndMemoryStatsStep_skip containerMap podSandboxMap allInfos caInfos
    now state st :
  unresolved containerMap podSandboxMap st ->
  listPodCPUAndMemoryStatsStep containerMap podSandboxMap allInfos caInfos
    now state st = Done state.
Proof.
  intros (attrs & Ha & Hm). unfold listPodCPUAndMemoryStatsStep. rewrite Ha. simpl.
  destruct (containerMap !! ContainerAttributes.Id attrs); [by rewrite Hm|done].
Qed.

(** Without the update of the rate, the stat mergers leave the cache. *)
Lemma makeCPUStats_read st now (cache cache' : cpuUsageCache) cpu :
  makeCPUStats readRate st now cache = Done (cpu, cache') -> cache' = cache.
Proof.
  unfold makeCPUStats, readRate. intros Hm.
  destruct (runtimeapi.ContainerStats.Cpu st) as [c|]; [|by simplify_eq].
  destruct (getContainerUsageNanoCores (Some st) cache) as [usage|]; [|done].
  simpl in Hm. by simplify_eq.
Qed.

Lemma makeContainerStats_read u st container fsTable infos now
    (cache cache' : cpuUsageCache) cs fsTable' :
  makeContainerStats unrepresentable u st container fsTable false infos now cache
  = Done (cs, fsTable', cache') ->
  cache' = cache.
Proof.
  unfold makeContainerStats. intros Hm.
  destruct (deref (runtimeapi.ContainerStats.Attributes st)) as [attrs|]; [|done].
  simpl in Hm. destruct (deref (ContainerAttributes.Metadata attrs)) as [meta|]; [|done].
  simpl in Hm.
  destruct (makeCPUStats readRate st now cache) as [[cpu c1]|] eqn:Hcpu; [|done].
  apply makeCPUStats_read in Hcpu as ->. simpl in Hm. by simplify_eq.
Qed.

Lemma makeContainerCPUAndMemoryStats_read st container infos now
    (cache cache' : cpuUsageCache) cs :
  makeContainerCPUAndMemoryStats st container infos now cache = Done (cs, cache') ->
  cache' = cache.
Proof.
  unfold makeContainerCPUAndMemoryStats. intros Hm.
  destruct (deref (runtimeapi.ContainerStats.Attributes st)) as [attrs|]; [|done].
  simpl in Hm. destruct (deref (ContainerAttributes.Metadata attrs)) as [meta|]; [|done].
  simpl in Hm.
  destruct (makeCPUStats readRate st now cache) as [[cpu c1]|] eqn:Hcpu; [|done].
  apply makeCPUStats_read in Hcpu as ->. simpl in Hm. by simplify_eq.
Qed.

Lemma listPodStatsStep_read u containerMap podSandboxMap allInfos caInfos
    containerNetworkStats now state state' st :
  listPodStatsStep unrepresentable u containerMap podSandboxMap allInfos caInfos
    containerNetworkStats false now state st = Done state' ->
  cpuCache state' = cpuCache state.
Proof.
  unfold listPodStatsStep. intros Hs.
  destruct (deref (runtimeapi.ContainerStats.Attributes st)) as [attrs|]; [|done].
  simpl in Hs.
  destruct (containerMap !! ContainerAttributes.Id attrs) as [container|];
    [|by simplify_eq].
  destruct (podSandboxMap !! Container.PodSandboxId container) as [podSandbox|];
    [|by simplify_eq].
  match type of Hs with
  | mbind _ ?m = _ => destruct m as [ps|]; [|done]
  end.
  simpl in Hs.
  destruct (makeContainerStats _ _ _ _ _ _ _ _ _) as [[[cs fsTable] c1]|] eqn:Hcs; [|done].
  apply makeContainerStats_read in Hcs as ->. simpl in Hs.
  destruct (deref (PodSandbox.Metadata podSandbox)) as [meta|]; [|done].
  simpl in Hs. by simplify_eq.
Qed.

Lemma listPodCPUAndMemoryStatsStep_read containerMap podSandboxMap allInfos caInfos
    now state state' st :
  listPodCPUAndMemoryStatsStep containerMap podSandboxMap allInfos caInfos now state st
  = Done state' ->
  cpuCache state' = cpuCache state.
Proof.
  unfold listPodCPUAndMemoryStatsStep. intros Hs.
  destruct (deref (runtimeapi.ContainerStats.Attributes st)) as [attrs|]; [|done].
  simpl in Hs.
  destruct (containerMap !! ContainerAttributes.Id attrs) as [container|];
    [|by simplify_eq].
  destruct (podSandboxMap !! Container.PodSandboxId container) as [podSandbox|];
    [|by simplify_eq].
  match type of Hs with
  | mbind _ ?m = _ => destruct m as [ps|]; [|done]
  end.
  simpl in Hs.
  destruct (makeContainerCPUAndMemoryStats _ _ _ _ _) as [[cs c1]|] eqn:Hcs; [|done].
  apply makeContainerCPUAndMemoryStats_read in Hcs as ->. simpl in Hs.
  destruct (deref (PodSandbox.Metadata podSandbox)) as [meta|]; [|done].
  simpl in Hs. by simplify_eq.
Qed.

Lemma removeTerminatedPods_returns (pods : list PodSandbox.t) :
  exists kept, removeTerminatedPods sort_Slice map_range pods = Done kept.
Proof.
  destruct (removeTerminatedPods_by_key sort_Slice map_range map_range_perm pods)
    as (kept & Hkept & _).
  by exists kept.
Qed.

(** What a pass of [listPodStats] that returns has done to the cache. *)
Lemma listPodStats_read_cache u now (cache cache' : cpuUsageCache) res :
  listPodStats unrepresentable sort_Slice map_range u false now cache = Done (res, cache') ->
  (fetchFailed u /\ cache' = cache)
  \/ (~ fetchFailed u /\ cleanupOutdatedCaches map_range now cache = Done cache').
Proof.
  unfold listPodStats, fetchFailed, failed. intros Hp.
  destruct (Upstream.RootFsInfo u) as [rootFs|e1]; [|left; simplify_eq; split; [some_failure|done]].
  destruct (Upstream.ListContainers u) as [containers|e2];
    [|left; simplify_eq; split; [some_failure|done]].
  destruct (Upstream.ListPodSandbox u) as [items|e3]; [|left; simplify_eq; split; [some_failure|done]].
  destruct (removeTerminatedPods sort_Slice map_range items) as [kept|]; [|done].
  simpl in Hp.
  destruct (Upstream.ListContainerStats u) as [records|e4];
    [|left; simplify_eq; split; [some_failure|done]].
  destruct (Upstream.getCadvisorContainerInfo u) as [allInfos|e5];
    [|left; simplify_eq; split; [some_failure|done]].
  destruct (Upstream.listContainerNetworkStats u) as [net|e6];
    [|left; simplify_eq; split; [some_failure|done]].
  right. split; [intros Hf; no_failure Hf|].
  match type of Hp with
  | mbind _ ?m = _ => destruct m as [state|] eqn:Hloop; [|done]
  end.
  simpl in Hp.
  apply (foldl_outcome_invariant _ (fun s => cpuCache s = cache)) in Hloop; [|..|done].
  - rewrite Hloop in Hp.
    destruct (cleanupOutdatedCaches map_range now cache) as [c|]; [|done].
    simpl in Hp. by simplify_eq.
  - intros s a s' Hs Hstep. apply listPodStatsStep_read in Hstep. congruence.
Qed.

(** C1, as the code has it. A pass of [ListPodStats] that returns has
    neither added nor changed an entry of the rate cache: what the cache
    holds after the pass, it held before. The cache is the same after a
    pass that a failed fetch ended; otherwise it is the cache that the
    pass-end sweep makes of the one before, without its entries of nil
    record and of a sample older than 10 minutes. *)
Theorem ListPodStats_cache_frame u now (cache cache' : cpuUsageCache) res :
  ListPodStats unrepresentable sort_Slice map_range u now cache = Done (res, cache') ->
  (forall k v, cache' !! k = Some v -> cache !! k = Some v)
  /\ (fetchFailed u -> cache' = cache)
  /\ (~ fetchFailed u -> cleanupOutdatedCaches map_range now cache = Done cache').
Proof.
  intros Hp. apply listPodStats_read_cache in Hp as [[Hf ->]|[Hf Hsweep]].
  - by repeat split.
  - repeat split; [|done..].
    intros k v Hk. apply (sweep_done _ map_range_perm) in Hsweep. subst cache'.
    by apply map_lookup_filter_Some in Hk as [? _].
Qed.

Lemma listPodStats_failure u update now (cache : cpuUsageCache) :
  fetchFailed u ->
  exists err, isWrapped err
    /\ listPodStats unrepresentable sort_Slice map_range u update now cache
       = Done (None, Some err, cache).
Proof.
  unfold listPodStats, fetchFailed, failed.
  destruct (Upstream.RootFsInfo u) as [rootFs|e1]; [|by eexists (Errorf _ _)].
  destruct (Upstream.ListContainers u) as [containers|e2]; [|by eexists (Wrap _ _)].
  destruct (Upstream.ListPodSandbox u) as [items|e3]; [|by eexists (Wrap _ _)].
  destruct (removeTerminatedPods_returns items) as [kept ->]. simpl.
  destruct (Upstream.ListContainerStats u) as [records|e4]; [|by eexists (Errorf _ _)].
  destruct (Upstream.getCadvisorContainerInfo u) as [allInfos|e5];
    [|by eexists (Errorf _ _)].
  destruct (Upstream.listContainerNetworkStats u) as [net|e6];
    [|by eexists (Errorf _ _)].
  intros Hf. no_failure Hf.
Qed.

Lemma ListPodCPUAndMemoryStats_failure u now (cache : cpuUsageCache) :
  cpuAndMemoryFetchFailed u ->
  exists err, isWrapped err
    /\ ListPodCPUAndMemoryStats sort_Slice map_range u now cache
       = Done (None, Some err, cache).
Proof.
  unfold ListPodCPUAndMemoryStats, cpuAndMemoryFetchFailed, failed.
  destruct (Upstream.ListContainers u) as [containers|e2]; [|by eexists (Errorf _ _)].
  destruct (Upstream.ListPodSandbox u) as [items|e3]; [|by eexists (Errorf _ _)].
  destruct (removeTerminatedPods_returns items) as [kept ->]. simpl.
  destruct (Upstream.ListContainerStats u) as [records|e4]; [|by eexists (Errorf _ _)].
  destruct (Upstream.getCadvisorContainerInfo u) as [allInfos|e5];
    [|by eexists (Errorf _ _)].
  intros Hf. no_failure Hf.
Qed.

Lemma listPodStats_error_nil u update now (cache cache' : cpuUsageCache) res err :
  listPodStats unrepresentable sort_Slice map_range u update now cache
  = Done (res, Some err, cache') ->
  res = None.
Proof.
  unfold listPodStats.
  destruct (Upstream.RootFsInfo u) as [rootFs|e1]; [|by intros [= <- _ _]].
  destruct (Upstream.ListContainers u) as [containers|e2]; [|by intros [= <- _ _]].
  destruct (Upstream.ListPodSandbox u) as [items|e3]; [|by intros [= <- _ _]].
  destruct (removeTerminatedPods sort_Slice map_range items) as [kept|]; [|done]. simpl.
  destruct (Upstream.ListContainerStats u) as [records|e4]; [|by intros [= <- _ _]].
  destruct (Upstream.getCadvisorContainerInfo u) as [allInfos|e5];
    [|by intros [= <- _ _]].
  destruct (Upstream.listContainerNetworkStats u) as [net|e6]; [|by intros [= <- _ _]].
  intros Hp.
  match type of Hp with
  | mbind _ ?m = _ => destruct m as [state|]; [|done]
  end.
  simpl in Hp.
  destruct (cleanupOutdatedCaches map_range now (cpuCache state)); [|done].
  simpl in Hp. by simplify_eq.
Qed.

Lemma ListPodCPUAndMemoryStats_error_nil u now (cache cache' : cpuUsageCache) res err :
  ListPodCPUAndMemoryStats sort_Slice map_range u now cache
  = Done (res, Some err, cache') ->
  res = None.
Proof.
  unfold ListPodCPUAndMemoryStats.
  destruct (Upstream.ListContainers u) as [containers|e2]; [|by intros [= <- _ _]].
  destruct (Upstream.ListPodSandbox u) as [items|e3]; [|by intros [= <- _ _]].
  destruct (removeTerminatedPods sort_Slice map_range items) as [kept|]; [|done]. simpl.
  destruct (Upstream.ListContainerStats u) as [records|e4]; [|by intros [= <- _ _]].
  destruct (Upstream.getCadvisorContainerInfo u) as [allInfos|e5];
    [|by intros [= <- _ _]].
  intros Hp.
  match type of Hp with
  | mbind _ ?m = _ => destruct m as [state|]; [|done]
  end.
  simpl in Hp.
  destruct (cleanupOutdatedCaches map_range now (cpuCache state)); [|done].
  simpl in Hp. by simplify_eq.
Qed.

(** C8. When a fetch of a pass fails (for [listPodStats]: the root
    filesystem, the containers, the sandboxes, the container stats, the
    accounting subsystem's infos, the network stats; for
    [ListPodCPUAndMemoryStats]: the four listings), the pass returns
    the nil slice and one error that wraps the collaborator's, and
    leaves the cache; and neither pass ever returns a slice that is not
    nil together with an error. *)
Theorem fetch_failure_no_partial_result u update now (cache : cpuUsageCache) :
  (fetchFailed u ->
   exists err, isWrapped err
     /\ listPodStats unrepresentable sort_Slice map_range u update now cache
        = Done (None, Some err, cache))
  /\ (cpuAndMemoryFetchFailed u ->
      exists err, isWrapped err
        /\ ListPodCPUAndMemoryStats sort_Slice map_range u now cache
           = Done (None, Some err, cache))
  /\ (forall res err cache',
        listPodStats unrepresentable sort_Slice map_range u update now cache
        = Done (res, Some err, cache') -> res = None)
  /\ (forall res err cache',
        ListPodCPUAndMemoryStats sort_Slice map_range u now cache
        = Done (res, Some err, cache') -> res = None).
Proof.
  split; [|split; [|split]].
  - apply listPodStats_failure.
  - apply ListPodCPUAndMemoryStats_failure.
  - intros res err cache'. apply listPodStats_error_nil.
  - intros res err cache'. apply ListPodCPUAndMemoryStats_error_nil.
Qed.

(** C9. A stat record that the loop cannot place (its container is not
    in the container map, or its container's sandbox is not in the
    sandbox map) is skipped: with the record anywhere among the stat
    records, either pass returns what it returns without it, be it a
    result, an error or a fault, and leaves the same cache. *)
Theorem unresolved_record_skipped rootFs containers items allInfos net dirFs
    (l1 l2 : list runtimeapi.ContainerStats.t) st kept update now (cache : cpuUsageCache) :
  removeTerminatedPods sort_Slice map_range items = Done kept ->
  unresolved (containerMapOf (removeTerminatedContainers sort_Slice map_range containers))
             (podSandboxMapOf kept) st ->
  let upstream := fun records =>
    Upstream.mk rootFs (Fetched containers) (Fetched items) (Fetched records)
                allInfos net dirFs in
  listPodStats unrepresentable sort_Slice map_range (upstream (l1 ++ st :: l2))
    update now cache
  = listPodStats unrepresentable sort_Slice map_range (upstream (l1 ++ l2))
      update now cache
  /\ ListPodCPUAndMemoryStats sort_Slice map_range (upstream (l1 ++ st :: l2)) now cache
     = ListPodCPUAndMemoryStats sort_Slice map_range (upstream (l1 ++ l2)) now cache.
Proof.
  intros Hkept Hst upstream. unfold listPodStats, ListPodCPUAndMemoryStats. simpl.
  rewrite Hkept. simpl. split.
  - destruct rootFs as [rootFsInfo|e1]; [|done].
    destruct allInfos as [infos|e5]; [|done].
    destruct net as [containerNetworkStats|e6]; [|done].
    rewrite (foldl_outcome_skip
               (fun state st => listPodStatsStep unrepresentable _ _ _ _ _ _ _ _ state st)).
    + done.
    + intros s. by apply listPodStatsStep_skip.
  - destruct allInfos as [infos|e5]; [|done].
    rewrite (foldl_outcome_skip
               (fun state st => listPodCPUAndMemoryStatsStep _ _ _ _ _ state st)).
    + done.
    + intros s. by apply listPodCPUAndMemoryStatsStep_skip.
Qed.

End PassFacts.

(** C1's witness: a pass over the example with no stat records, at
    minute 11, on the cache with a sample of minute 0. *)
Lemma ListPodStats_cache_frame_witness :
  (forall k v, (∅ : cpuUsageCache) !! k = Some v -> staleCache !! k = Some v)
  /\ (fetchFailed (exampleUpstream []) -> ∅ = staleCache)
  /\ (~ fetchFailed (exampleUpstream []) ->
      cleanupOutdatedCaches rangeInOrder 660000000000 staleCache = Done ∅).
Proof.
  refine (ListPodStats_cache_frame (H := nullHelpers) zeroConversion stableSort
            rangeInOrder rangeInOrder_perm (exampleUpstream []) 660000000000
            staleCache ∅ (Some [], None) _).
  by vm_compute.
Defined.

(** The claim C1 fails when the cache holds an old sample: the
    read-only pass over the example, which reports container [c2], ends
    with its sweep and leaves the cache without the entry of [c2]. *)
Lemma ListPodStats_sweeps_cache :
  cacheAfter (ListPodStats (H := nullHelpers) zeroConversion stableSort rangeInOrder
                (exampleUpstream [cpuSample "c2" 10 5]) 660000000000 staleCache)
  = Some ∅
  /\ staleCache !! "c2" = Some (recordOf 0 1 None)
  /\ (∅ : cpuUsageCache) !! "c2" = None.
Proof. split; [by vm_compute|]. split; by vm_compute. Qed.

(** C8's witness: the runtime cannot list its containers. *)
Lemma fetch_failure_no_partial_result_witness :
  exists err, isWrapped err
    /\ listPodStats (H := nullHelpers) zeroConversion stableSort rangeInOrder
         brokenUpstream true 660000000000 staleCache
       = Done (None, Some err, staleCache).
Proof.
  refine (proj1 (fetch_failure_no_partial_result (H := nullHelpers) zeroConversion
                   stableSort rangeInOrder rangeInOrder_perm brokenUpstream true
                   660000000000 staleCache) _).
  right. left. by eexists.
Defined.

(** C9's witness: a stat record of a container [gone] that the runtime
    no longer lists, after a record of [c2]. *)
Lemma unresolved_record_skipped_witness :
  listPodStats (H := nullHelpers) zeroConversion stableSort rangeInOrder
    (exampleUpstream ([cpuSample "c2" 10 5] ++ cpuSample "gone" 10 7 :: []))
    true 20 staleCache
  = listPodStats (H := nullHelpers) zeroConversion stableSort rangeInOrder
      (exampleUpstream ([cpuSample "c2" 10 5] ++ [])) true 20 staleCache
  /\ ListPodCPUAndMemoryStats (H := nullHelpers) stableSort rangeInOrder
       (exampleUpstream ([cpuSample "c2" 10 5] ++ cpuSample "gone" 10 7 :: []))
       20 staleCache
     = ListPodCPUAndMemoryStats (H := nullHelpers) stableSort rangeInOrder
         (exampleUpstream ([cpuSample "c2" 10 5] ++ [])) 20 staleCache.
Proof.
  refine (unresolved_record_skipped (H := nullHelpers) zeroConversion stableSort
            rangeInOrder _ _ _ _ _ _ [cpuSample "c2" 10 5] [] (cpuSample "gone" 10 7)
            _ true 20 staleCache pod_dedup_example _).
  eexists. split; [reflexivity|]. by vm_compute.
Defined.

(** C4's witness: half a second and a nanosecond of CPU time in a
    second. *)
Lemma rate_of_increase_witness :
  exists rate,
    getAndUpdateContainerUsageNanoCores zeroConversion
      (Some (cpuSample "c" 1000000000 500000001)) (<["c" := recordOf 0 0 None]> ∅)
    = Done (Some rate,
            <["c" := recordOf 1000000000 500000001 (Some rate)]>
              (<["c" := recordOf 0 0 None]> ∅))
    /\ Z.abs (rate - (500000001 - 0) * 1000000000 / (1000000000 - 0)) <= 1.
Proof.
  refine (rate_of_increase zeroConversion (cpuSample "c" 1000000000 500000001) _ _ _
            (<["c" := recordOf 0 0 None]> ∅) _ _ _
            eq_refl eq_refl eq_refl eq_refl eq_refl eq_refl _ _ _); simpl; lia.
Defined.

(** The claim C4 fails for a counter that [float64] cannot hold: after
    the cached sample [(0, 0)], the sample of one second later with the
    counter at [2^62 + 1000] gets the rate [2^62 + 1024], which is 24
    away from the quotient. *)
Lemma rate_beyond_float64_precision :
  getAndUpdateContainerUsageNanoCores zeroConversion
    (Some (cpuSample "c" 1000000000 4611686018427388904))
    (<["c" := recordOf 0 0 None]> ∅)
  = Done (Some 4611686018427388928,
          <["c" := recordOf 1000000000 4611686018427388904 (Some 4611686018427388928)]>
            (<["c" := recordOf 0 0 None]> ∅))
  /\ Z.abs (4611686018427388928
            - (4611686018427388904 - 0) * 1000000000 / (1000000000 - 0)) = 24.
Proof. split; by vm_compute. Qed.

(** * Further properties of the provider *)

(** ** Rates over the whole range of the counters

    The conversion of an integer of 54 bits or more to [float64] rounds
    too; with it a rate takes four roundings. *)

(** The conversion of a positive integer below [2^64] is off by a
    relative error of at most [2^-52]. *)
Lemma of_int_error n :
  0 < n < 2 ^ 64 ->
  exists m e,
    F64.of_int n = S754_finite false m e
    /\ 2 ^ 52 <= Z.pos m < 2 ^ 53
    /\ -52 <= e <= 12
    /\ (Rabs (IZR (Z.pos m) * pow2 e - IZR n) * IZR (2 ^ 52) <= IZR n)%R.
Proof.
  intros [Hn0 Hn]. destruct (Z.lt_ge_cases n (2 ^ 53)) as [Hsmall|Hbig].
  - destruct (of_int_exact n) as (m & e & Hf & Hm & He & Hv); [lia|].
    exists m, e. split; [done|]. split; [done|]. split; [lia|].
    rewrite (exact_value m e n) by (lia || done).
    rewrite Rminus_diag, Rabs_R0, Rmult_0_l. apply IZR_le. lia.
  - destruct n as [|p|p]; try lia.
    unfold F64.of_int, F64.prec, F64.emax, binary_normalize, binary_round.
    destruct (Zdigits2_bounds (Z.pos p) Hn0) as [Hl Hu].
    set (d := Zdigits2 (Z.pos p)) in *.
    assert (Hd : 54 <= d <= 64).
    { split.
      - destruct (Z.le_gt_cases 54 d) as [|Hgt]; [done|].
        assert (2 ^ d <= 2 ^ 53) by (apply Z.pow_le_mono_r; lia). lia.
      - destruct (Z.le_gt_cases d 64) as [|Hgt]; [done|].
        assert (2 ^ 64 <= 2 ^ (d - 1)) by (apply Z.pow_le_mono_r; lia). lia. }
    change (Z.pos (digits2_pos p)) with d.
    rewrite Z.add_0_r, fexp_normal by lia. unfold shl_align.
    destruct (d - 53 - 0) as [|k|k] eqn:Hk; try lia.
    destruct (binary_round_aux_error (Z.pos p) 0 loc_Exact d (IZR (Z.pos p)))
      as (m & e & -> & Hm & He & Herr); [lia|done|lia|lia|lia| |].
    + unfold pow2. rewrite powerRZ_O. lra.
    + exists m, e. split; [done|]. split; [done|]. split; [lia|done].
Qed.

(** The quotient of two values, each off by a relative error of at most
    [2^-52]. *)
Lemma quotient_bounds (X Y X' Y' : R) :
  (0 < X)%R -> (0 < Y)%R ->
  (Rabs (X' - X) * IZR (2 ^ 52) <= X)%R ->
  (Rabs (Y' - Y) * IZR (2 ^ 52) <= Y)%R ->
  (0 < X' / Y')%R
  /\ (X / Y * (1 - / IZR (2 ^ 52)) <= X' / Y' * (1 + / IZR (2 ^ 52)))%R
  /\ (X' / Y' * (1 - / IZR (2 ^ 52)) <= X / Y * (1 + / IZR (2 ^ 52)))%R.
Proof.
  change (IZR (2 ^ 52)) with 4503599627370496%R.
  intros HX HY HX'%Rabs_scaled HY'%Rabs_scaled; [|lra..].
  assert (HX'0 : (0 < X')%R) by lra. assert (HY'0 : (0 < Y')%R) by lra.
  set (x := (X / Y)%R). set (x' := (X' / Y')%R).
  assert (Hx : (x * Y = X)%R) by (unfold x; field; lra).
  assert (Hx' : (x' * Y' = X')%R) by (unfold x'; field; lra).
  assert (Hx0 : (0 < x)%R) by (by apply Rdiv_lt_0_compat).
  assert (Hx'0 : (0 < x')%R) by (by apply Rdiv_lt_0_compat).
  split; [done|]. split.
  - apply Rmult_le_reg_r with (Y * 4503599627370496 * 4503599627370496)%R; [nra|].
    assert (H1 : (x' * (Y' * 4503599627370496) <= x' * (Y * 4503599627370497))%R).
    { apply Rmult_le_compat_l; lra. }
    replace (x * (1 - / 4503599627370496) * (Y * 4503599627370496 * 4503599627370496))%R
      with (x * Y * 4503599627370495 * 4503599627370496)%R by field.
    replace (x' * (1 + / 4503599627370496) * (Y * 4503599627370496 * 4503599627370496))%R
      with (x' * (Y * 4503599627370497) * 4503599627370496)%R by field.
    rewrite Hx. apply Rmult_le_compat_r; [lra|].
    apply Rle_trans with (x' * (Y' * 4503599627370496))%R; [|done].
    replace (x' * (Y' * 4503599627370496))%R with (x' * Y' * 4503599627370496)%R by ring.
    rewrite Hx'. lra.
  - apply Rmult_le_reg_r with (Y * 4503599627370496 * 4503599627370496)%R; [nra|].
    assert (H1 : (x' * (Y * 4503599627370495) <= x' * (Y' * 4503599627370496))%R).
    { apply Rmult_le_compat_l; lra. }
    replace (x' * (1 - / 4503599627370496) * (Y * 4503599627370496 * 4503599627370496))%R
      with (x' * (Y * 4503599627370495) * 4503599627370496)%R by field.
    replace (x * (1 + / 4503599627370496) * (Y * 4503599627370496 * 4503599627370496))%R
      with (x * Y * 4503599627370497 * 4503599627370496)%R by field.
    rewrite Hx. apply Rmult_le_compat_r; [lra|].
    apply Rle_trans with (x' * (Y' * 4503599627370496))%R; [done|].
    replace (x' * (Y' * 4503599627370496))%R with (x' * Y' * 4503599627370496)%R by ring.
    rewrite Hx'. lra.
Qed.

(** Four roundings, each of a relative error of at most [2^-52], move a
    rate below [2^49] by less than 1. *)
Lemma four_roundings (X Y X' Y' Q P : R) :
  (0 < X)%R -> (0 < Y)%R -> (X / Y * 1000000000 < IZR (2 ^ 49))%R ->
  (Rabs (X' - X) * IZR (2 ^ 52) <= X)%R ->
  (Rabs (Y' - Y) * IZR (2 ^ 52) <= Y)%R ->
  (Rabs (Q - X' / Y') * IZR (2 ^ 52) <= X' / Y')%R ->
  (Rabs (P - Q * 1000000000) * IZR (2 ^ 52) <= Q * 1000000000)%R ->
  (Rabs (P - X / Y * 1000000000) < 1)%R.
Proof.
  intros HX HY HR HX' HY' HQ HP.
  destruct (quotient_bounds X Y X' Y' HX HY HX' HY') as (Hx'0 & Hlo & Hhi).
  revert HR HQ HP Hlo Hhi.
  change (IZR (2 ^ 52)) with 4503599627370496%R.
  change (IZR (2 ^ 49)) with 562949953421312%R.
  assert (Hx : (0 < X / Y)%R) by (by apply Rdiv_lt_0_compat).
  generalize dependent (X' / Y')%R. generalize dependent (X / Y)%R.
  intros x Hx x' Hx' HR HQ%Rabs_scaled HP%Rabs_scaled Hlo Hhi; [|lra..].
  apply Rabs_def1; lra.
Qed.

(** The rate of the source's lines 685-686 for [uint64] counters and an
    interval of [int64], when it is below [2^49]. *)
Lemma computeUsageNanoCores_close_wide unrepresentable newValue cachedValue nanoSeconds :
  0 <= cachedValue < newValue -> newValue < 2 ^ 64 ->
  0 < nanoSeconds < 2 ^ 63 ->
  (newValue - cachedValue) * 1000000000 < 2 ^ 49 * nanoSeconds ->
  Z.abs (computeUsageNanoCores unrepresentable newValue cachedValue nanoSeconds
         - (newValue - cachedValue) * 1000000000 / nanoSeconds) <= 1.
Proof.
  intros Hvalues Hnew Hdt Hrate. unfold computeUsageNanoCores.
  set (delta := newValue - cachedValue) in *.
  assert (Hdelta : 0 < delta < 2 ^ 64) by (unfold delta; lia).
  assert (Hwrap : wrap_u64 delta = delta).
  { unfold wrap_u64, two64. apply Z.mod_small. lia. }
  rewrite Hwrap. change (Second / Nanosecond) with 1000000000.
  destruct (of_int_error delta Hdelta) as (mx & ex & -> & Hmx & Hex & Hvx).
  destruct (of_int_error nanoSeconds) as (my & ey & -> & Hmy & Hey & Hvy); [lia|].
  destruct (of_int_exact 1000000000) as (mc & ec & -> & Hmc & Hec & Hvc); [lia|].
  destruct (div_error mx ex my ey Hmx Hmy) as (mq & eq & -> & Hmq & Heq & Hq); [lia..|].
  destruct (mul_error mq eq mc ec Hmq Hmc) as (mp & ep & -> & Hmp & Hp); [lia..|].
  apply exact_value in Hvc; [|lia]. rewrite Hvc in Hp.
  set (X := IZR delta) in *. set (Y := IZR nanoSeconds) in *.
  set (X' := (IZR (Z.pos mx) * pow2 ex)%R) in *.
  set (Y' := (IZR (Z.pos my) * pow2 ey)%R) in *.
  set (Q := (IZR (Z.pos mq) * pow2 eq)%R) in *.
  set (P := (IZR (Z.pos mp) * pow2 ep)%R) in *.
  assert (HX : (0 < X)%R) by (apply IZR_lt; lia).
  assert (HY : (0 < Y)%R) by (apply IZR_lt; lia).
  assert (Hexact : (X / Y * 1000000000 = IZR (delta * 1000000000) / Y)%R).
  { rewrite mult_IZR. fold X. field. lra. }
  assert (Hbound : (X / Y * 1000000000 < IZR (2 ^ 49))%R).
  { rewrite Hexact. apply Rmult_lt_reg_r with Y; [done|].
    unfold Rdiv. rewrite Rmult_assoc, Rinv_l, Rmult_1_r by lra.
    unfold Y. rewrite <- mult_IZR. by apply IZR_lt. }
  pose proof (four_roundings X Y X' Y' Q P HX HY Hbound Hvx Hvy Hq Hp) as Herr.
  apply Rabs_def2 in Herr as [Herr1 Herr2].
  destruct (shiftl_floor mp ep) as [Hfl Hfu]. fold P in Hfl, Hfu.
  set (r := Z.shiftl (Z.pos mp) ep) in *.
  set (E := delta * 1000000000 / nanoSeconds).
  destruct (IZR_div_bounds (delta * 1000000000) nanoSeconds) as [Hel Heu]; [lia|].
  fold E Y in Hel, Heu.
  destruct (Rdiv_bounds (IZR E) (IZR (delta * 1000000000)) Y HY (conj Hel Heu))
    as [HEl HEu].
  rewrite <- Hexact in HEl, HEu.
  assert (Hr1 : r < E + 2).
  { apply lt_IZR. rewrite plus_IZR. lra. }
  assert (Hr2 : E - 2 < r).
  { apply lt_IZR. rewrite minus_IZR. lra. }
  assert (Hr0 : 0 <= r) by (apply Z.shiftl_nonneg; lia).
  assert (HE : E < 2 ^ 49).
  { apply lt_IZR. lra. }
  unfold F64.to_uint64, F64.trunc. fold r.
  rewrite decide_True by (unfold two64; lia). lia.
Qed.

(** A counter that did not move gives the rate 0. *)
Lemma computeUsageNanoCores_idle unrepresentable value nanoSeconds :
  0 < nanoSeconds < 2 ^ 63 ->
  computeUsageNanoCores unrepresentable value value nanoSeconds = 0.
Proof.
  intros Hdt. unfold computeUsageNanoCores. rewrite Z.sub_diag.
  destruct (of_int_error nanoSeconds) as (m & e & -> & _); [lia|].
  reflexivity.
Qed.

Lemma wrap_i64_range z : - 2 ^ 63 <= wrap_i64 z < 2 ^ 63.
Proof.
  unfold wrap_i64, two64.
  pose proof (Z.mod_pos_bound (z + 2 ^ 63) (2 ^ 64) ltac:(lia)). lia.
Qed.

Lemma wrap_u64_add_l a b : wrap_u64 (wrap_u64 a + b) = wrap_u64 (a + b).
Proof. unfold wrap_u64. by rewrite Zplus_mod_idemp_l. Qed.

(** [uint64(f)] is a [uint64], whatever Go makes of a float out of range. *)
Lemma to_uint64_range unrepresentable f : is_u64 (F64.to_uint64 unrepresentable f).
Proof.
  unfold F64.to_uint64, is_u64, wrap_u64.
  assert (H64 : 0 < two64) by (unfold two64; lia).
  destruct (F64.trunc f) as [z|]; [destruct (decide (0 <= z < two64))|];
    try done; by apply Z.mod_pos_bound.
Qed.

(** ** The two lookups of the rate cache *)

Section LookupFacts.

Variable unrepresentable : spec_float -> Z.

(** What a returned rate tells about the call. *)
Lemma update_rate_inv st (cache cache' : cpuUsageCache) rate :
  getAndUpdateContainerUsageNanoCores unrepresentable st cache = Done (Some rate, cache') ->
  exists s attrs cpu newValue cached cachedStats cachedValue,
    st = Some s
    /\ runtimeapi.ContainerStats.Attributes s = Some attrs
    /\ runtimeapi.ContainerStats.Cpu s = Some cpu
    /\ CpuUsage.UsageCoreNanoSeconds cpu = Some newValue
    /\ cache !! ContainerAttributes.Id attrs = Some (Some cached)
    /\ stats cached = Some cachedStats
    /\ CpuUsage.UsageCoreNanoSeconds cachedStats = Some cachedValue
    /\ UInt64Value.Value cachedValue <= UInt64Value.Value newValue
    /\ 0 < wrap_i64 (CpuUsage.Timestamp cpu - CpuUsage.Timestamp cachedStats)
    /\ rate = computeUsageNanoCores unrepresentable (UInt64Value.Value newValue)
                (UInt64Value.Value cachedValue)
                (wrap_i64 (CpuUsage.Timestamp cpu - CpuUsage.Timestamp cachedStats))
    /\ cache' = <[ContainerAttributes.Id attrs := Some (mkRecord (Some cpu) (Some rate))]> cache.
Proof.
  unfold getAndUpdateContainerUsageNanoCores.
  destruct st as [s|]; [|done].
  destruct (runtimeapi.ContainerStats.Attributes s) as [attrs|] eqn:Ha; [|done].
  destruct (runtimeapi.ContainerStats.Cpu s) as [cpu|] eqn:Hc; [|done].
  destruct (CpuUsage.UsageCoreNanoSeconds cpu) as [newValue|] eqn:Hn; [|done].
  destruct (cache !! ContainerAttributes.Id attrs) as [[cached|]|] eqn:Hk; [|done..].
  simpl. destruct (stats cached) as [cachedStats|] eqn:Hs; [|done]. simpl.
  destruct (CpuUsage.UsageCoreNanoSeconds cachedStats) as [cachedValue|] eqn:Hv; [|done].
  destruct (decide (UInt64Value.Value newValue < UInt64Value.Value cachedValue)); [done|].
  destruct (decide (wrap_i64 (CpuUsage.Timestamp cpu - CpuUsage.Timestamp cachedStats) <= 0));
    [done|].
  intros [= <- <-].
  exists s, attrs, cpu, newValue, cached, cachedStats, cachedValue.
  repeat split; try done; lia.
Qed.

(** X1. [getAndUpdateContainerUsageNanoCores] returns a rate exactly
    when it has a baseline to compute it from: the record has its
    attributes, CPU sample and counter, the cache has a record of the
    container with a sample and a counter, that counter is not above
    the new one, and the [int64] difference of the two timestamps is
    strictly positive. The rate is then the one of the source's lines
    685-686, and the cache entry becomes the new sample with that rate. *)
Theorem rate_needs_baseline s (cache cache' : cpuUsageCache) rate :
  getAndUpdateContainerUsageNanoCores unrepresentable (Some s) cache
  = Done (Some rate, cache')
  <-> exists attrs cpu newValue cached cachedStats cachedValue,
        runtimeapi.ContainerStats.Attributes s = Some attrs
        /\ runtimeapi.ContainerStats.Cpu s = Some cpu
        /\ CpuUsage.UsageCoreNanoSeconds cpu = Some newValue
        /\ cache !! ContainerAttributes.Id attrs = Some (Some cached)
        /\ stats cached = Some cachedStats
        /\ CpuUsage.UsageCoreNanoSeconds cachedStats = Some cachedValue
        /\ UInt64Value.Value cachedValue <= UInt64Value.Value newValue
        /\ 0 < wrap_i64 (CpuUsage.Timestamp cpu - CpuUsage.Timestamp cachedStats)
        /\ rate = computeUsageNanoCores unrepresentable (UInt64Value.Value newValue)
                    (UInt64Value.Value cachedValue)
                    (wrap_i64 (CpuUsage.Timestamp cpu - CpuUsage.Timestamp cachedStats))
        /\ cache' = <[ContainerAttributes.Id attrs
                      := Some (mkRecord (Some cpu) (Some rate))]> cache.
Proof.
  split.
  - intros Hu. apply update_rate_inv in Hu
      as (s' & attrs & cpu & newValue & cached & cachedStats & cachedValue & [= <-] & Hu).
    by exists attrs, cpu, newValue, cached, cachedStats, cachedValue.
  - intros (attrs & cpu & newValue & cached & cachedStats & cachedValue
            & Ha & Hc & Hn & Hk & Hs & Hv & Hle & Hdt & -> & ->).
    exact (update_rate unrepresentable s attrs cpu newValue cache cached cachedStats
             cachedValue Ha Hc Hn Hk Hs Hv Hle Hdt).
Qed.

(** X2. A rate that [getAndUpdateContainerUsageNanoCores] returns is a
    [uint64] (never negative, also when the float is out of range), and
    [getContainerUsageNanoCores] on the cache it leaves returns that
    rate for the same record. *)
Theorem rate_is_cached_uint64 st (cache cache' : cpuUsageCache) rate :
  getAndUpdateContainerUsageNanoCores unrepresentable st cache = Done (Some rate, cache') ->
  is_u64 rate
  /\ getContainerUsageNanoCores st cache' = Done (Some rate).
Proof.
  intros Hu. apply update_rate_inv in Hu
    as (s & attrs & cpu & newValue & cached & cachedStats & cachedValue
        & -> & Ha & Hc & Hn & Hk & Hs & Hv & Hle & Hdt & -> & ->).
  split.
  - apply to_uint64_range.
  - unfold getContainerUsageNanoCores. by rewrite Ha, lookup_insert_eq.
Qed.

(** X3. The same stat record a second time: after any call of
    [getAndUpdateContainerUsageNanoCores] that returns, the call with the
    same record returns no rate and leaves the cache as the first call
    left it (its interval is zero). *)
Theorem same_sample_again st (cache cache' : cpuUsageCache) r :
  getAndUpdateContainerUsageNanoCores unrepresentable st cache = Done (r, cache') ->
  getAndUpdateContainerUsageNanoCores unrepresentable st cache' = Done (None, cache').
Proof.
  unfold getAndUpdateContainerUsageNanoCores.
  destruct st as [s|]; [|by intros [= <- <-]].
  destruct (runtimeapi.ContainerStats.Attributes s) as [attrs|] eqn:Ha; [|by intros [= <- <-]].
  destruct (runtimeapi.ContainerStats.Cpu s) as [cpu|] eqn:Hc; [|by intros [= <- <-]].
  destruct (CpuUsage.UsageCoreNanoSeconds cpu) as [newValue|] eqn:Hn; [|by intros [= <- <-]].
  set (id := ContainerAttributes.Id attrs).
  assert (Hagain : forall rate,
    let c := <[id := Some (mkRecord (Some cpu) rate)]> cache in
    match c !! id with
    | Some cached =>
      cached ← deref cached; cachedStats ← deref (stats cached);
      match CpuUsage.UsageCoreNanoSeconds cachedStats with
      | Some cachedValue =>
        if decide (UInt64Value.Value newValue < UInt64Value.Value cachedValue)
        then Done (None, <[id := Some (mkRecord (Some cpu) None)]> c)
        else
          if decide (wrap_i64 (CpuUsage.Timestamp cpu - CpuUsage.Timestamp cachedStats) <= 0)
          then Done (None, c)
          else
            let rate := computeUsageNanoCores unrepresentable (UInt64Value.Value newValue)
                          (UInt64Value.Value cachedValue)
                          (wrap_i64 (CpuUsage.Timestamp cpu - CpuUsage.Timestamp cachedStats)) in
            Done (Some rate, <[id := Some (mkRecord (Some cpu) (Some rate))]> c)
      | None => Done (None, <[id := Some (mkRecord (Some cpu) None)]> c)
      end
    | None => Done (None, <[id := Some (mkRecord (Some cpu) None)]> c)
    end = Done (None, c)).
  { intros rate c. unfold c. rewrite lookup_insert_eq. simpl. rewrite Hn.
    rewrite decide_False by lia. rewrite Z.sub_diag.
    change (wrap_i64 0) with 0. by rewrite decide_True by lia. }
  destruct (cache !! id) as [[cached|]|] eqn:Hk; simpl; [|done|].
  - destruct (stats cached) as [cachedStats|] eqn:Hs; [|done]. simpl.
    destruct (CpuUsage.UsageCoreNanoSeconds cachedStats) as [cachedValue|] eqn:Hv.
    + destruct (decide (UInt64Value.Value newValue < UInt64Value.Value cachedValue)).
      { intros [= <- <-]. apply Hagain. }
      destruct (decide (wrap_i64 (CpuUsage.Timestamp cpu - CpuUsage.Timestamp cachedStats) <= 0)).
      * intros [= <- <-]. rewrite Hk. simpl. rewrite Hs. simpl. rewrite Hv.
        by rewrite decide_False, decide_True.
      * intros [= <- <-]. apply Hagain.
    + intros [= <- <-]. apply Hagain.
  - intros [= <- <-]. apply Hagain.
Qed.

(** X4. When the two lookups panic, for a record with attributes.
    [getContainerUsageNanoCores] panics exactly when the cache binds the
    container to the nil record. [getAndUpdateContainerUsageNanoCores]
    panics exactly when the record has a CPU sample with a counter and
    the cache binds the container to the nil record or to a record
    without its sample. *)
Theorem lookup_faults s attrs (cache : cpuUsageCache) :
  runtimeapi.ContainerStats.Attributes s = Some attrs ->
  (getContainerUsageNanoCores (Some s) cache = Fault
   <-> cache !! ContainerAttributes.Id attrs = Some None)
  /\ (getAndUpdateContainerUsageNanoCores unrepresentable (Some s) cache = Fault
      <-> (exists cpu newValue,
             runtimeapi.ContainerStats.Cpu s = Some cpu
             /\ CpuUsage.UsageCoreNanoSeconds cpu = Some newValue)
          /\ (cache !! ContainerAttributes.Id attrs = Some None
              \/ exists cached, cache !! ContainerAttributes.Id attrs = Some (Some cached)
                                /\ stats cached = None)).
Proof.
  intros Ha. split.
  - unfold getContainerUsageNanoCores. rewrite Ha.
    destruct (cache !! ContainerAttributes.Id attrs) as [[cached|]|]; simpl; split; done.
  - unfold getAndUpdateContainerUsageNanoCores. rewrite Ha.
    destruct (runtimeapi.ContainerStats.Cpu s) as [cpu|];
      [|split; [done|by intros [(? & ? & ? & ?) _]]].
    destruct (CpuUsage.UsageCoreNanoSeconds cpu) as [newValue|] eqn:Hn;
      [|split; [done|intros [(? & ? & ? & ?) _]; congruence]].
    destruct (cache !! ContainerAttributes.Id attrs) as [[cached|]|]; simpl.
    + destruct (stats cached) as [cachedStats|] eqn:Hs; simpl.
      * split.
        { repeat case_match; done. }
        intros [_ [|(c & ? & ?)]]; [done|]. congruence.
      * split; [|done]. intros _. split; [by eauto|]. right. by eauto.
    + split; [|done]. intros _. split; [by eauto|]. by left.
    + split; [done|]. intros [_ [|(c & ? & ?)]]; done.
Qed.

(** X5. The rate over the whole range of the counters. For [uint64]
    counters of which the new one is not below the cached one, and a
    strictly positive [int64] difference [nanoSeconds] of the
    timestamps: when the quotient is below [2^49] nanocores, the rate
    that is returned and cached is within 1 of the integer quotient
    [dns * 10^9 / nanoSeconds]; and it is 0 when the counter did not
    move. *)
Theorem rate_within_one_of_quotient s attrs cpu newValue (cache : cpuUsageCache)
    cached cachedStats cachedValue :
  runtimeapi.ContainerStats.Attributes s = Some attrs ->
  runtimeapi.ContainerStats.Cpu s = Some cpu ->
  CpuUsage.UsageCoreNanoSeconds cpu = Some newValue ->
  cache !! ContainerAttributes.Id attrs = Some (Some cached) ->
  stats cached = Some cachedStats ->
  CpuUsage.UsageCoreNanoSeconds cachedStats = Some cachedValue ->
  let dns := UInt64Value.Value newValue - UInt64Value.Value cachedValue in
  let nanoSeconds := wrap_i64 (CpuUsage.Timestamp cpu - CpuUsage.Timestamp cachedStats) in
  is_u64 (UInt64Value.Value newValue) -> is_u64 (UInt64Value.Value cachedValue) ->
  0 <= dns -> 0 < nanoSeconds ->
  dns * 1000000000 < 2 ^ 49 * nanoSeconds ->
  exists rate,
    getAndUpdateContainerUsageNanoCores unrepresentable (Some s) cache
    = Done (Some rate,
            <[ContainerAttributes.Id attrs := Some (mkRecord (Some cpu) (Some rate))]> cache)
    /\ Z.abs (rate - dns * 1000000000 / nanoSeconds) <= 1
    /\ (dns = 0 -> rate = 0).
Proof.
  intros Ha Hc Hn Hk Hs Hv dns nanoSeconds [Hnew0 Hnew] [Hold0 Hold] Hdns Hdt Hrate.
  pose proof (wrap_i64_range (CpuUsage.Timestamp cpu - CpuUsage.Timestamp cachedStats))
    as Hrange. fold nanoSeconds in Hrange.
  eexists. split; [|split].
  - rewrite (update_rate unrepresentable s attrs cpu newValue cache cached cachedStats
               cachedValue Ha Hc Hn Hk Hs Hv); [reflexivity|fold dns; lia|done].
  - fold nanoSeconds. destruct (decide (dns = 0)) as [H0|H0].
    + assert (UInt64Value.Value newValue = UInt64Value.Value cachedValue) as ->
        by (unfold dns in H0; lia).
      rewrite computeUsageNanoCores_idle by lia.
      rewrite H0, Z.mul_0_l, Z.div_0_l by lia. done.
    + apply computeUsageNanoCores_close_wide; unfold two64 in *; fold dns; lia.
  - intros H0. fold nanoSeconds.
    assert (UInt64Value.Value newValue = UInt64Value.Value cachedValue) as ->
      by (unfold dns in H0; lia).
    apply computeUsageNanoCores_idle. lia.
Qed.

End LookupFacts.

(** X2's witness: a second of CPU time in a second. *)
Lemma rate_is_cached_uint64_witness :
  is_u64 1000000000
  /\ getContainerUsageNanoCores (Some (cpuSample "c" 1000000000 1000000000))
       (<["c" := recordOf 1000000000 1000000000 (Some 1000000000)]>
          (<["c" := recordOf 0 0 None]> ∅))
     = Done (Some 1000000000).
Proof.
  apply (rate_is_cached_uint64 zeroConversion
           (Some (cpuSample "c" 1000000000 1000000000)) (<["c" := recordOf 0 0 None]> ∅)).
  by vm_compute.
Defined.

(** X3's witness: the first sample of a container, twice. *)
Lemma same_sample_again_witness :
  getAndUpdateContainerUsageNanoCores zeroConversion (Some (cpuSample "c" 10 7))
    (<["c" := recordOf 10 7 None]> ∅)
  = Done (None, <["c" := recordOf 10 7 None]> ∅).
Proof.
  apply (same_sample_again zeroConversion (Some (cpuSample "c" 10 7)) ∅ _ None).
  by vm_compute.
Defined.

(** X4's witness: a cache that binds container [c] to the nil record. *)
Lemma lookup_faults_witness :
  getContainerUsageNanoCores (Some (cpuSample "c" 10 7)) (<["c" := None]> ∅) = Fault
  /\ getAndUpdateContainerUsageNanoCores zeroConversion (Some (cpuSample "c" 10 7))
       (<["c" := None]> ∅) = Fault.
Proof.
  destruct (lookup_faults zeroConversion (cpuSample "c" 10 7) _ (<["c" := None]> ∅) eq_refl)
    as [Hread Hupdate].
  split.
  - apply Hread. by vm_compute.
  - apply Hupdate. split; [by eexists _, _|]. left. by vm_compute.
Defined.

(** X5's witness: a counter beyond 53 bits, which [float64] rounds,
    over 100 seconds. *)
Lemma rate_within_one_of_quotient_witness :
  exists rate,
    getAndUpdateContainerUsageNanoCores zeroConversion
      (Some (cpuSample "c" 100000000000 9007199255000001))
      (<["c" := recordOf 0 1 None]> ∅)
    = Done (Some rate,
            <["c" := recordOf 100000000000 9007199255000001 (Some rate)]>
              (<["c" := recordOf 0 1 None]> ∅))
    /\ Z.abs (rate - (9007199255000001 - 1) * 1000000000 / wrap_i64 (100000000000 - 0)) <= 1
    /\ (9007199255000001 - 1 = 0 -> rate = 0).
Proof.
  refine (rate_within_one_of_quotient zeroConversion
            (cpuSample "c" 100000000000 9007199255000001) _ _ _
            (<["c" := recordOf 0 1 None]> ∅) _ _ _
            eq_refl eq_refl eq_refl eq_refl eq_refl eq_refl _ _ _ _ _);
    unfold is_u64, two64; simpl; try (vm_compute; done); lia.
Defined.

(** ** The sweep *)

Global Instance malformed_dec v : Decision (malformed v).
Proof.
  destruct v as [[[s|] rate]|].
  - right. by intros (r & [= <-] & Hs).
  - left. by eexists.
  - right. by intros (r & ? & ?).
Defined.

Lemma fresh_not_malformed now v : fresh now v = true -> ~ malformed v.
Proof. destruct v as [[[s|] rate]|]; [|done..]. by intros _ (r & [= <-] & Hs). Qed.

(** What is fresh later was fresh before. *)
Lemma fresh_later now1 now2 v : now1 <= now2 -> fresh now2 v = true -> fresh now1 v = true.
Proof.
  intros Hle. destruct v as [[[s|] rate]|]; [|done..]. simpl.
  rewrite !bool_decide_eq_true. lia.
Qed.

Lemma rangeReversed_perm (A : Type) (l : list A) : rangeReversed A l ≡ₚ l.
Proof. apply reverse_Permutation. Qed.

Section SweepFacts.

Variable map_range map_range' : forall A : Type, list A -> list A.
Hypothesis map_range_perm : forall (A : Type) (l : list A), map_range A l ≡ₚ l.
Hypothesis map_range_perm' : forall (A : Type) (l : list A), map_range' A l ≡ₚ l.

(** X6. [cleanupOutdatedCaches] panics exactly when the cache holds a
    record without its sample (a non-nil record whose [stats] is nil),
    whatever the age of the other entries and the order of the loop. *)
Theorem sweep_faults_iff now (cache : cpuUsageCache) :
  cleanupOutdatedCaches map_range now cache = Fault
  <-> exists k r, cache !! k = Some (Some r) /\ stats r = None.
Proof.
  split.
  - intros Hf.
    destruct (decide (map_Forall (fun _ v => ~ malformed v) cache)) as [Hall|Hex].
    + rewrite (sweep_filter map_range map_range_perm now cache Hall) in Hf. done.
    + apply map_not_Forall in Hex as (k & v & Hk & Hv); [|apply _].
      apply dec_stable in Hv as (r & -> & Hs). by exists k, r.
  - intros (k & r & Hk & Hs).
    apply (sweep_fault map_range map_range_perm now cache k (Some r) Hk). by exists r.
Qed.

(** X7. The order in which the loop of [cleanupOutdatedCaches] visits
    the cache, which Go leaves open, makes no difference: two orders
    give the same cache, or both panic. *)
Theorem sweep_any_order now (cache : cpuUsageCache) :
  cleanupOutdatedCaches map_range now cache = cleanupOutdatedCaches map_range' now cache.
Proof.
  destruct (decide (map_Forall (fun _ v => ~ malformed v) cache)) as [Hall|Hex].
  - rewrite (sweep_filter map_range map_range_perm now cache Hall).
    by rewrite (sweep_filter map_range' map_range_perm' now cache Hall).
  - apply map_not_Forall in Hex as (k & v & Hk & Hv); [|apply _].
    apply dec_stable in Hv.
    rewrite (sweep_fault map_range map_range_perm now cache k v Hk Hv).
    by rewrite (sweep_fault map_range' map_range_perm' now cache k v Hk Hv).
Qed.

(** X8. Sweeps compose: after a sweep at [now1] that returned, a sweep
    at a later time [now2] gives what the sweep at [now2] gives on the
    cache that was not swept; so a sweep repeated at the same time
    changes nothing. *)
Theorem sweep_then_sweep now1 now2 (cache cache1 : cpuUsageCache) :
  now1 <= now2 ->
  cleanupOutdatedCaches map_range now1 cache = Done cache1 ->
  cleanupOutdatedCaches map_range now2 cache1 = cleanupOutdatedCaches map_range now2 cache
  /\ cleanupOutdatedCaches map_range now1 cache1 = Done cache1.
Proof.
  intros Hle H1.
  assert (Hall : map_Forall (fun _ v => ~ malformed v) cache).
  { intros k v Hk Hv. destruct Hv as (r & -> & Hs).
    assert (cleanupOutdatedCaches map_range now1 cache = Fault) as Hf; [|congruence].
    apply (sweep_fault map_range map_range_perm now1 cache k (Some r) Hk). by exists r. }
  apply (sweep_done map_range map_range_perm) in H1 as ->.
  assert (Hall1 : map_Forall (fun _ v => ~ malformed v)
                    (filter (fun kv => fresh now1 kv.2 = true) cache)).
  { intros k v [Hk Hf]%map_lookup_filter_Some. by apply (fresh_not_malformed now1). }
  split.
  - rewrite (sweep_filter map_range map_range_perm now2 cache Hall).
    rewrite (sweep_filter map_range map_range_perm now2 _ Hall1).
    f_equal. rewrite map_filter_filter. apply map_filter_ext.
    intros k v Hk. simpl. split; [by intros [? _]|].
    intros Hf. split; [done|]. by apply (fresh_later now1 now2).
  - rewrite (sweep_filter map_range map_range_perm now1 _ Hall1).
    f_equal. rewrite map_filter_filter. apply map_filter_ext.
    intros k v Hk. simpl. tauto.
Qed.

End SweepFacts.

(** X6's witness: a record without its sample. *)
Lemma sweep_faults_iff_witness :
  cleanupOutdatedCaches rangeInOrder 0 (<["c" := Some (mkRecord None None)]> ∅) = Fault.
Proof.
  apply (sweep_faults_iff rangeInOrder rangeInOrder_perm).
  exists "c", (mkRecord None None). by vm_compute.
Defined.

(** X7's witness: the cache of three entries, from either end. *)
Lemma sweep_any_order_witness :
  cleanupOutdatedCaches rangeInOrder 660000000000 threeEntries
  = cleanupOutdatedCaches rangeReversed 660000000000 threeEntries.
Proof.
  exact (sweep_any_order rangeInOrder rangeReversed rangeInOrder_perm rangeReversed_perm
           660000000000 threeEntries).
Defined.

(** X8's witness: the cache of three entries, at minute 11 and at
    minute 16. *)
Lemma sweep_then_sweep_witness :
  cleanupOutdatedCaches rangeInOrder 960000000000
    (<["new" := recordOf 300000000000 1 None]> ∅)
  = cleanupOutdatedCaches rangeInOrder 960000000000 threeEntries
  /\ cleanupOutdatedCaches rangeInOrder 660000000000
       (<["new" := recordOf 300000000000 1 None]> ∅)
     = Done (<["new" := recordOf 300000000000 1 None]> ∅).
Proof.
  apply (sweep_then_sweep rangeInOrder rangeInOrder_perm 660000000000 960000000000
           threeEntries); [lia|by vm_compute].
Defined.

(** ** The dedup filters, on the whole listing *)

(** Two lists with the same entries of every key, up to order, are the
    same up to order. *)
Lemma Permutation_by_key {K A : Type} `{EqDecision K} (key : A -> K) (l1 l2 : list A) :
  (forall k, filter (fun a => key a = k) l1 ≡ₚ filter (fun a => key a = k) l2) ->
  l1 ≡ₚ l2.
Proof.
  revert l2. induction l1 as [|x l1 IH]; intros l2 Hk.
  - destruct l2 as [|y l2]; [done|].
    specialize (Hk (key y)). rewrite filter_nil, filter_cons_True in Hk by done.
    by apply Permutation_nil_cons in Hk.
  - assert (Hx : x ∈ l2).
    { specialize (Hk (key x)). rewrite filter_cons_True in Hk by done.
      assert (x ∈ filter (fun a => key a = key x) l2) as Hin
        by (rewrite <- Hk; apply list_elem_of_here).
      by apply list_elem_of_filter in Hin as [_ ?]. }
    apply elem_of_Permutation in Hx as [l2' Hl2]. rewrite Hl2. constructor.
    apply IH. intros k. specialize (Hk k). rewrite Hl2 in Hk.
    destruct (decide (key x = k)) as [Heq|Hne].
    + rewrite !filter_cons_True in Hk by done. by apply Permutation_cons_inv in Hk.
    + by rewrite !filter_cons_False in Hk by done.
Qed.

(** A group that is not empty contributes to the result. *)
Lemma keptOfGroup_nonempty (refs : list PodSandbox.t) : refs <> [] -> keptOfGroup refs <> [].
Proof.
  intros Hne. unfold keptOfGroup. destruct refs as [|r [|r' refs]]; [done..|].
  destruct (filter _ (r :: r' :: refs)) eqn:Hf; [|done].
  destruct (last (r :: r' :: refs)) eqn:Hl; [done|]. by apply last_None in Hl.
Qed.

(** The ready members of a group are kept. *)
Lemma keptOfGroup_ready (refs : list PodSandbox.t) p :
  p ∈ refs -> PodSandbox.State p = SANDBOX_READY -> p ∈ keptOfGroup refs.
Proof.
  intros Hin Hr. unfold keptOfGroup.
  assert (Hf : p ∈ filter (fun r => PodSandbox.State r = SANDBOX_READY) refs)
    by (by apply list_elem_of_filter).
  destruct refs as [|r [|r' refs]]; [done|by apply list_elem_of_singleton in Hin as ->; left|].
  destruct (filter _ (r :: r' :: refs)); [by apply elem_of_nil in Hf|done].
Qed.

(** What a group contributes is a group that contributes itself. *)
Lemma keptOfGroup_fixed (refs l : list PodSandbox.t) :
  l ≡ₚ keptOfGroup refs -> keptOfGroup l = l.
Proof.
  unfold keptOfGroup at 1. intros Hl.
  assert (Hcases : (length l <= 1)%nat
                   \/ Forall (fun r => PodSandbox.State r = SANDBOX_READY) l /\ l <> []).
  { destruct refs as [|r [|r' refs]].
    - left. rewrite Hl. simpl. lia.
    - left. rewrite Hl. simpl. lia.
    - destruct (filter (fun r => PodSandbox.State r = SANDBOX_READY) (r :: r' :: refs))
        as [|a ready] eqn:Hf.
      + left. rewrite Hl. destruct (last (r :: r' :: refs)); simpl; lia.
      + right. split.
        * rewrite Hl, <- Hf. apply Forall_forall. by intros x [? _]%list_elem_of_filter.
        * intros ->. by apply Permutation_nil_cons in Hl. }
  clear Hl. unfold keptOfGroup.
  destruct Hcases as [Hone|[Hready Hne]].
  - destruct l as [|r [|r' l]]; [done..|]. simpl in Hone. lia.
  - destruct l as [|r [|r' l]]; [done..|].
    assert (Hf : filter (fun r => PodSandbox.State r = SANDBOX_READY) (r :: r' :: l)
                 = r :: r' :: l).
    { clear Hne. induction Hready as [|a l' Ha _ IH]; [done|].
      by rewrite filter_cons_True, IH by done. }
    by rewrite Hf.
Qed.

Section DedupSelection.

Context {T : ExternalTypes} {H : Helpers T}.
Variable sort_Slice : forall A : Type, (A -> A -> bool) -> list A -> list A.
Variable map_range : forall A : Type, list A -> list A.

Hypothesis map_range_perm : forall (A : Type) (l : list A), map_range A l ≡ₚ l.
Hypothesis sort_Slice_perm :
  forall (A : Type) (less : A -> A -> bool) (l : list A), sort_Slice A less l ≡ₚ l.

(** X9. [removeTerminatedPods] never panics (its [refs[len(refs)-1]]
    is always in range) and selects among its input: every sandbox it
    returns was given, every ready sandbox that was given is returned,
    and for every sandbox that was given the result has a sandbox
    whose metadata give the same name and the same namespace. *)
Theorem pod_dedup_selects (pods : list PodSandbox.t) :
  exists kept,
    removeTerminatedPods sort_Slice map_range pods = Done kept
    /\ (forall p, p ∈ kept -> p ∈ pods)
    /\ (forall p, p ∈ pods -> PodSandbox.State p = SANDBOX_READY -> p ∈ kept)
    /\ (forall p, p ∈ pods ->
        exists q, q ∈ kept
                  /\ PodSandbox.GetName q = PodSandbox.GetName p
                  /\ PodSandbox.GetNamespace q = PodSandbox.GetNamespace p).
Proof.
  destruct (removeTerminatedPods_by_key sort_Slice map_range map_range_perm pods)
    as (kept & Hkept & Hkey).
  exists kept. split; [exact Hkept|].
  set (sorted := sort_Slice _ (createdBefore PodSandbox.CreatedAt) pods) in *.
  assert (Hsorted : forall p, p ∈ sorted <-> p ∈ pods).
  { intros p. unfold sorted. by rewrite sort_Slice_perm. }
  split; [|split].
  - intros p Hin.
    assert (Hp : p ∈ filter (fun q => podRefID q = podRefID p) kept)
      by (by apply list_elem_of_filter).
    rewrite Hkey in Hp. apply keptOfGroup_subseteq in Hp.
    apply list_elem_of_filter in Hp as [_ Hp]. by apply Hsorted.
  - intros p Hin Hready.
    assert (Hp : p ∈ filter (fun q => podRefID q = podRefID p) kept).
    { rewrite Hkey. apply keptOfGroup_ready; [|done].
      apply list_elem_of_filter. split; [done|]. by apply Hsorted. }
    by apply list_elem_of_filter in Hp as [_ ?].
  - intros p Hin.
    assert (Hne : keptOfGroup (filter (fun q => podRefID q = podRefID p) sorted) <> []).
    { apply keptOfGroup_nonempty. intros Hnil.
      apply (filter_nil_not_elem_of (fun q => podRefID q = podRefID p) sorted p Hnil);
        [done|by apply Hsorted]. }
    rewrite <- Hkey in Hne.
    destruct (filter (fun q => podRefID q = podRefID p) kept) as [|q l] eqn:Hf; [done|].
    assert (Hq : q ∈ filter (fun q => podRefID q = podRefID p) kept)
      by (rewrite Hf; left).
    apply list_elem_of_filter in Hq as [Hq1 Hq2]. exists q. split; [done|].
    by apply (podRefID_key q (PodSandbox.GetName p) (PodSandbox.GetNamespace p)).
Qed.

(** X10. [removeTerminatedPods] on its own result returns that result,
    up to the order: nothing more is removed. *)
Theorem pod_dedup_idempotent (pods kept : list PodSandbox.t) :
  removeTerminatedPods sort_Slice map_range pods = Done kept ->
  exists kept',
    removeTerminatedPods sort_Slice map_range kept = Done kept' /\ kept' ≡ₚ kept.
Proof.
  intros Hkept.
  destruct (removeTerminatedPods_by_key sort_Slice map_range map_range_perm pods)
    as (kept0 & Hkept0 & Hkey).
  rewrite Hkept in Hkept0. injection Hkept0 as <-.
  destruct (removeTerminatedPods_by_key sort_Slice map_range map_range_perm kept)
    as (kept' & Hkept' & Hkey').
  exists kept'. split; [exact Hkept'|].
  apply (Permutation_by_key podRefID). intros k. rewrite Hkey'.
  set (l := filter (fun p => podRefID p = k)
              (sort_Slice _ (createdBefore PodSandbox.CreatedAt) kept)).
  assert (Hl : l ≡ₚ filter (fun p => podRefID p = k) kept).
  { unfold l. by rewrite sort_Slice_perm. }
  rewrite (keptOfGroup_fixed
             (filter (fun p => podRefID p = k)
                (sort_Slice _ (createdBefore PodSandbox.CreatedAt) pods)) l).
  - exact Hl.
  - by rewrite Hl, Hkey.
Qed.

(** X11. [removeTerminatedContainers] returns the running containers of
    its input, each as often as it was given, in some order: the sort
    and the grouping by pod and container name decide nothing but the
    order. *)
Theorem container_dedup_is_running (containers : list Container.t) :
  removeTerminatedContainers sort_Slice map_range containers
  ≡ₚ filter (fun c => Container.State c = CONTAINER_RUNNING) containers.
Proof.
  apply (Permutation_by_key containerRefID). intros k.
  rewrite (removeTerminatedContainers_by_key sort_Slice map_range map_range_perm).
  rewrite sort_Slice_perm.
  rewrite !list_filter_filter.
  apply reflexive_eq, list_filter_iff. intros c. tauto.
Qed.

End DedupSelection.

(** X9's witness: the four example sandboxes. *)
Lemma pod_dedup_selects_witness :
  exists kept,
    removeTerminatedPods stableSort rangeInOrder examplePods = Done kept
    /\ (forall p, p ∈ kept -> p ∈ examplePods)
    /\ (forall p, p ∈ examplePods -> PodSandbox.State p = SANDBOX_READY -> p ∈ kept)
    /\ (forall p, p ∈ examplePods ->
        exists q, q ∈ kept
                  /\ PodSandbox.GetName q = PodSandbox.GetName p
                  /\ PodSandbox.GetNamespace q = PodSandbox.GetNamespace p).
Proof.
  exact (pod_dedup_selects stableSort rangeInOrder rangeInOrder_perm stableSort_perm
           examplePods).
Defined.

(** X10's witness: the result of the dedup of the example sandboxes. *)
Lemma pod_dedup_idempotent_witness :
  exists kept',
    removeTerminatedPods stableSort rangeInOrder
      [sandbox "s2" "web" SANDBOX_NOTREADY 20; sandbox "s3" "db" SANDBOX_READY 5]
    = Done kept'
    /\ kept' ≡ₚ [sandbox "s2" "web" SANDBOX_NOTREADY 20; sandbox "s3" "db" SANDBOX_READY 5].
Proof.
  apply (pod_dedup_idempotent stableSort rangeInOrder rangeInOrder_perm stableSort_perm
           examplePods).
  by vm_compute.
Defined.

(** X11's witness: the four example containers. *)
Lemma container_dedup_is_running_witness :
  removeTerminatedContainers (H := nullHelpers) stableSort rangeInOrder exampleContainers
  ≡ₚ filter (fun c => Container.State c = CONTAINER_RUNNING) exampleContainers.
Proof.
  exact (container_dedup_is_running (H := nullHelpers) stableSort rangeInOrder
           rangeInOrder_perm stableSort_perm exampleContainers).
Defined.

(** ** The accounting subsystem's container infos *)

(** The entries of the loop of [getCRICadvisorStats], from any table. *)
Lemma getCRICadvisorStats_fold {T : ExternalTypes} {H : Helpers T}
    (l : list (string * ContainerInfo)) (acc : gmap string ContainerInfo) k :
  let eligible := fun key info =>
    (key, info) ∈ l /\ HasSuffix key ".mount" = false
    /\ isPodManagedContainer info = true /\ path_Base key = k in
  let result :=
    foldl (fun stats kv =>
             if HasSuffix kv.1 ".mount" then stats
             else if negb (isPodManagedContainer kv.2) then stats
             else <[path_Base kv.1 := kv.2]> stats) acc l in
  (forall info, result !! k = Some info ->
                acc !! k = Some info \/ exists key, eligible key info)
  /\ (is_Some (acc !! k) \/ (exists key info, eligible key info) -> is_Some (result !! k)).
Proof.
  revert acc. induction l as [|[key0 info0] l IH]; intros acc eligible result.
  - split; [by left|]. intros [?|(key & info & Hin & _)]; [done|].
    by apply elem_of_nil in Hin.
  - unfold result. simpl.
    set (acc' := if HasSuffix key0 ".mount" then acc
                 else if negb (isPodManagedContainer info0) then acc
                 else <[path_Base key0 := info0]> acc).
    destruct (IH acc') as [IH1 IH2]. split.
    + intros info Hr. apply IH1 in Hr as [Hacc|(key & Hin & Hrest)].
      * unfold acc' in Hacc.
        destruct (HasSuffix key0 ".mount") eqn:Hm; [by left|].
        destruct (isPodManagedContainer info0) eqn:Hp; simpl in Hacc; [|by left].
        destruct (decide (path_Base key0 = k)) as [Hk|Hk].
        -- rewrite Hk, lookup_insert_eq in Hacc. injection Hacc as <-.
           right. exists key0. split; [left|done].
        -- rewrite lookup_insert_ne in Hacc by done. by left.
      * right. exists key. split; [by right|done].
    + intros Hsome. apply IH2.
      destruct Hsome as [Hacc|(key & info & Hin & Hm & Hp & Hk)].
      * left. unfold acc'.
        destruct (HasSuffix key0 ".mount"); [done|].
        destruct (isPodManagedContainer info0); simpl; [|done].
        destruct (decide (path_Base key0 = k)) as [Hk|Hk].
        -- rewrite Hk, lookup_insert_eq. by eexists.
        -- by rewrite lookup_insert_ne.
      * apply elem_of_cons in Hin as [[= -> ->]|Hin].
        -- left. unfold acc'. rewrite Hm, Hp. simpl. rewrite Hk, lookup_insert_eq.
           by eexists.
        -- right. by exists key, info.
Qed.

Section CadvisorFacts.

Context {T : ExternalTypes} {H : Helpers T}.
Variable map_range : forall A : Type, list A -> list A.
Hypothesis map_range_perm : forall (A : Type) (l : list A), map_range A l ≡ₚ l.

(** X12. The table that [getCRICadvisorStats] makes. An entry of it,
    under the name [k], is an info that [removeTerminatedContainerInfo]
    left, of a cgroup path that does not end in [.mount], that is managed
    by a pod, and whose last path element is [k]; and every such info
    gives [k] an entry (the info of one of the paths with that last
    element). So no [.mount] cgroup and no cgroup outside a pod is in
    the table. *)
Theorem getCRICadvisorStats_entries (infos : gmap string ContainerInfo) k :
  let eligible := fun key info =>
    removeTerminatedContainerInfo infos !! key = Some info
    /\ HasSuffix key ".mount" = false
    /\ isPodManagedContainer info = true
    /\ path_Base key = k in
  (forall info, getCRICadvisorStats map_range infos !! k = Some info ->
                exists key, eligible key info)
  /\ ((exists key info, eligible key info) ->
      is_Some (getCRICadvisorStats map_range infos !! k)).
Proof.
  intros eligible. unfold getCRICadvisorStats.
  set (l := map_range _ (map_to_list (removeTerminatedContainerInfo infos))).
  assert (Hl : forall key info,
            (key, info) ∈ l <-> removeTerminatedContainerInfo infos !! key = Some info).
  { intros key info. unfold l. rewrite map_range_perm. apply elem_of_map_to_list. }
  destruct (getCRICadvisorStats_fold l ∅ k) as [H1 H2]. split.
  - intros info Hr. apply H1 in Hr as [Hacc|(key & Hin & Hrest)]; [done|].
    exists key. split; [by apply Hl|done].
  - intros (key & info & Hin & Hrest). apply H2. right.
    exists key, info. split; [by apply Hl|done].
Qed.

End CadvisorFacts.

(** X12's witness: a container's cgroup and a mount unit's. *)
Lemma getCRICadvisorStats_entries_witness :
  is_Some (getCRICadvisorStats (H := nullHelpers) rangeInOrder
             (<["/kubepods/pod1/c1" := tt]> (<["/kubepods/pod1/var.mount" := tt]> ∅))
           !! "/kubepods/pod1/c1").
Proof.
  apply (getCRICadvisorStats_entries (H := nullHelpers) rangeInOrder rangeInOrder_perm).
  exists "/kubepods/pod1/c1", tt. by vm_compute.
Defined.

(** ** The stat mergers *)

Section MergerFacts.

Context {T : ExternalTypes} {H : Helpers T}.

(** X13. A filesystem is looked up once in a pass. After the stats of
    a container whose writable layer is on the filesystem [fsID], the
    lookup table [fsIDtoInfo] has an answer for [fsID]: the one it had,
    else the one of [getFsInfo], nil when that lookup failed. The
    root filesystem stats of the next container on [fsID] are made from
    the table, whatever the accounting subsystem would answer then, and
    the table stays as it is. *)
Theorem filesystem_looked_up_once (u u' : Upstream.t) st st' fsID
    (table : gmap string (option cadvisorapi.FsInfo.t)) :
  runtimeapi.ContainerStats.GetFsId st = Some fsID ->
  runtimeapi.ContainerStats.GetFsId st' = Some fsID ->
  let table1 := (makeRootfs u st table).2 in
  table1 !! FilesystemIdentifier.Mountpoint fsID
  = Some (default (getFsInfo u (Some fsID)) (table !! FilesystemIdentifier.Mountpoint fsID))
  /\ makeRootfs u' st' table1 = makeRootfs u st' table1
  /\ (makeRootfs u' st' table1).2 = table1.
Proof.
  intros Hfs Hfs' table1.
  assert (Hlookup : table1 !! FilesystemIdentifier.Mountpoint fsID
            = Some (default (getFsInfo u (Some fsID))
                      (table !! FilesystemIdentifier.Mountpoint fsID))).
  { unfold table1, makeRootfs. rewrite Hfs.
    destruct (table !! FilesystemIdentifier.Mountpoint fsID) as [info|] eqn:Hk.
    - destruct info; simpl; by rewrite Hk.
    - cbn [default]. destruct (getFsInfo u (Some fsID)); cbn [snd];
        by rewrite lookup_insert_eq. }
  split; [exact Hlookup|].
  generalize dependent table1. intros table1 Hlookup.
  unfold makeRootfs. rewrite Hfs', Hlookup. cbn [default]. split; [done|].
  by destruct (default (getFsInfo u (Some fsID))
                 (table !! FilesystemIdentifier.Mountpoint fsID)).
Qed.

Lemma addProcessStats_one (cs : ContainerStats.t) (ps : PodStats.t) podUID allInfos :
  getCadvisorPodInfoFromPodUID podUID allInfos = None ->
  PodStats.ProcessStats (addProcessStats ps podUID allInfos cs)
  = match ContainerStats.ProcessStats cs with
    | None => PodStats.ProcessStats ps
    | Some c =>
      let p := default ProcessStats.zero (PodStats.ProcessStats ps) in
      Some (ProcessStats.mk
              (wrap_u64 (ProcessStats.ProcessCount p + ProcessStats.ProcessCount c))
              (wrap_u64 (ProcessStats.FdCount p + ProcessStats.FdCount c))
              (wrap_u64 (ProcessStats.SocketCount p + ProcessStats.SocketCount c))
              (wrap_u64 (ProcessStats.ThreadsCurrent p + ProcessStats.ThreadsCurrent c))
              (wrap_u64 (ProcessStats.ThreadsMax p + ProcessStats.ThreadsMax c)))
    end.
Proof.
  intros Hinfo. unfold addProcessStats. rewrite Hinfo.
  by destruct (ContainerStats.ProcessStats cs).
Qed.

Lemma addProcessStats_fold (css : list ContainerStats.t) (ps : PodStats.t) podUID allInfos :
  getCadvisorPodInfoFromPodUID podUID allInfos = None ->
  PodStats.ProcessStats
    (foldl (fun ps cs => addProcessStats ps podUID allInfos cs) ps css)
  = match omap ContainerStats.ProcessStats css with
    | [] => PodStats.ProcessStats ps
    | procs =>
      let p := default ProcessStats.zero (PodStats.ProcessStats ps) in
      Some (ProcessStats.mk
              (wrap_u64 (ProcessStats.ProcessCount p + sumOf ProcessStats.ProcessCount procs))
              (wrap_u64 (ProcessStats.FdCount p + sumOf ProcessStats.FdCount procs))
              (wrap_u64 (ProcessStats.SocketCount p + sumOf ProcessStats.SocketCount procs))
              (wrap_u64 (ProcessStats.ThreadsCurrent p
                         + sumOf ProcessStats.ThreadsCurrent procs))
              (wrap_u64 (ProcessStats.ThreadsMax p + sumOf ProcessStats.ThreadsMax procs)))
    end.
Proof.
  intros Hinfo. revert ps. induction css as [|cs css IH]; intros ps; [done|].
  cbn [foldl]. rewrite IH, (addProcessStats_one cs ps podUID allInfos Hinfo).
  change (omap ContainerStats.ProcessStats (cs :: css))
    with (match ContainerStats.ProcessStats cs with
          | Some c => c :: omap ContainerStats.ProcessStats css
          | None => omap ContainerStats.ProcessStats css
          end).
  destruct (ContainerStats.ProcessStats cs) as [c|]; [|done].
  destruct (omap ContainerStats.ProcessStats css) as [|c' procs].
  - unfold sumOf. simpl. by rewrite !Z.add_0_r.
  - unfold sumOf. simpl. rewrite !wrap_u64_add_l. f_equal. f_equal; f_equal; lia.
Qed.

(** X14. When the accounting subsystem has no information for the
    pod, [addProcessStats] over the containers of a pod, from a pod
    without process stats, leaves the pod without process stats if no
    container has any, and else with the sums, modulo [2^64], of the
    counters of the containers that have process stats. *)
Theorem pod_process_stats_are_sums (css : list ContainerStats.t) (ps : PodStats.t)
    podUID allInfos :
  getCadvisorPodInfoFromPodUID podUID allInfos = None ->
  PodStats.ProcessStats ps = None ->
  let procs := omap ContainerStats.ProcessStats css in
  let ps' := foldl (fun ps cs => addProcessStats ps podUID allInfos cs) ps css in
  (procs = [] -> PodStats.ProcessStats ps' = None)
  /\ (procs <> [] ->
      PodStats.ProcessStats ps'
      = Some (ProcessStats.mk
                (wrap_u64 (sumOf ProcessStats.ProcessCount procs))
                (wrap_u64 (sumOf ProcessStats.FdCount procs))
                (wrap_u64 (sumOf ProcessStats.SocketCount procs))
                (wrap_u64 (sumOf ProcessStats.ThreadsCurrent procs))
                (wrap_u64 (sumOf ProcessStats.ThreadsMax procs)))).
Proof.
  intros Hinfo Hnone procs ps'. unfold ps'.
  rewrite (addProcessStats_fold css ps podUID allInfos Hinfo). fold procs.
  rewrite Hnone. split.
  - by intros ->.
  - intros Hne. destruct procs as [|c procs']; [done|]. simpl. done.
Qed.

End MergerFacts.

(** X13's witness: two containers on [/var], the first when the
    accounting subsystem cannot tell about [/var], the second when it
    can. *)
Lemma filesystem_looked_up_once_witness :
  let failing := exampleUpstream [] in
  let answering :=
    Upstream.mk (T := unitTypes)
      (Fetched (cadvisorapi.FsInfo.mk 100 50 None None))
      (Fetched []) (Fetched []) (Fetched []) (Fetched ∅) (Fetched ∅)
      (fun _ => Fetched (cadvisorapi.FsInfo.mk 100 50 None None)) in
  let table1 := (makeRootfs failing (layerSample "a" "/var") ∅).2 in
  table1 !! "/var" = Some None
  /\ makeRootfs answering (layerSample "b" "/var") table1
     = makeRootfs failing (layerSample "b" "/var") table1
  /\ (makeRootfs answering (layerSample "b" "/var") table1).2 = table1.
Proof.
  intros failing answering.
  exact (filesystem_looked_up_once failing answering (layerSample "a" "/var")
           (layerSample "b" "/var") (FilesystemIdentifier.mk "/var") ∅ eq_refl eq_refl).
Defined.

(** X14's witness: a pod of two containers with 3 and 4 processes. *)
Lemma pod_process_stats_are_sums_witness :
  let cs := fun n =>
    ContainerStats.mk (T := unitTypes) "c" ZeroTime None None None None
      (Some (ProcessStats.mk n 0 0 0 0)) [] in
  let ps := PodStats.mk (T := unitTypes) (PodReference.mk "web" "u" "default") ZeroTime
              [] None None None None None in
  PodStats.ProcessStats
    (foldl (fun ps cs => addProcessStats (H := nullHelpers) ps "s2" ∅ cs) ps [cs 3; cs 4])
  = Some (ProcessStats.mk 7 0 0 0 0).
Proof.
  intros cs ps.
  apply (pod_process_stats_are_sums (H := nullHelpers) [cs 3; cs 4] ps "s2" ∅ eq_refl
           eq_refl).
  done.
Defined.

(** ** The passes *)

Lemma containerMapOf_lookup (l : list Container.t) id c :
  containerMapOf l !! id = Some c -> c ∈ l /\ Container.Id c = id.
Proof.
  unfold containerMapOf. induction l as [|x l IH] using rev_ind; [done|].
  rewrite foldl_app. simpl. destruct (decide (Container.Id x = id)) as [Hx|Hx].
  - rewrite Hx, lookup_insert_eq. intros [= <-]. split; [|done].
    apply elem_of_app. right. left.
  - rewrite lookup_insert_ne by done. intros [Hin Hid]%IH. split; [|done].
    apply elem_of_app. by left.
Qed.

Lemma foldl_outcome_fault {S A : Type} (step : S -> A -> outcome S)
    (s0 : outcome S) (l : list A) (a : A) :
  a ∈ l -> (forall s, step s a = Fault) ->
  foldl (fun acc a => s ← acc; step s a) s0 l = Fault.
Proof.
  intros Hin Hstep. apply list_elem_of_split in Hin as (l1 & l2 & ->).
  rewrite foldl_app. simpl.
  destruct (foldl _ s0 l1) as [s|]; simpl; [rewrite Hstep|]; apply foldl_Fault.
Qed.

Lemma foldl_outcome_invariant_in {S A : Type} (step : S -> A -> outcome S)
    (P : S -> Prop) (l : list A) (s0 s : S) :
  (forall s a s', a ∈ l -> P s -> step s a = Done s' -> P s') ->
  P s0 ->
  foldl (fun acc a => s ← acc; step s a) (Done s0) l = Done s ->
  P s.
Proof.
  revert s0. induction l as [|a l IH]; intros s0 Hstep Hs0; simpl.
  - by intros [= <-].
  - destruct (step s0 a) as [s1|] eqn:Ha; [|by rewrite foldl_Fault].
    apply IH.
    + intros s2 b s3 Hb. apply Hstep. by right.
    + apply (Hstep s0 a s1); [left|done..].
Qed.

Section PassProperties.

Context {T : ExternalTypes} {H : Helpers T}.
Variable unrepresentable : spec_float -> Z.
Variable sort_Slice : forall A : Type, (A -> A -> bool) -> list A -> list A.
Variable map_range : forall A : Type, list A -> list A.

Hypothesis map_range_perm : forall (A : Type) (l : list A), map_range A l ≡ₚ l.
Hypothesis sort_Slice_perm :
  forall (A : Type) (less : A -> A -> bool) (l : list A), sort_Slice A less l ≡ₚ l.

Lemma map_range_nil (A : Type) : map_range A [] = [].
Proof. apply Permutation_nil_r. by rewrite map_range_perm. Qed.

Lemma removeTerminatedContainers_elem (containers : list Container.t) c :
  c ∈ removeTerminatedContainers sort_Slice map_range containers
  <-> c ∈ containers /\ Container.State c = CONTAINER_RUNNING.
Proof.
  pose proof (removeTerminatedContainers_by_key sort_Slice map_range map_range_perm
                containers (containerRefID c)) as Hkey.
  split.
  - intros Hin.
    assert (Hc : c ∈ filter (fun c' => containerRefID c' = containerRefID c)
                   (removeTerminatedContainers sort_Slice map_range containers))
      by (by apply list_elem_of_filter).
    rewrite Hkey in Hc. apply list_elem_of_filter in Hc as [Hr Hc].
    apply list_elem_of_filter in Hc as [_ Hc]. rewrite sort_Slice_perm in Hc. done.
  - intros [Hin Hr].
    assert (Hc : c ∈ filter (fun c' => containerRefID c' = containerRefID c)
                   (removeTerminatedContainers sort_Slice map_range containers)).
    { rewrite Hkey. apply list_elem_of_filter. split; [done|].
      apply list_elem_of_filter. split; [done|]. by rewrite sort_Slice_perm. }
    by apply list_elem_of_filter in Hc as [_ ?].
Qed.

Lemma ListPodCPUAndMemoryStats_read_cache u now (cache cache' : cpuUsageCache) res :
  ListPodCPUAndMemoryStats sort_Slice map_range u now cache = Done (res, cache') ->
  (cpuAndMemoryFetchFailed u /\ cache' = cache)
  \/ (~ cpuAndMemoryFetchFailed u /\ cleanupOutdatedCaches map_range now cache = Done cache').
Proof.
  unfold ListPodCPUAndMemoryStats, cpuAndMemoryFetchFailed, failed. intros Hp.
  destruct (Upstream.ListContainers u) as [containers|e2];
    [|left; simplify_eq; split; [some_failure|done]].
  destruct (Upstream.ListPodSandbox u) as [items|e3]; [|left; simplify_eq; split; [some_failure|done]].
  destruct (removeTerminatedPods sort_Slice map_range items) as [kept|]; [|done].
  simpl in Hp.
  destruct (Upstream.ListContainerStats u) as [records|e4];
    [|left; simplify_eq; split; [some_failure|done]].
  destruct (Upstream.getCadvisorContainerInfo u) as [allInfos|e5];
    [|left; simplify_eq; split; [some_failure|done]].
  right. split; [intros Hf; no_failure Hf|].
  match type of Hp with
  | mbind _ ?m = _ => destruct m as [state|] eqn:Hloop; [|done]
  end.
  simpl in Hp.
  apply (foldl_outcome_invariant _ (fun s => cpuCache s = cache)) in Hloop; [|..|done].
  - rewrite Hloop in Hp.
    destruct (cleanupOutdatedCaches map_range now cache) as [c|]; [|done].
    simpl in Hp. by simplify_eq.
  - intros s a s' Hs Hstep. apply listPodCPUAndMemoryStatsStep_read in Hstep. congruence.
Qed.

(** X15. A pass of [ListPodCPUAndMemoryStats] that returns has neither
    added nor changed an entry of the rate cache. The cache is the same
    after a pass that a failed fetch ended; otherwise it is the cache
    that the pass-end sweep makes of the one before. *)
Theorem ListPodCPUAndMemoryStats_cache_frame u now (cache cache' : cpuUsageCache) res :
  ListPodCPUAndMemoryStats sort_Slice map_range u now cache = Done (res, cache') ->
  (forall k v, cache' !! k = Some v -> cache !! k = Some v)
  /\ (cpuAndMemoryFetchFailed u -> cache' = cache)
  /\ (~ cpuAndMemoryFetchFailed u ->
      cleanupOutdatedCaches map_range now cache = Done cache').
Proof.
  intros Hp. apply ListPodCPUAndMemoryStats_read_cache in Hp as [[Hf ->]|[Hf Hsweep]].
  - by repeat split.
  - repeat split; [|done..].
    intros k v Hk. apply (sweep_done _ map_range_perm) in Hsweep. subst cache'.
    by apply map_lookup_filter_Some in Hk as [? _].
Qed.

(** X16. "If no caller calls this function, the cpu usage will stay
    nil" (the comment on [ListPodStatsAndUpdateCPUNanoCoreUsage]): after
    any calls of [ListPodStats] and [ListPodCPUAndMemoryStats] on a new
    provider, the cache is empty, and [getContainerUsageNanoCores] finds
    no rate for any record. *)
Theorem usage_stays_nil_without_update (passes : list readPass) (cache : cpuUsageCache) st :
  runReadPasses unrepresentable sort_Slice map_range passes = Done cache ->
  cache = ∅ /\ getContainerUsageNanoCores st cache = Done None.
Proof.
  intros Hrun.
  assert (Hempty : cache = ∅).
  { revert Hrun. unfold runReadPasses.
    apply (foldl_outcome_invariant
             (fun c p => runReadPass unrepresentable sort_Slice map_range c p)
             (fun c => c = ∅)); [|done].
    intros c p c' -> Hp. apply map_empty. intros k.
    destruct (c' !! k) as [v|] eqn:Hk; [|done]. exfalso.
    destruct p as [u now|u now]; simpl in Hp.
    - destruct (ListPodStats _ _ _ u now ∅) as [[res c1]|] eqn:Hl; [|done].
      simpl in Hp. injection Hp as ->.
      apply listPodStats_read_cache in Hl as [[_ ->]|[_ Hsweep]]; [done..|].
      apply (sweep_done _ map_range_perm) in Hsweep. subst c'.
      by apply map_lookup_filter_Some in Hk as [? _].
    - destruct (ListPodCPUAndMemoryStats _ _ u now ∅) as [[res c1]|] eqn:Hl; [|done].
      simpl in Hp. injection Hp as ->.
      apply ListPodCPUAndMemoryStats_read_cache in Hl as [[_ ->]|[_ Hsweep]]; [done|].
      apply (sweep_done _ map_range_perm) in Hsweep. subst c'.
      by apply map_lookup_filter_Some in Hk as [? _]. }
  split; [done|]. subst cache. unfold getContainerUsageNanoCores.
  destruct st as [s|]; [|done].
  by destruct (runtimeapi.ContainerStats.Attributes s).
Qed.

(** X17. With no stat record from the runtime, and every fetch
    answered, either pass does its sweep and returns the empty slice
    (not nil) and no error, whatever containers and sandboxes are
    listed. *)
Theorem no_stat_records rootFs containers items allInfos net dirFs update now
    (cache : cpuUsageCache) :
  let u := Upstream.mk (Fetched rootFs) (Fetched containers) (Fetched items)
             (Fetched []) (Fetched allInfos) (Fetched net) dirFs in
  listPodStats unrepresentable sort_Slice map_range u update now cache
  = (c ← cleanupOutdatedCaches map_range now cache; Done (Some [], None, c))
  /\ ListPodCPUAndMemoryStats sort_Slice map_range u now cache
     = (c ← cleanupOutdatedCaches map_range now cache; Done (Some [], None, c)).
Proof.
  intros u. unfold listPodStats, ListPodCPUAndMemoryStats. simpl.
  destruct (removeTerminatedPods_returns sort_Slice map_range map_range_perm items)
    as [kept ->].
  simpl. rewrite map_to_list_empty, map_range_nil. done.
Qed.

(** X18. A stat record without attributes makes either pass panic,
    when every fetch is answered: the loop reads [stats.Attributes.Id]
    before it looks the container up. *)
Theorem record_without_attributes_panics u records st update now (cache : cpuUsageCache) :
  ~ fetchFailed u ->
  Upstream.ListContainerStats u = Fetched records ->
  st ∈ records ->
  runtimeapi.ContainerStats.Attributes st = None ->
  listPodStats unrepresentable sort_Slice map_range u update now cache = Fault
  /\ ListPodCPUAndMemoryStats sort_Slice map_range u now cache = Fault.
Proof.
  intros Hok Hrecords Hin Hattrs. unfold listPodStats, ListPodCPUAndMemoryStats.
  unfold fetchFailed, failed in Hok. rewrite Hrecords.
  destruct (Upstream.RootFsInfo u) as [rootFs|e1]; [|exfalso; apply Hok; some_failure].
  destruct (Upstream.ListContainers u) as [containers|e2];
    [|exfalso; apply Hok; some_failure].
  destruct (Upstream.ListPodSandbox u) as [items|e3]; [|exfalso; apply Hok; some_failure].
  destruct (removeTerminatedPods_returns sort_Slice map_range map_range_perm items)
    as [kept ->].
  simpl.
  destruct (Upstream.getCadvisorContainerInfo u) as [allInfos|e5];
    [|exfalso; apply Hok; some_failure].
  destruct (Upstream.listContainerNetworkStats u) as [net|e6];
    [|exfalso; apply Hok; some_failure].
  split.
  - rewrite (foldl_outcome_fault
               (fun state st => listPodStatsStep unrepresentable _ _ _ _ _ _ _ _ state st)
               _ records st Hin); [done|].
    intros s. unfold listPodStatsStep. by rewrite Hattrs.
  - rewrite (foldl_outcome_fault
               (fun state st => listPodCPUAndMemoryStatsStep _ _ _ _ _ state st)
               _ records st Hin); [done|].
    intros s. unfold listPodCPUAndMemoryStatsStep. by rewrite Hattrs.
Qed.

(** X19. The stat record of a container that the runtime does not list
    as running (every listed container of that id is created, exited or
    unknown) is skipped: either pass returns what it returns without the
    record. *)
Theorem stopped_container_skipped rootFs containers items allInfos net dirFs
    (l1 l2 : list runtimeapi.ContainerStats.t) st attrs update now (cache : cpuUsageCache) :
  runtimeapi.ContainerStats.Attributes st = Some attrs ->
  (forall c, c ∈ containers -> Container.Id c = ContainerAttributes.Id attrs ->
             Container.State c <> CONTAINER_RUNNING) ->
  let upstream := fun records =>
    Upstream.mk rootFs (Fetched containers) (Fetched items) (Fetched records)
                allInfos net dirFs in
  listPodStats unrepresentable sort_Slice map_range (upstream (l1 ++ st :: l2))
    update now cache
  = listPodStats unrepresentable sort_Slice map_range (upstream (l1 ++ l2))
      update now cache
  /\ ListPodCPUAndMemoryStats sort_Slice map_range (upstream (l1 ++ st :: l2)) now cache
     = ListPodCPUAndMemoryStats sort_Slice map_range (upstream (l1 ++ l2)) now cache.
Proof.
  intros Hattrs Hstopped upstream.
  assert (Hmap : containerMapOf (removeTerminatedContainers sort_Slice map_range containers)
                   !! ContainerAttributes.Id attrs = None).
  { destruct (containerMapOf _ !! _) as [c|] eqn:Hc; [|done]. exfalso.
    apply containerMapOf_lookup in Hc as [Hin Hid].
    apply removeTerminatedContainers_elem in Hin as [Hin Hr].
    by apply (Hstopped c). }
  assert (Hun : forall podSandboxMap,
    unresolved (containerMapOf (removeTerminatedContainers sort_Slice map_range containers))
               podSandboxMap st).
  { intros podSandboxMap. exists attrs. split; [done|]. by rewrite Hmap. }
  unfold listPodStats, ListPodCPUAndMemoryStats. simpl.
  destruct (removeTerminatedPods_returns sort_Slice map_range map_range_perm items)
    as [kept ->].
  simpl. split.
  - destruct rootFs as [rootFsInfo|e1]; [|done].
    destruct allInfos as [infos|e5]; [|done].
    destruct net as [containerNetworkStats|e6]; [|done].
    rewrite (foldl_outcome_skip
               (fun state st => listPodStatsStep unrepresentable _ _ _ _ _ _ _ _ state st)).
    + done.
    + intros s. by apply listPodStatsStep_skip.
  - destruct allInfos as [infos|e5]; [|done].
    rewrite (foldl_outcome_skip
               (fun state st => listPodCPUAndMemoryStatsStep _ _ _ _ _ state st)).
    + done.
    + intros s. by apply listPodCPUAndMemoryStatsStep_skip.
Qed.

(** An update leaves the entries of the other containers. *)
Lemma update_other_entries s attrs (cache cache' : cpuUsageCache) r k :
  runtimeapi.ContainerStats.Attributes s = Some attrs ->
  getAndUpdateContainerUsageNanoCores unrepresentable (Some s) cache = Done (r, cache') ->
  k <> ContainerAttributes.Id attrs ->
  cache' !! k = cache !! k.
Proof.
  intros Ha Hu Hk. revert Hu. unfold getAndUpdateContainerUsageNanoCores. rewrite Ha.
  destruct (runtimeapi.ContainerStats.Cpu s) as [cpu|]; [|by intros [= <- <-]].
  destruct (CpuUsage.UsageCoreNanoSeconds cpu) as [newValue|]; [|by intros [= <- <-]].
  destruct (cache !! ContainerAttributes.Id attrs) as [[cached|]|]; simpl; [|done|].
  - destruct (stats cached) as [cachedStats|]; [|done]. simpl.
    destruct (CpuUsage.UsageCoreNanoSeconds cachedStats) as [cachedValue|].
    + repeat case_decide; intros [= <- <-]; try done; by rewrite lookup_insert_ne.
    + intros [= <- <-]. by rewrite lookup_insert_ne.
  - intros [= <- <-]. by rewrite lookup_insert_ne.
Qed.

Lemma listPodStatsStep_other_entries u containerMap podSandboxMap allInfos caInfos
    containerNetworkStats update now state state' st attrs k :
  runtimeapi.ContainerStats.Attributes st = Some attrs ->
  k <> ContainerAttributes.Id attrs ->
  listPodStatsStep unrepresentable u containerMap podSandboxMap allInfos caInfos
    containerNetworkStats update now state st = Done state' ->
  cpuCache state' !! k = cpuCache state !! k.
Proof.
  unfold listPodStatsStep. intros Ha Hk Hs. rewrite Ha in Hs. simpl in Hs.
  destruct (containerMap !! ContainerAttributes.Id attrs) as [container|];
    [|by simplify_eq].
  destruct (podSandboxMap !! Container.PodSandboxId container) as [podSandbox|];
    [|by simplify_eq].
  match type of Hs with
  | mbind _ ?m = _ => destruct m as [ps|]; [|done]
  end.
  simpl in Hs.
  destruct (makeContainerStats _ _ _ _ _ _ _ _ _) as [[[cs fsTable] c1]|] eqn:Hcs; [|done].
  simpl in Hs. destruct (deref (PodSandbox.Metadata podSandbox)) as [meta|]; [|done].
  simpl in Hs. injection Hs as <-. simpl.
  revert Hcs. unfold makeContainerStats. rewrite Ha. simpl.
  destruct (deref (ContainerAttributes.Metadata attrs)) as [m|]; [|done]. simpl.
  unfold makeCPUStats.
  destruct (runtimeapi.ContainerStats.Cpu st) as [cpu|] eqn:Hcpu; [|by intros [= _ _ <-]].
  destruct update.
  - destruct (getAndUpdateContainerUsageNanoCores unrepresentable (Some st) (cpuCache state))
      as [[usage c2]|] eqn:Hu; [|done].
    simpl. intros [= _ _ <-].
    by apply (update_other_entries st attrs (cpuCache state) c2 usage k Ha Hu).
  - unfold readRate.
    destruct (getContainerUsageNanoCores (Some st) (cpuCache state)); [|done].
    simpl. by intros [= _ _ <-].
Qed.

(** X20. A pass of [ListPodStatsAndUpdateCPUNanoCoreUsage] adds and
    changes cache entries of the containers of its stat records only:
    an entry that the cache has after the pass, of a container that no
    stat record names, was there before the pass, with the same
    record. *)
Theorem update_pass_frame u now (cache cache' : cpuUsageCache) res records k v :
  ListPodStatsAndUpdateCPUNanoCoreUsage unrepresentable sort_Slice map_range u now cache
  = Done (res, cache') ->
  Upstream.ListContainerStats u = Fetched records ->
  (forall st attrs, st ∈ records -> runtimeapi.ContainerStats.Attributes st = Some attrs ->
                    ContainerAttributes.Id attrs <> k) ->
  cache' !! k = Some v ->
  cache !! k = Some v.
Proof.
  unfold ListPodStatsAndUpdateCPUNanoCoreUsage, listPodStats. intros Hp Hrecords Hother Hk.
  rewrite Hrecords in Hp.
  destruct (Upstream.RootFsInfo u) as [rootFs|e1]; [|by simplify_eq].
  destruct (Upstream.ListContainers u) as [containers|e2]; [|by simplify_eq].
  destruct (Upstream.ListPodSandbox u) as [items|e3]; [|by simplify_eq].
  destruct (removeTerminatedPods sort_Slice map_range items) as [kept|]; [|done].
  simpl in Hp.
  destruct (Upstream.getCadvisorContainerInfo u) as [allInfos|e5]; [|by simplify_eq].
  destruct (Upstream.listContainerNetworkStats u) as [net|e6]; [|by simplify_eq].
  match type of Hp with
  | mbind _ ?m = _ => destruct m as [state|] eqn:Hloop; [|done]
  end.
  simpl in Hp.
  destruct (cleanupOutdatedCaches map_range now (cpuCache state)) as [c|] eqn:Hsweep; [|done].
  simpl in Hp. injection Hp as _ <-.
  apply (sweep_done _ map_range_perm) in Hsweep. subst c.
  apply map_lookup_filter_Some in Hk as [Hk _].
  rewrite <- Hk. symmetry. revert Hloop.
  apply (foldl_outcome_invariant_in _ (fun s => cpuCache s !! k = cache !! k)); [|done].
  intros s a s' Hin Hs Hstep. rewrite <- Hs.
  destruct (runtimeapi.ContainerStats.Attributes a) as [attrs|] eqn:Ha.
  - eapply listPodStatsStep_other_entries; [exact Ha| |exact Hstep].
    intros ->. by apply (Hother a attrs).
  - unfold listPodStatsStep in Hstep. by rewrite Ha in Hstep.
Qed.

(** The mergers of pod-level stats leave the containers of the pod. *)
Lemma adders_keep_containers (ps : PodStats.t) podSandboxID podUID caInfos allInfos
    netStats (cs : ContainerStats.t) :
  PodStats.Containers (addPodNetworkStats ps podSandboxID caInfos netStats)
  = PodStats.Containers ps
  /\ PodStats.Containers (addPodCPUMemoryStats ps podUID allInfos cs) = PodStats.Containers ps
  /\ PodStats.Containers (addDiskIoStats ps podUID allInfos cs) = PodStats.Containers ps
  /\ PodStats.Containers (addProcessStats ps podUID allInfos cs) = PodStats.Containers ps.
Proof.
  split; [|split; [|split]].
  - unfold addPodNetworkStats.
    destruct (caInfos !! podSandboxID ≫= cadvisorInfoToNetworkStats); [done|].
    by destruct netStats.
  - unfold addPodCPUMemoryStats.
    destruct (getCadvisorPodInfoFromPodUID podUID allInfos); [done|].
    by destruct (ContainerStats.CPU cs), (ContainerStats.Memory cs).
  - done.
  - unfold addProcessStats. by destruct (ContainerStats.ProcessStats cs).
Qed.

Lemma buildPodStats_no_containers podSandbox (ps : PodStats.t) :
  buildPodStats podSandbox = Done ps -> PodStats.Containers ps = [].
Proof.
  unfold buildPodStats. destruct (PodSandbox.Metadata podSandbox); [|done].
  by intros [= <-].
Qed.

Lemma makeContainerStats_measured u st container fsTable update infos now
    (cache cache' : cpuUsageCache) (cs : ContainerStats.t) fsTable' :
  makeContainerStats unrepresentable u st container fsTable update infos now cache
  = Done (cs, fsTable', cache') ->
  measured cs.
Proof.
  unfold makeContainerStats. intros Hm.
  destruct (deref (runtimeapi.ContainerStats.Attributes st)) as [attrs|]; [|done].
  simpl in Hm. destruct (deref (ContainerAttributes.Metadata attrs)) as [meta|]; [|done].
  simpl in Hm. destruct (makeCPUStats _ _ _ _) as [[cpu c1]|]; [|done].
  simpl in Hm. injection Hm as <- _ _. by split; eexists.
Qed.

Lemma makeContainerCPUAndMemoryStats_measured st container infos now
    (cache cache' : cpuUsageCache) (cs : ContainerStats.t) :
  makeContainerCPUAndMemoryStats st container infos now cache = Done (cs, cache') ->
  measured cs.
Proof.
  unfold makeContainerCPUAndMemoryStats. intros Hm.
  destruct (deref (runtimeapi.ContainerStats.Attributes st)) as [attrs|]; [|done].
  simpl in Hm. destruct (deref (ContainerAttributes.Metadata attrs)) as [meta|]; [|done].
  simpl in Hm. destruct (makeCPUStats _ _ _ _) as [[cpu c1]|]; [|done].
  simpl in Hm. injection Hm as <- _. by split; eexists.
Qed.

Lemma addCadvisorContainerStats_measured (cs : ContainerStats.t) caStats :
  measured cs -> measured (addCadvisorContainerStats cs caStats).
Proof.
  intros [Hcpu Hmem]. unfold addCadvisorContainerStats. simpl.
  by destruct (cadvisorInfoToCPUandMemoryStats caStats) as [[cpu|] [mem|]]; split.
Qed.

Lemma appendContainer_reportable (ps : PodStats.t) (cs : ContainerStats.t) l :
  PodStats.Containers ps = l -> Forall measured l -> measured cs ->
  reportable (appendContainer ps cs).
Proof.
  intros Hl Hall Hcs. unfold reportable, appendContainer. simpl. rewrite Hl. split.
  - by destruct l.
  - apply Forall_app. split; [done|]. by constructor.
Qed.

Lemma listPodStatsStep_reportable u containerMap podSandboxMap allInfos caInfos
    containerNetworkStats update now state state' st :
  map_Forall (fun _ ps => reportable ps) (sandboxIDToPodStats state) ->
  listPodStatsStep unrepresentable u containerMap podSandboxMap allInfos caInfos
    containerNetworkStats update now state st = Done state' ->
  map_Forall (fun _ ps => reportable ps) (sandboxIDToPodStats state').
Proof.
  unfold listPodStatsStep. intros Hinv Hs.
  destruct (deref (runtimeapi.ContainerStats.Attributes st)) as [attrs|]; [|done].
  simpl in Hs.
  destruct (containerMap !! ContainerAttributes.Id attrs) as [container|];
    [|by simplify_eq].
  destruct (podSandboxMap !! Container.PodSandboxId container) as [podSandbox|];
    [|by simplify_eq].
  match type of Hs with
  | mbind _ ?m = _ => destruct m as [ps|] eqn:Hps; [|done]
  end.
  simpl in Hs.
  destruct (makeContainerStats _ _ _ _ _ _ _ _ _) as [[[cs fsTable] c1]|] eqn:Hcs; [|done].
  apply makeContainerStats_measured in Hcs. simpl in Hs.
  destruct (deref (PodSandbox.Metadata podSandbox)) as [meta|]; [|done].
  simpl in Hs. injection Hs as <-. simpl.
  apply map_Forall_insert_2; [|done].
  assert (Hold : Forall measured (PodStats.Containers ps)).
  { destruct (sandboxIDToPodStats state !! Container.PodSandboxId container) as [ps0|] eqn:Hk.
    - injection Hps as <-. by apply (Hinv _ _ Hk).
    - apply buildPodStats_no_containers in Hps. rewrite Hps. constructor. }
  eapply appendContainer_reportable; [|exact Hold|].
  - destruct (adders_keep_containers ps (Container.PodSandboxId container)
                (PodSandboxMetadata.Uid meta) caInfos allInfos
                (containerNetworkStats !! Container.PodSandboxId container) cs)
      as (Hn & _).
    destruct (adders_keep_containers
                (addPodNetworkStats ps (Container.PodSandboxId container) caInfos
                   (containerNetworkStats !! Container.PodSandboxId container))
                (Container.PodSandboxId container)
                (PodSandboxMetadata.Uid meta) caInfos allInfos None cs)
      as (_ & Hc & _).
    destruct (adders_keep_containers
                (addPodCPUMemoryStats
                   (addPodNetworkStats ps (Container.PodSandboxId container) caInfos
                      (containerNetworkStats !! Container.PodSandboxId container))
                   (PodSandboxMetadata.Uid meta) allInfos cs)
                (Container.PodSandboxId container)
                (Container.PodSandboxId container) caInfos allInfos None cs)
      as (_ & _ & Hd & _).
    destruct (adders_keep_containers
                (addDiskIoStats
                   (addPodCPUMemoryStats
                      (addPodNetworkStats ps (Container.PodSandboxId container) caInfos
                         (containerNetworkStats !! Container.PodSandboxId container))
                      (PodSandboxMetadata.Uid meta) allInfos cs)
                   (Container.PodSandboxId container) allInfos cs)
                (Container.PodSandboxId container)
                (Container.PodSandboxId container) caInfos allInfos None cs)
      as (_ & _ & _ & Hp).
    rewrite Hp, Hd, Hc, Hn. done.
  - destruct (caInfos !! ContainerAttributes.Id attrs); [|done].
    by apply addCadvisorContainerStats_measured.
Qed.

Lemma listPodCPUAndMemoryStatsStep_reportable containerMap podSandboxMap allInfos caInfos
    now state state' st :
  map_Forall (fun _ ps => reportable ps) (sandboxIDToPodStats state) ->
  listPodCPUAndMemoryStatsStep containerMap podSandboxMap allInfos caInfos now state st
  = Done state' ->
  map_Forall (fun _ ps => reportable ps) (sandboxIDToPodStats state').
Proof.
  unfold listPodCPUAndMemoryStatsStep. intros Hinv Hs.
  destruct (deref (runtimeapi.ContainerStats.Attributes st)) as [attrs|]; [|done].
  simpl in Hs.
  destruct (containerMap !! ContainerAttributes.Id attrs) as [container|];
    [|by simplify_eq].
  destruct (podSandboxMap !! Container.PodSandboxId container) as [podSandbox|];
    [|by simplify_eq].
  match type of Hs with
  | mbind _ ?m = _ => destruct m as [ps|] eqn:Hps; [|done]
  end.
  simpl in Hs.
  destruct (makeContainerCPUAndMemoryStats _ _ _ _ _) as [[cs c1]|] eqn:Hcs; [|done].
  apply makeContainerCPUAndMemoryStats_measured in Hcs. simpl in Hs.
  destruct (deref (PodSandbox.Metadata podSandbox)) as [meta|]; [|done].
  simpl in Hs. injection Hs as <-. simpl.
  apply map_Forall_insert_2; [|done].
  assert (Hold : Forall measured (PodStats.Containers ps)).
  { destruct (sandboxIDToPodStats state !! Container.PodSandboxId container) as [ps0|] eqn:Hk.
    - injection Hps as <-. by apply (Hinv _ _ Hk).
    - apply buildPodStats_no_containers in Hps. rewrite Hps. constructor. }
  eapply appendContainer_reportable; [|exact Hold|].
  - destruct (adders_keep_containers ps (Container.PodSandboxId container)
                (PodSandboxMetadata.Uid meta) caInfos allInfos None cs)
      as (_ & Hc & _).
    destruct (adders_keep_containers
                (addPodCPUMemoryStats ps (PodSandboxMetadata.Uid meta) allInfos cs)
                (Container.PodSandboxId container)
                (Container.PodSandboxId container) caInfos allInfos None cs)
      as (_ & _ & Hd & _).
    destruct (adders_keep_containers
                (addDiskIoStats
                   (addPodCPUMemoryStats ps (PodSandboxMetadata.Uid meta) allInfos cs)
                   (Container.PodSandboxId container) allInfos cs)
                (Container.PodSandboxId container)
                (Container.PodSandboxId container) caInfos allInfos None cs)
      as (_ & _ & _ & Hp).
    rewrite Hp, Hd, Hc. done.
  - destruct (caInfos !! ContainerAttributes.Id attrs); [|done].
    by apply addCadvisorContainerStats_measured.
Qed.

Lemma range_values_reportable (m : gmap string PodStats.t) :
  map_Forall (fun _ ps => reportable ps) m ->
  Forall reportable (map_range _ (map_to_list m)).*2.
Proof.
  intros Hinv. apply Forall_forall. intros ps Hin.
  apply list_elem_of_fmap in Hin as ([k ps'] & -> & Hin).
  rewrite map_range_perm in Hin. apply elem_of_map_to_list in Hin.
  by apply (Hinv k).
Qed.

(** X21. Every pod that a pass reports has at least one container, and
    every container that is reported has its CPU and its memory stats:
    a sandbox without a placed stat record is not reported. *)
Theorem reported_pods_have_containers u update now (cache cache' : cpuUsageCache)
    result err :
  (listPodStats unrepresentable sort_Slice map_range u update now cache
   = Done (Some result, err, cache') -> Forall reportable result)
  /\ (ListPodCPUAndMemoryStats sort_Slice map_range u now cache
      = Done (Some result, err, cache') -> Forall reportable result).
Proof.
  split.
  - unfold listPodStats. intros Hp.
    destruct (Upstream.RootFsInfo u) as [rootFs|e1]; [|done].
    destruct (Upstream.ListContainers u) as [containers|e2]; [|done].
    destruct (Upstream.ListPodSandbox u) as [items|e3]; [|done].
    destruct (removeTerminatedPods sort_Slice map_range items) as [kept|]; [|done].
    simpl in Hp.
    destruct (Upstream.ListContainerStats u) as [records|e4]; [|done].
    destruct (Upstream.getCadvisorContainerInfo u) as [allInfos|e5]; [|done].
    destruct (Upstream.listContainerNetworkStats u) as [net|e6]; [|done].
    match type of Hp with
    | mbind _ ?m = _ => destruct m as [state|] eqn:Hloop; [|done]
    end.
    simpl in Hp.
    destruct (cleanupOutdatedCaches map_range now (cpuCache state)) as [c|]; [|done].
    simpl in Hp. injection Hp as <- _ _.
    apply range_values_reportable.
    revert Hloop.
    apply (foldl_outcome_invariant _
             (fun s => map_Forall (fun _ ps => reportable ps) (sandboxIDToPodStats s)));
      [|apply map_Forall_empty].
    intros s a s' Hs Hstep. by eapply listPodStatsStep_reportable.
  - unfold ListPodCPUAndMemoryStats. intros Hp.
    destruct (Upstream.ListContainers u) as [containers|e2]; [|done].
    destruct (Upstream.ListPodSandbox u) as [items|e3]; [|done].
    destruct (removeTerminatedPods sort_Slice map_range items) as [kept|]; [|done].
    simpl in Hp.
    destruct (Upstream.ListContainerStats u) as [records|e4]; [|done].
    destruct (Upstream.getCadvisorContainerInfo u) as [allInfos|e5]; [|done].
    match type of Hp with
    | mbind _ ?m = _ => destruct m as [state|] eqn:Hloop; [|done]
    end.
    simpl in Hp.
    destruct (cleanupOutdatedCaches map_range now (cpuCache state)) as [c|]; [|done].
    simpl in Hp. injection Hp as <- _ _.
    apply range_values_reportable.
    revert Hloop.
    apply (foldl_outcome_invariant _
             (fun s => map_Forall (fun _ ps => reportable ps) (sandboxIDToPodStats s)));
      [|apply map_Forall_empty].
    intros s a s' Hs Hstep. by eapply listPodCPUAndMemoryStatsStep_reportable.
Qed.

End PassProperties.

(** X15's witness: a pass over the example with no stat records, at
    minute 11, on the cache with a sample of minute 0. *)
Lemma ListPodCPUAndMemoryStats_cache_frame_witness :
  (forall k v, (∅ : cpuUsageCache) !! k = Some v -> staleCache !! k = Some v)
  /\ (cpuAndMemoryFetchFailed (exampleUpstream []) -> ∅ = staleCache)
  /\ (~ cpuAndMemoryFetchFailed (exampleUpstream []) ->
      cleanupOutdatedCaches rangeInOrder 660000000000 staleCache = Done ∅).
Proof.
  refine (ListPodCPUAndMemoryStats_cache_frame (H := nullHelpers) stableSort rangeInOrder
            rangeInOrder_perm (exampleUpstream []) 660000000000 staleCache ∅
            (Some [], None) _).
  by vm_compute.
Defined.

(** X16's witness: a pass of each kind over the example, with a stat
    record of container [c2]. *)
Lemma usage_stays_nil_without_update_witness :
  (∅ : cpuUsageCache) = ∅
  /\ getContainerUsageNanoCores (Some (cpuSample "c2" 10 5)) ∅ = Done None.
Proof.
  apply (usage_stays_nil_without_update (H := nullHelpers) zeroConversion stableSort
           rangeInOrder rangeInOrder_perm
           [CallListPodStats (exampleUpstream [cpuSample "c2" 10 5]) 20;
            CallListPodCPUAndMemoryStats (exampleUpstream [cpuSample "c2" 30 9]) 40]).
  by vm_compute.
Defined.

(** X17's witness: the example sandboxes and containers, and no stat
    record. *)
Lemma no_stat_records_witness :
  listPodStats (H := nullHelpers) zeroConversion stableSort rangeInOrder
    (Upstream.mk (Fetched (cadvisorapi.FsInfo.mk 100 50 None None))
       (Fetched exampleContainers) (Fetched examplePods) (Fetched [])
       (Fetched ∅) (Fetched ∅) (fun _ => Failed (Raw "no such device")))
    true 20 staleCache
  = (c ← cleanupOutdatedCaches rangeInOrder 20 staleCache; Done (Some [], None, c))
  /\ ListPodCPUAndMemoryStats (H := nullHelpers) stableSort rangeInOrder
       (Upstream.mk (Fetched (cadvisorapi.FsInfo.mk 100 50 None None))
          (Fetched exampleContainers) (Fetched examplePods) (Fetched [])
          (Fetched ∅) (Fetched ∅) (fun _ => Failed (Raw "no such device")))
       20 staleCache
     = (c ← cleanupOutdatedCaches rangeInOrder 20 staleCache; Done (Some [], None, c)).
Proof.
  exact (no_stat_records (H := nullHelpers) zeroConversion stableSort rangeInOrder
           rangeInOrder_perm (cadvisorapi.FsInfo.mk 100 50 None None) exampleContainers
           examplePods ∅ ∅ (fun _ => Failed (Raw "no such device")) true 20 staleCache).
Defined.

(** X18's witness: a record without attributes after one of [c2]. *)
Lemma record_without_attributes_panics_witness :
  listPodStats (H := nullHelpers) zeroConversion stableSort rangeInOrder
    (exampleUpstream [cpuSample "c2" 10 5; bareRecord]) true 20 staleCache = Fault
  /\ ListPodCPUAndMemoryStats (H := nullHelpers) stableSort rangeInOrder
       (exampleUpstream [cpuSample "c2" 10 5; bareRecord]) 20 staleCache = Fault.
Proof.
  apply (record_without_attributes_panics (H := nullHelpers) zeroConversion stableSort
           rangeInOrder rangeInOrder_perm
           (exampleUpstream [cpuSample "c2" 10 5; bareRecord])
           [cpuSample "c2" 10 5; bareRecord] bareRecord).
  - unfold fetchFailed, failed. simpl. intros Hf. no_failure Hf.
  - reflexivity.
  - right. left.
  - reflexivity.
Defined.

(** X19's witness: a stat record of the exited container [c1], after
    one of the running container [c2]. *)
Lemma stopped_container_skipped_witness :
  listPodStats (H := nullHelpers) zeroConversion stableSort rangeInOrder
    (exampleUpstream ([cpuSample "c2" 10 5] ++ cpuSample "c1" 10 7 :: []))
    true 20 staleCache
  = listPodStats (H := nullHelpers) zeroConversion stableSort rangeInOrder
      (exampleUpstream ([cpuSample "c2" 10 5] ++ [])) true 20 staleCache
  /\ ListPodCPUAndMemoryStats (H := nullHelpers) stableSort rangeInOrder
       (exampleUpstream ([cpuSample "c2" 10 5] ++ cpuSample "c1" 10 7 :: []))
       20 staleCache
     = ListPodCPUAndMemoryStats (H := nullHelpers) stableSort rangeInOrder
         (exampleUpstream ([cpuSample "c2" 10 5] ++ [])) 20 staleCache.
Proof.
  refine (stopped_container_skipped (H := nullHelpers) zeroConversion stableSort
            rangeInOrder rangeInOrder_perm stableSort_perm _ exampleContainers _ _ _ _
            [cpuSample "c2" 10 5] [] (cpuSample "c1" 10 7) _ true 20 staleCache
            eq_refl _).
  intros c Hin Hid. unfold exampleContainers in Hin.
  repeat (apply elem_of_cons in Hin as [->|Hin]; [by vm_compute in Hid || done|]).
  by apply elem_of_nil in Hin.
Defined.

(** X20's witness: an update pass over the example with a stat record
    of [c2], on a cache with an entry of a container [x]. *)
Lemma update_pass_frame_witness :
  exists res cache',
    ListPodStatsAndUpdateCPUNanoCoreUsage (H := nullHelpers) zeroConversion stableSort
      rangeInOrder (exampleUpstream [cpuSample "c2" 10 5]) 20
      (<["x" := recordOf 15 1 None]> ∅)
    = Done (res, cache')
    /\ cache' !! "x" = Some (recordOf 15 1 None)
    /\ (<["x" := recordOf 15 1 None]> ∅ : cpuUsageCache) !! "x" = Some (recordOf 15 1 None).
Proof.
  destruct (ListPodStatsAndUpdateCPUNanoCoreUsage (H := nullHelpers) zeroConversion
              stableSort rangeInOrder (exampleUpstream [cpuSample "c2" 10 5]) 20
              (<["x" := recordOf 15 1 None]> ∅)) as [[res cache']|] eqn:Hpass;
    [|by vm_compute in Hpass].
  assert (Hx : cache' !! "x" = Some (recordOf 15 1 None)).
  { pose proof Hpass as Hrun. vm_compute in Hrun. injection Hrun as _ <-. by vm_compute. }
  exists res, cache'. split; [done|]. split; [exact Hx|].
  apply (update_pass_frame (H := nullHelpers) zeroConversion stableSort rangeInOrder
           rangeInOrder_perm (exampleUpstream [cpuSample "c2" 10 5]) 20
           (<["x" := recordOf 15 1 None]> ∅) cache' res [cpuSample "c2" 10 5] "x"
           (recordOf 15 1 None) Hpass eq_refl); [|exact Hx].
  intros st attrs Hin Ha. apply list_elem_of_singleton in Hin as ->.
  injection Ha as <-. done.
Defined.

(** X21's witness: a pass over the example with stat records of the
    running container [c2]. *)
Lemma reported_pods_have_containers_witness :
  exists result err cache',
    listPodStats (H := nullHelpers) zeroConversion stableSort rangeInOrder
      (exampleUpstream [cpuSample "c2" 10 5; cpuSample "c2" 20 7]) true 20 ∅
    = Done (Some result, err, cache')
    /\ result <> [] /\ Forall reportable result.
Proof.
  destruct (listPodStats (H := nullHelpers) zeroConversion stableSort rangeInOrder
              (exampleUpstream [cpuSample "c2" 10 5; cpuSample "c2" 20 7]) true 20 ∅)
    as [[[[result|] err] cache']|] eqn:Hpass; [|by vm_compute in Hpass..].
  exists result, err, cache'. split; [done|]. split.
  - intros ->. by vm_compute in Hpass.
  - exact (proj1 (reported_pods_have_containers (H := nullHelpers) zeroConversion
                    stableSort rangeInOrder rangeInOrder_perm
                    (exampleUpstream [cpuSample "c2" 10 5; cpuSample "c2" 20 7])
                    true 20 ∅ cache' result err) Hpass).
Defined.

(** ** What a pass does to the cache entry of one container *)

Lemma foldl_outcome_app_inv {S A : Type} (step : S -> A -> outcome S)
    (l1 l2 : list A) (s0 s : S) :
  foldl (fun acc a => s ← acc; step s a) (Done s0) (l1 ++ l2) = Done s ->
  exists s1, foldl (fun acc a => s ← acc; step s a) (Done s0) l1 = Done s1
             /\ foldl (fun acc a => s ← acc; step s a) (Done s1) l2 = Done s.
Proof.
  rewrite foldl_app.
  destruct (foldl _ (Done s0) l1) as [s1|]; [|by rewrite foldl_Fault].
  intros Hl2. by exists s1.
Qed.

Section EntryFacts.

Context {T : ExternalTypes} {H : Helpers T}.
Variable unrepresentable : spec_float -> Z.
Variable sort_Slice : forall A : Type, (A -> A -> bool) -> list A -> list A.
Variable map_range : forall A : Type, list A -> list A.

Hypothesis map_range_perm : forall (A : Type) (l : list A), map_range A l ≡ₚ l.

(** What an update makes of the entry of its container depends on that
    entry only. *)
Lemma update_entry_local s attrs (cacheA cacheB cacheA' : cpuUsageCache) r :
  runtimeapi.ContainerStats.Attributes s = Some attrs ->
  cacheA !! ContainerAttributes.Id attrs = cacheB !! ContainerAttributes.Id attrs ->
  getAndUpdateContainerUsageNanoCores unrepresentable (Some s) cacheA = Done (r, cacheA') ->
  exists cacheB',
    getAndUpdateContainerUsageNanoCores unrepresentable (Some s) cacheB = Done (r, cacheB')
    /\ cacheA' !! ContainerAttributes.Id attrs = cacheB' !! ContainerAttributes.Id attrs.
Proof.
  intros Ha Hk. unfold getAndUpdateContainerUsageNanoCores. rewrite Ha, <- Hk.
  destruct (runtimeapi.ContainerStats.Cpu s) as [cpu|];
    [|intros [= <- <-]; by eexists].
  destruct (CpuUsage.UsageCoreNanoSeconds cpu) as [newValue|];
    [|intros [= <- <-]; by eexists].
  destruct (cacheA !! ContainerAttributes.Id attrs) as [[cached|]|] eqn:HA; simpl; [|done|].
  - destruct (stats cached) as [cachedStats|]; [|done]. simpl.
    destruct (CpuUsage.UsageCoreNanoSeconds cachedStats) as [cachedValue|].
    + destruct (decide (UInt64Value.Value newValue < UInt64Value.Value cachedValue)).
      { intros [= <- <-]. eexists. split; [done|]. by rewrite !lookup_insert_eq. }
      destruct (decide (wrap_i64 (CpuUsage.Timestamp cpu - CpuUsage.Timestamp cachedStats)
                        <= 0)).
      * intros [= <- <-]. eexists. split; [done|]. by rewrite HA.
      * intros [= <- <-]. eexists. split; [done|]. by rewrite !lookup_insert_eq.
    + intros [= <- <-]. eexists. split; [done|]. by rewrite !lookup_insert_eq.
  - intros [= <- <-]. eexists. split; [done|]. by rewrite !lookup_insert_eq.
Qed.

(** The CPU part of a container's stats in update mode leaves the cache
    that the update of the record leaves. *)
Lemma makeCPUStats_update st now (cache cache' : cpuUsageCache) cpu :
  makeCPUStats (getAndUpdateContainerUsageNanoCores unrepresentable) st now cache
  = Done (cpu, cache') ->
  exists r,
    getAndUpdateContainerUsageNanoCores unrepresentable (Some st) cache = Done (r, cache').
Proof.
  unfold makeCPUStats.
  destruct (runtimeapi.ContainerStats.Cpu st) as [c|] eqn:Hcpu.
  - destruct (getAndUpdateContainerUsageNanoCores unrepresentable (Some st) cache)
      as [[usage c2]|]; [|done].
    intros [= _ <-]. by exists usage.
  - intros [= _ <-]. exists None. unfold getAndUpdateContainerUsageNanoCores.
    rewrite Hcpu. by destruct (runtimeapi.ContainerStats.Attributes st).
Qed.

Lemma makeContainerStats_update u st container fsTable infos now
    (cache cache' : cpuUsageCache) cs fsTable' :
  makeContainerStats unrepresentable u st container fsTable true infos now cache
  = Done (cs, fsTable', cache') ->
  exists r,
    getAndUpdateContainerUsageNanoCores unrepresentable (Some st) cache = Done (r, cache').
Proof.
  unfold makeContainerStats. intros Hm.
  destruct (deref (runtimeapi.ContainerStats.Attributes st)) as [attrs|]; [|done].
  simpl in Hm. destruct (deref (ContainerAttributes.Metadata attrs)) as [meta|]; [|done].
  simpl in Hm.
  destruct (makeCPUStats _ st now cache) as [[cpu c1]|] eqn:Hcpu; [|done].
  simpl in Hm. injection Hm as _ _ <-. by apply makeCPUStats_update in Hcpu.
Qed.

(** The loop body on a record that it places: the cache after it is
    the one that the update of the record leaves. *)
Lemma listPodStatsStep_placed u containerMap podSandboxMap allInfos caInfos
    containerNetworkStats now state state' st attrs container podSandbox :
  runtimeapi.ContainerStats.Attributes st = Some attrs ->
  containerMap !! ContainerAttributes.Id attrs = Some container ->
  podSandboxMap !! Container.PodSandboxId container = Some podSandbox ->
  listPodStatsStep unrepresentable u containerMap podSandboxMap allInfos caInfos
    containerNetworkStats true now state st = Done state' ->
  exists r,
    getAndUpdateContainerUsageNanoCores unrepresentable (Some st) (cpuCache state)
    = Done (r, cpuCache state').
Proof.
  unfold listPodStatsStep. intros Ha Hc Hp Hs. rewrite Ha in Hs. simpl in Hs.
  rewrite Hc, Hp in Hs.
  match type of Hs with
  | mbind _ ?m = _ => destruct m as [ps|]; [|done]
  end.
  simpl in Hs.
  destruct (makeContainerStats _ _ _ _ _ _ _ _ _) as [[[cs fsTable] c1]|] eqn:Hcs; [|done].
  simpl in Hs. destruct (deref (PodSandbox.Metadata podSandbox)) as [meta|]; [|done].
  simpl in Hs. injection Hs as <-. simpl.
  by apply makeContainerStats_update in Hcs.
Qed.

(** X22. What a pass of [ListPodStatsAndUpdateCPUNanoCoreUsage] that
    returns does to the cache entry of a container that it places (the
    container is in the container map, its sandbox in the sandbox map)
    and that one stat record names: the update of
    [getAndUpdateContainerUsageNanoCores] with that record on the cache
    before the pass, then the sweep. The entry after the pass is the one
    the update leaves, if its sample is at most 10 minutes old, and
    none otherwise. *)
Theorem update_pass_entry rootFs containers items allInfos net dirFs
    (l1 l2 : list runtimeapi.ContainerStats.t) st attrs kept container podSandbox
    now (cache cache' : cpuUsageCache) res :
  removeTerminatedPods sort_Slice map_range items = Done kept ->
  runtimeapi.ContainerStats.Attributes st = Some attrs ->
  containerMapOf (removeTerminatedContainers sort_Slice map_range containers)
    !! ContainerAttributes.Id attrs = Some container ->
  podSandboxMapOf kept !! Container.PodSandboxId container = Some podSandbox ->
  (forall st' attrs', st' ∈ l1 ++ l2 ->
     runtimeapi.ContainerStats.Attributes st' = Some attrs' ->
     ContainerAttributes.Id attrs' <> ContainerAttributes.Id attrs) ->
  ListPodStatsAndUpdateCPUNanoCoreUsage unrepresentable sort_Slice map_range
    (Upstream.mk (Fetched rootFs) (Fetched containers) (Fetched items)
       (Fetched (l1 ++ st :: l2)) (Fetched allInfos) (Fetched net) dirFs)
    now cache
  = Done (res, cache') ->
  exists r cache1,
    getAndUpdateContainerUsageNanoCores unrepresentable (Some st) cache = Done (r, cache1)
    /\ cache' !! ContainerAttributes.Id attrs
       = (if fresh now (default None (cache1 !! ContainerAttributes.Id attrs))
          then cache1 !! ContainerAttributes.Id attrs else None).
Proof.
  intros Hkept Ha Hc Hp Hother.
  unfold ListPodStatsAndUpdateCPUNanoCoreUsage, listPodStats. simpl.
  rewrite Hkept. simpl. intros Hpass.
  match type of Hpass with
  | mbind _ ?m = _ => destruct m as [s3|] eqn:Hloop; [|done]
  end.
  simpl in Hpass.
  destruct (cleanupOutdatedCaches map_range now (cpuCache s3)) as [c|] eqn:Hsweep; [|done].
  simpl in Hpass. injection Hpass as _ <-.
  apply (sweep_done _ map_range_perm) in Hsweep. subst c.
  set (id := ContainerAttributes.Id attrs) in *.
  pose (step := fun state st0 =>
         listPodStatsStep unrepresentable
           (Upstream.mk (Fetched rootFs) (Fetched containers) (Fetched items)
              (Fetched (l1 ++ st :: l2)) (Fetched allInfos) (Fetched net) dirFs)
           (containerMapOf (removeTerminatedContainers sort_Slice map_range containers))
           (podSandboxMapOf kept) allInfos (getCRICadvisorStats map_range allInfos) net
           true now state st0).
  change (foldl (fun acc a => s ← acc; step s a) (Done (mkState ∅ ∅ cache))
            (l1 ++ st :: l2) = Done s3) in Hloop.
  assert (Hframe : forall l s0 s,
            (forall st' attrs', st' ∈ l ->
               runtimeapi.ContainerStats.Attributes st' = Some attrs' ->
               ContainerAttributes.Id attrs' <> id) ->
            foldl (fun acc a => s ← acc; step s a) (Done s0) l = Done s ->
            cpuCache s !! id = cpuCache s0 !! id).
  { intros l s0 s Hl.
    apply (foldl_outcome_invariant_in step (fun s => cpuCache s !! id = cpuCache s0 !! id));
      [|done].
    intros sa a sb Hin Hsa Hstep. rewrite <- Hsa.
    destruct (runtimeapi.ContainerStats.Attributes a) as [attrs'|] eqn:Ha'.
    - eapply (listPodStatsStep_other_entries unrepresentable); [exact Ha'| |exact Hstep].
      intros Heq. by apply (Hl a attrs' Hin Ha').
    - unfold step, listPodStatsStep in Hstep. by rewrite Ha' in Hstep. }
  apply (foldl_outcome_app_inv step) in Hloop as (s1 & Hl1 & Hrest).
  simpl in Hrest.
  destruct (step s1 st) as [s2|] eqn:Hst; [|by rewrite foldl_Fault in Hrest].
  apply Hframe in Hl1; [|intros st' attrs' Hin; apply Hother, elem_of_app; by left].
  apply Hframe in Hrest; [|intros st' attrs' Hin; apply Hother, elem_of_app; by right].
  simpl in Hl1.
  apply (listPodStatsStep_placed _ _ _ _ _ _ _ _ _ _ attrs container podSandbox Ha Hc Hp)
    in Hst as [r Hupdate].
  apply (update_entry_local st attrs (cpuCache s1) cache (cpuCache s2) r Ha Hl1)
    in Hupdate as (cache1 & Hupdate & Hentry).
  exists r, cache1. split; [exact Hupdate|].
  fold id in Hentry. rewrite <- Hentry, <- Hrest.
  destruct (cpuCache s3 !! id) as [v|] eqn:Hk; simpl.
  - destruct (fresh now v) eqn:Hf.
    + apply map_lookup_filter_Some. by split.
    + apply map_lookup_filter_None. right. intros v' Hv'. simpl.
      rewrite Hk in Hv'. injection Hv' as <-. by rewrite Hf.
  - apply map_lookup_filter_None. by left.
Qed.

End EntryFacts.

(** X22's witness: the first update pass over the example with a stat
    record of the running container [c2]; the entry of [c2] is the
    record's sample, without a rate. *)
Lemma update_pass_entry_witness :
  exists r cache1,
    getAndUpdateContainerUsageNanoCores zeroConversion (Some (cpuSample "c2" 10 5)) ∅
    = Done (r, cache1)
    /\ (<["c2" := recordOf 10 5 None]> ∅ : cpuUsageCache) !! "c2"
       = (if fresh 20 (default None (cache1 !! "c2")) then cache1 !! "c2" else None).
Proof.
  refine (update_pass_entry (H := nullHelpers) zeroConversion stableSort rangeInOrder
            rangeInOrder_perm (cadvisorapi.FsInfo.mk 100 50 None None) exampleContainers
            examplePods ∅ ∅ (fun _ => Failed (Raw "no such device"))
            [] [] (cpuSample "c2" 10 5) _
            [sandbox "s2" "web" SANDBOX_NOTREADY 20; sandbox "s3" "db" SANDBOX_READY 5]
            (container "c2" "s2" "app" CONTAINER_RUNNING 21)
            (sandbox "s2" "web" SANDBOX_NOTREADY 20) 20 ∅
            (<["c2" := recordOf 10 5 None]> ∅)
            (Some [examplePodStats], None)
            _ eq_refl _ _ _ _).
  - by vm_compute.
  - by vm_compute.
  - by vm_compute.
  - intros st' attrs' Hin. by apply elem_of_nil in Hin.
  - by vm_compute.
Defined.

(** ** The pods that a pass reports *)

Lemma podSandboxMapOf_lookup (l : list PodSandbox.t) id s :
  podSandboxMapOf l !! id = Some s -> s ∈ l /\ PodSandbox.Id s = id.
Proof.
  unfold podSandboxMapOf. induction l as [|x l IH] using rev_ind; [done|].
  rewrite foldl_app. simpl. destruct (decide (PodSandbox.Id x = id)) as [Hx|Hx].
  - rewrite Hx, lookup_insert_eq. intros [= <-]. split; [|done].
    apply elem_of_app. right. left.
  - rewrite lookup_insert_ne by done. intros [Hin Hid]%IH. split; [|done].
    apply elem_of_app. by left.
Qed.

Section ReportedPods.

Context {T : ExternalTypes} {H : Helpers T}.
Variable unrepresentable : spec_float -> Z.
Variable sort_Slice : forall A : Type, (A -> A -> bool) -> list A -> list A.
Variable map_range : forall A : Type, list A -> list A.

Hypothesis map_range_perm : forall (A : Type) (l : list A), map_range A l ≡ₚ l.
Hypothesis sort_Slice_perm :
  forall (A : Type) (less : A -> A -> bool) (l : list A), sort_Slice A less l ≡ₚ l.

Lemma removeTerminatedPods_subset (pods kept : list PodSandbox.t) p :
  removeTerminatedPods sort_Slice map_range pods = Done kept -> p ∈ kept -> p ∈ pods.
Proof.
  intros Hkept Hin.
  destruct (removeTerminatedPods_by_key sort_Slice map_range map_range_perm pods)
    as (kept0 & Hkept0 & Hkey).
  rewrite Hkept in Hkept0. injection Hkept0 as <-.
  assert (Hp : p ∈ filter (fun q => podRefID q = podRefID p) kept)
    by (by apply list_elem_of_filter).
  rewrite Hkey in Hp. apply keptOfGroup_subseteq in Hp.
  apply list_elem_of_filter in Hp as [_ Hp]. by rewrite sort_Slice_perm in Hp.
Qed.

(** The mergers of pod-level stats leave the reference and the start
    time of the pod. *)
Lemma addPodNetworkStats_identity (ps : PodStats.t) podSandboxID caInfos netStats sandbox :
  statsOf sandbox ps -> statsOf sandbox (addPodNetworkStats ps podSandboxID caInfos netStats).
Proof.
  intros (meta & Hm & Hr & Ht). exists meta. split; [done|].
  unfold addPodNetworkStats.
  destruct (caInfos !! podSandboxID ≫= cadvisorInfoToNetworkStats); [done|].
  by destruct netStats.
Qed.

Lemma addPodCPUMemoryStats_identity (ps : PodStats.t) podUID allInfos
    (cs : ContainerStats.t) sandbox :
  statsOf sandbox ps -> statsOf sandbox (addPodCPUMemoryStats ps podUID allInfos cs).
Proof.
  intros (meta & Hm & Hr & Ht). exists meta. split; [done|].
  unfold addPodCPUMemoryStats.
  destruct (getCadvisorPodInfoFromPodUID podUID allInfos); [done|].
  by destruct (ContainerStats.CPU cs), (ContainerStats.Memory cs).
Qed.

Lemma addDiskIoStats_identity (ps : PodStats.t) podUID allInfos
    (cs : ContainerStats.t) sandbox :
  statsOf sandbox ps -> statsOf sandbox (addDiskIoStats ps podUID allInfos cs).
Proof. intros (meta & Hm & Hr & Ht). by exists meta. Qed.

Lemma addProcessStats_identity (ps : PodStats.t) podUID allInfos
    (cs : ContainerStats.t) sandbox :
  statsOf sandbox ps -> statsOf sandbox (addProcessStats ps podUID allInfos cs).
Proof.
  intros (meta & Hm & Hr & Ht). exists meta. split; [done|].
  unfold addProcessStats. by destruct (ContainerStats.ProcessStats cs).
Qed.

Lemma appendContainer_identity (ps : PodStats.t) (cs : ContainerStats.t) sandbox :
  statsOf sandbox ps -> statsOf sandbox (appendContainer ps cs).
Proof. intros (meta & Hm & Hr & Ht). by exists meta. Qed.

Lemma buildPodStats_identity sandbox (ps : PodStats.t) :
  buildPodStats sandbox = Done ps -> statsOf sandbox ps.
Proof.
  unfold buildPodStats. destruct (PodSandbox.Metadata sandbox) as [meta|] eqn:Hm; [|done].
  intros [= <-]. by exists meta.
Qed.

(** The pod stats under a sandbox id are those of the sandbox that the
    sandbox map has under the id. *)
Local Abbreviation identified := (fun (podSandboxMap : gmap string PodSandbox.t) s =>
  map_Forall (fun sid ps => exists sandbox,
                podSandboxMap !! sid = Some sandbox /\ statsOf sandbox ps)
             (sandboxIDToPodStats s)).

Lemma listPodStatsStep_identified u containerMap podSandboxMap allInfos caInfos
    containerNetworkStats update now state state' st :
  identified podSandboxMap state ->
  listPodStatsStep unrepresentable u containerMap podSandboxMap allInfos caInfos
    containerNetworkStats update now state st = Done state' ->
  identified podSandboxMap state'.
Proof.
  unfold listPodStatsStep. intros Hinv Hs.
  destruct (deref (runtimeapi.ContainerStats.Attributes st)) as [attrs|]; [|done].
  simpl in Hs.
  destruct (containerMap !! ContainerAttributes.Id attrs) as [container|];
    [|by simplify_eq].
  destruct (podSandboxMap !! Container.PodSandboxId container) as [podSandbox|] eqn:Hsb;
    [|by simplify_eq].
  match type of Hs with
  | mbind _ ?m = _ => destruct m as [ps|] eqn:Hps; [|done]
  end.
  simpl in Hs.
  destruct (makeContainerStats _ _ _ _ _ _ _ _ _) as [[[cs fsTable] c1]|]; [|done].
  simpl in Hs. destruct (deref (PodSandbox.Metadata podSandbox)) as [meta|]; [|done].
  simpl in Hs. injection Hs as <-. simpl.
  apply map_Forall_insert_2; [|done].
  exists podSandbox. split; [done|].
  assert (Hold : statsOf podSandbox ps).
  { destruct (sandboxIDToPodStats state !! Container.PodSandboxId container) as [ps0|] eqn:Hk.
    - injection Hps as <-. destruct (Hinv _ _ Hk) as (sandbox & Hsb' & Hid).
      rewrite Hsb in Hsb'. by injection Hsb' as <-.
    - by apply buildPodStats_identity. }
  apply appendContainer_identity, addProcessStats_identity, addDiskIoStats_identity,
    addPodCPUMemoryStats_identity, addPodNetworkStats_identity, Hold.
Qed.

Lemma listPodCPUAndMemoryStatsStep_identified containerMap podSandboxMap allInfos caInfos
    now state state' st :
  identified podSandboxMap state ->
  listPodCPUAndMemoryStatsStep containerMap podSandboxMap allInfos caInfos now state st
  = Done state' ->
  identified podSandboxMap state'.
Proof.
  unfold listPodCPUAndMemoryStatsStep. intros Hinv Hs.
  destruct (deref (runtimeapi.ContainerStats.Attributes st)) as [attrs|]; [|done].
  simpl in Hs.
  destruct (containerMap !! ContainerAttributes.Id attrs) as [container|];
    [|by simplify_eq].
  destruct (podSandboxMap !! Container.PodSandboxId container) as [podSandbox|] eqn:Hsb;
    [|by simplify_eq].
  match type of Hs with
  | mbind _ ?m = _ => destruct m as [ps|] eqn:Hps; [|done]
  end.
  simpl in Hs.
  destruct (makeContainerCPUAndMemoryStats _ _ _ _ _) as [[cs c1]|]; [|done].
  simpl in Hs. destruct (deref (PodSandbox.Metadata podSandbox)) as [meta|]; [|done].
  simpl in Hs. injection Hs as <-. simpl.
  apply map_Forall_insert_2; [|done].
  exists podSandbox. split; [done|].
  assert (Hold : statsOf podSandbox ps).
  { destruct (sandboxIDToPodStats state !! Container.PodSandboxId container) as [ps0|] eqn:Hk.
    - injection Hps as <-. destruct (Hinv _ _ Hk) as (sandbox & Hsb' & Hid).
      rewrite Hsb in Hsb'. by injection Hsb' as <-.
    - by apply buildPodStats_identity. }
  apply appendContainer_identity, addProcessStats_identity, addDiskIoStats_identity,
    addPodCPUMemoryStats_identity, Hold.
Qed.

Lemma range_values_listed (items kept : list PodSandbox.t) (m : gmap string PodStats.t) :
  removeTerminatedPods sort_Slice map_range items = Done kept ->
  map_Forall (fun sid ps => exists sandbox,
                podSandboxMapOf kept !! sid = Some sandbox /\ statsOf sandbox ps) m ->
  Forall (fun ps => exists sandbox, sandbox ∈ items /\ statsOf sandbox ps)
         (map_range _ (map_to_list m)).*2.
Proof.
  intros Hkept Hinv. apply Forall_forall. intros ps Hin.
  apply list_elem_of_fmap in Hin as ([k ps'] & -> & Hin).
  rewrite map_range_perm in Hin. apply elem_of_map_to_list in Hin.
  destruct (Hinv k ps' Hin) as (sandbox & Hsb & Hid).
  exists sandbox. split; [|done].
  apply podSandboxMapOf_lookup in Hsb as [Hsb _].
  by apply (removeTerminatedPods_subset items kept).
Qed.

(** X23. Every pod that a pass reports is one of the sandboxes that the
    runtime listed: its reference (name, UID, namespace) is read off the
    metadata of that sandbox, and its start time is the creation time of
    that sandbox. *)
Theorem reported_pods_are_listed u update now (cache cache' : cpuUsageCache)
    items result err :
  Upstream.ListPodSandbox u = Fetched items ->
  listPodStats unrepresentable sort_Slice map_range u update now cache
  = Done (Some result, err, cache')
  \/ ListPodCPUAndMemoryStats sort_Slice map_range u now cache
     = Done (Some result, err, cache') ->
  Forall (fun ps => exists sandbox, sandbox ∈ items /\ statsOf sandbox ps) result.
Proof.
  intros Hitems [Hp|Hp]; revert Hp.
  - unfold listPodStats. rewrite Hitems. intros Hp.
    destruct (Upstream.RootFsInfo u) as [rootFs|e1]; [|done].
    destruct (Upstream.ListContainers u) as [containers|e2]; [|done].
    destruct (removeTerminatedPods sort_Slice map_range items) as [kept|] eqn:Hkept; [|done].
    simpl in Hp.
    destruct (Upstream.ListContainerStats u) as [records|e4]; [|done].
    destruct (Upstream.getCadvisorContainerInfo u) as [allInfos|e5]; [|done].
    destruct (Upstream.listContainerNetworkStats u) as [net|e6]; [|done].
    match type of Hp with
    | mbind _ ?m = _ => destruct m as [state|] eqn:Hloop; [|done]
    end.
    simpl in Hp.
    destruct (cleanupOutdatedCaches map_range now (cpuCache state)) as [c|]; [|done].
    simpl in Hp. injection Hp as <- _ _.
    apply (range_values_listed items kept); [done|].
    revert Hloop.
    apply (foldl_outcome_invariant _ (identified (podSandboxMapOf kept)));
      [|apply map_Forall_empty].
    intros s a s' Hs Hstep. by eapply listPodStatsStep_identified.
  - unfold ListPodCPUAndMemoryStats. rewrite Hitems. intros Hp.
    destruct (Upstream.ListContainers u) as [containers|e2]; [|done].
    destruct (removeTerminatedPods sort_Slice map_range items) as [kept|] eqn:Hkept; [|done].
    simpl in Hp.
    destruct (Upstream.ListContainerStats u) as [records|e4]; [|done].
    destruct (Upstream.getCadvisorContainerInfo u) as [allInfos|e5]; [|done].
    match type of Hp with
    | mbind _ ?m = _ => destruct m as [state|] eqn:Hloop; [|done]
    end.
    simpl in Hp.
    destruct (cleanupOutdatedCaches map_range now (cpuCache state)) as [c|]; [|done].
    simpl in Hp. injection Hp as <- _ _.
    apply (range_values_listed items kept); [done|].
    revert Hloop.
    apply (foldl_outcome_invariant _ (identified (podSandboxMapOf kept)));
      [|apply map_Forall_empty].
    intros s a s' Hs Hstep. by eapply listPodCPUAndMemoryStatsStep_identified.
Qed.

End ReportedPods.

(** X23's witness: an update pass over the example with a stat record
    of the running container [c2]. *)
Lemma reported_pods_are_listed_witness :
  Forall (fun ps => exists sandbox, sandbox ∈ examplePods /\ statsOf sandbox ps)
         [examplePodStats].
Proof.
  apply (reported_pods_are_listed (H := nullHelpers) zeroConversion stableSort
           rangeInOrder rangeInOrder_perm stableSort_perm
           (exampleUpstream [cpuSample "c2" 10 5]) true 20 ∅
           (<["c2" := recordOf 10 5 None]> ∅) examplePods [examplePodStats] None eq_refl).
  left. by vm_compute.
Defined.

